(** * Buntzen Lake parking-pass bot

    A shallow embedding of [src/bot.js], [src/utils.js], [src/scheduler.js]
    and the configuration of [src/config.js] with the options of
    [src/cli.js], and the properties of the booking workflow, of the
    scheduler and of the configuration proved about it.

    The bot drives a browser page.  The page is the environment: it is kept
    abstract behind the [Browser] interface, so every statement below holds
    for every page behaviour.  Reads ([page.$], [page.$$], [page.$x],
    [evaluate]) are functions of the current page; actions (click, type,
    wait, navigation, screenshots) may throw and move the page to any next
    state; [delay] lets time pass.  The bot's own fields, the logger output
    and the history of the actions performed are threaded through a
    state-and-exception monad. *)

From Stdlib Require Import String Ascii List ZArith Bool Lia DecimalString DecimalNat.
Import ListNotations.
Local Open Scope string_scope.

(* ================================================================== *)
(** ** JavaScript strings (byte strings; case and blanks on ASCII)     *)
(* ================================================================== *)

Module Js.

(** [hay.includes(needle)] *)
Fixpoint includes (hay needle : string) : bool :=
  String.prefix needle hay ||
  match hay with
  | EmptyString => false
  | String _ rest => includes rest needle
  end.

Definition lowerChar (c : ascii) : ascii :=
  let n := nat_of_ascii c in
  if ((65 <=? n) && (n <=? 90))%nat then ascii_of_nat (n + 32) else c.

(** [s.toLowerCase()]; it is also XPath's
    [translate(s, 'ABC...Z', 'abc...z')]. *)
Fixpoint toLowerCase (s : string) : string :=
  match s with
  | EmptyString => EmptyString
  | String c rest => String (lowerChar c) (toLowerCase rest)
  end.

Definition isSpace (c : ascii) : bool :=
  let n := nat_of_ascii c in
  (((9 <=? n) && (n <=? 13)) || (n =? 32))%nat.

Fixpoint trimStart (s : string) : string :=
  match s with
  | EmptyString => EmptyString
  | String c rest => if isSpace c then trimStart rest else s
  end.

Fixpoint trimEnd (s : string) : string :=
  match s with
  | EmptyString => EmptyString
  | String c rest =>
      let rest' := trimEnd rest in
      if isSpace c && (rest' =? EmptyString) then EmptyString
      else String c rest'
  end.

(** [s.trim()] *)
Definition trim (s : string) : string := trimEnd (trimStart s).

Definition isDigit (c : ascii) : bool :=
  let n := nat_of_ascii c in ((48 <=? n) && (n <=? 57))%nat.

(** [/^\d{2}\/\d{2}$/.test(s)] *)
Definition testMonthDay (s : string) : bool :=
  match s with
  | String a (String b (String sl (String c (String d EmptyString)))) =>
      isDigit a && isDigit b && Ascii.eqb sl "/" && isDigit c && isDigit d
  | _ => false
  end.

(** [/^\d{1,2}$/.test(s)] *)
Definition testDay (s : string) : bool :=
  match s with
  | String a EmptyString => isDigit a
  | String a (String b EmptyString) => isDigit a && isDigit b
  | _ => false
  end.

(** [s.split(sep)] for a one-character separator *)
Fixpoint split (sep : ascii) (s : string) : list string :=
  match s with
  | EmptyString => [EmptyString]
  | String c rest =>
      if Ascii.eqb c sep then EmptyString :: split sep rest
      else match split sep rest with
           | h :: t => String c h :: t
           | [] => [String c EmptyString]
           end
  end.

(** [s.substring(0, n)] *)
Definition substring0 (n : nat) (s : string) : string := String.substring 0 n s.

(** a number inside a template literal *)
Definition ofNat (n : nat) : string := NilZero.string_of_uint (Nat.to_uint n).
Definition ofZ (z : Z) : string := NilZero.string_of_int (Z.to_int z).

(** [xs.join(", ")] *)
Fixpoint join (sep : string) (xs : list string) : string :=
  match xs with
  | [] => EmptyString
  | [x] => x
  | x :: rest => x ++ sep ++ join sep rest
  end.

(** the double-quote character, for selectors and messages that hold one *)
Definition dq : string := String (ascii_of_nat 34) EmptyString.

(** truthiness of a string *)
Definition truthy (s : string) : bool := negb (s =? EmptyString).

End Js.

(* ================================================================== *)
(** ** Errors, element handles, browser actions                        *)
(* ================================================================== *)

(** A thrown [Error]; only its [message] is ever inspected. *)
Record JsError := mkError { message : string }.

(** What the bot reads from an element handle. [tagName] is the element's
    name as XPath matches it (lower case); [firstText] is the string
    value XPath gives to [text()] (the element's first text child);
    [properties] holds the DOM properties read through [evaluate]
    ([type], [id], [name], [placeholder], [maxLength], [aria-label]). *)
Record ElementHandle := mkElement {
  handle : nat;
  tagName : string;
  className : string;
  textContent : string;
  firstText : string;
  outerHTML : string;
  properties : list (string * string)
}.

Fixpoint lookupProperty (name : string) (ps : list (string * string)) : option string :=
  match ps with
  | [] => None
  | (k, v) :: rest => if k =? name then Some v else lookupProperty name rest
  end.

(** a property read through [evaluate]; an absent one reads as the empty string *)
Definition property (el : ElementHandle) (name : string) : string :=
  match lookupProperty name (properties el) with
  | Some v => v
  | None => EmptyString
  end.

Inductive action : Type :=
| Launch (headless : bool)
| NewPage
| SetUserAgent (ua : string)
| SetViewport (width height : Z)
| Goto (url : string) (timeout : Z)
| WaitForLoadState (state : string)
| Screenshot (path : string) (fullPage : bool)
| WaitForSelector (selector : string) (visible hidden : bool) (timeout : Z)
| Click (selector : string)
| Focus (selector : string)
| Clear (selector : string)
| TypeText (selector text : string)
| Select (selector value : string)
| ElementClick (el : ElementHandle) (clickCount : nat)
| ElementFocus (el : ElementHandle)
| ElementType (el : ElementHandle) (text : string)
| EvaluateClick (el : ElementHandle)
| Delay (ms : Z)
| Close.

(** One action the bot performed, with the error it threw if it did. *)
Record Event := mkEvent { performed : action; failure : option JsError }.

(** The rendering engine.
    [querySelectorAll] answers [page.$$]; [documentElements] lists the
    document's elements in document order (what an XPath [//tag] ranges
    over); [perform] runs an action; [elapse] lets time pass. *)
Class Browser (W : Type) : Type := {
  querySelectorAll : W -> string -> list ElementHandle;
  documentElements : W -> list ElementHandle;
  perform : W -> action -> option JsError * W;
  elapse : W -> Z -> W;
  dateNow : W -> Z;
  isoTimestamp : W -> string
}.

(** The XPath expressions the bot builds:
    [//tag[contains(@class, cls) and contains(text(), needle)]], the class
    test being absent when [cls] is empty, and [text()] lower-cased through
    [translate] when [lowered] is set. The needle is spliced between single
    quotes, so it is taken to contain none. *)
Record XPath := mkXPath {
  xTag : string;
  xClass : string;
  xLowered : bool;
  xNeedle : string
}.

Definition xpathMatches (x : XPath) (el : ElementHandle) : bool :=
  (tagName el =? xTag x) &&
  Js.includes (className el) (xClass x) &&
  Js.includes (if xLowered x then Js.toLowerCase (firstText el) else firstText el)
              (xNeedle x).

(* ================================================================== *)
(** ** Configuration ([src/config.js])                                 *)
(* ================================================================== *)

Record Selectors := mkSelectors {
  infoPopup : string;
  dateSelector : string;
  dateMain : string;
  addToCartBtn : string;
  otpSubmitBtn : string;
  addVehicleBtn : string;
  licensePlateInput : string;
  provinceSelect : string;
  colorSelect : string;
  makeSelect : string;
  modelInput : string;
  saveVehicleBtn : string;
  checkoutBtn : string;
  soldOut : string
}.

Record Config := mkConfig {
  phoneNumber : string;
  licensePlate : string;
  province : string;
  vehicleColor : string;
  vehicleMake : string;
  vehicleModel : string;
  passType : string;
  preferredDate : string;
  headless : bool;
  delayBetweenActions : Z;
  baseUrl : string
}.

Import Js.

(** [config.selectors]: a literal of [config.js], the same in every run *)
Definition selectors : Selectors := {|
  infoPopup := "#informationPopup";
  dateSelector := "button.date";
  dateMain := ".dateMain";
  addToCartBtn := ".themeBtn.btn-disbled.button.button-round, #cardBtn_12196";
  otpSubmitBtn := ".themeBtn.btn-disbled.button";
  addVehicleBtn := "input[value=" ++ dq ++ "new_vehicle" ++ dq ++ "]";
  licensePlateInput := "#licencePlateTxt";
  provinceSelect := "#stateSelect select";
  colorSelect := "#colourSelect select";
  makeSelect := "#makeModelSelect select";
  modelInput := "#vehicleModelTxt";
  saveVehicleBtn := ".themeBtn.button.button-round";
  checkoutBtn := "#checkOutButton";
  soldOut := ".soldout"
|}.

(** The other fields of [config], here as read with no environment
    variable set. *)
Definition defaultConfig : Config := {|
  phoneNumber := "6043679066";
  licensePlate := EmptyString;
  province := "BC";
  vehicleColor := "BLACK";
  vehicleMake := "Tesla";
  vehicleModel := "Y";
  passType := "all_day";
  preferredDate := "17";
  headless := false;
  delayBetweenActions := 100;
  baseUrl := "https://yodelportal.com/buntzen-lake"
|}.

(* ================================================================== *)
(** ** Bot state and the monad of bot operations                       *)
(* ================================================================== *)

Inductive Level := Info | Warn | Err.

(** One line handed to the logger: its level and its message. *)
Record LogEntry := mkLog { level : Level; text : string }.

(** The fields of [BuntzenLakeBot] ([browser] and [page] hold whether the
    field is non-null), the scheduler's [isRunning] guard, the page, the
    logger output and the history of the actions performed. *)
Record State (W : Type) := mkState {
  world : W;
  log : list LogEntry;
  trace : list Event;
  browser : bool;
  page : bool;
  isLoggedIn : bool;
  vehicleAdded : bool;
  isRunning : bool
}.

Arguments mkState {W}.
Arguments world {W}.
Arguments log {W}.
Arguments trace {W}.
Arguments browser {W}.
Arguments page {W}.
Arguments isLoggedIn {W}.
Arguments vehicleAdded {W}.
Arguments isRunning {W}.

Inductive Result (A : Type) : Type :=
| Ok (a : A)
| Throw (e : JsError)
| OutOfFuel.

Arguments Ok {A}.
Arguments Throw {A}.
Arguments OutOfFuel {A}.

Definition M (W A : Type) : Type := State W -> Result A * State W.

Definition ret {W A} (a : A) : M W A := fun s => (Ok a, s).

Definition bind {W A B} (m : M W A) (k : A -> M W B) : M W B :=
  fun s =>
    match m s with
    | (Ok a, s') => k a s'
    | (Throw e, s') => (Throw e, s')
    | (OutOfFuel, s') => (OutOfFuel, s')
    end.

Definition throw {W A} (e : JsError) : M W A := fun s => (Throw e, s).

(** [try { m } catch (error) { h error }] *)
Definition tryCatch {W A} (m : M W A) (h : JsError -> M W A) : M W A :=
  fun s =>
    match m s with
    | (Throw e, s') => h e s'
    | other => other
    end.

(** [try { m } finally { f }] *)
Definition tryFinally {W A} (m : M W A) (f : M W unit) : M W A :=
  fun s =>
    match m s with
    | (OutOfFuel, s') => (OutOfFuel, s')
    | (r, s') =>
        match f s' with
        | (Ok _, s'') => (r, s'')
        | (Throw e, s'') => (Throw e, s'')
        | (OutOfFuel, s'') => (OutOfFuel, s'')
        end
    end.

Definition gets {W A} (f : State W -> A) : M W A := fun s => (Ok (f s), s).

Definition modify {W} (f : State W -> State W) : M W unit := fun s => (Ok tt, f s).

Declare Scope bot_scope.
Delimit Scope bot_scope with bot.
Notation "x <- m ;; k" := (bind m (fun x => k))
  (at level 61, m at next level, right associativity) : bot_scope.
Notation "m ;; k" := (bind m (fun _ => k))
  (at level 61, right associativity) : bot_scope.
Local Open Scope bot_scope.

(** [for (const x of xs) { ... }] whose body either goes on to the next
    element ([None]: it fell through or hit [continue]) or leaves the loop
    with a value ([Some]: [break]). *)
Fixpoint forOf {W A B} (xs : list A) (body : A -> M W (option B)) : M W (option B) :=
  match xs with
  | [] => ret None
  | x :: rest =>
      r <- body x ;;
      match r with
      | Some b => ret (Some b)
      | None => forOf rest body
      end
  end.

Definition isSome {A} (o : option A) : bool :=
  match o with Some _ => true | None => false end.

Definition setWorld {W} (w : W) (s : State W) : State W :=
  mkState w (log s) (trace s) (browser s) (page s) (isLoggedIn s) (vehicleAdded s) (isRunning s).
Definition addLog {W} (e : LogEntry) (s : State W) : State W :=
  mkState (world s) (log s ++ [e]) (trace s) (browser s) (page s) (isLoggedIn s) (vehicleAdded s) (isRunning s).
Definition addEvent {W} (e : Event) (s : State W) : State W :=
  mkState (world s) (log s) (trace s ++ [e]) (browser s) (page s) (isLoggedIn s) (vehicleAdded s) (isRunning s).
Definition setBrowser {W} (b : bool) (s : State W) : State W :=
  mkState (world s) (log s) (trace s) b (page s) (isLoggedIn s) (vehicleAdded s) (isRunning s).
Definition setPage {W} (b : bool) (s : State W) : State W :=
  mkState (world s) (log s) (trace s) (browser s) b (isLoggedIn s) (vehicleAdded s) (isRunning s).
Definition setIsLoggedIn {W} (b : bool) (s : State W) : State W :=
  mkState (world s) (log s) (trace s) (browser s) (page s) b (vehicleAdded s) (isRunning s).
Definition setVehicleAdded {W} (b : bool) (s : State W) : State W :=
  mkState (world s) (log s) (trace s) (browser s) (page s) (isLoggedIn s) b (isRunning s).
Definition setIsRunning {W} (b : bool) (s : State W) : State W :=
  mkState (world s) (log s) (trace s) (browser s) (page s) (isLoggedIn s) (vehicleAdded s) b.

(** [new BuntzenLakeBot()]: the constructor's field values. *)
Definition newBot {W} (s : State W) : State W :=
  mkState (world s) (log s) (trace s) false false false false (isRunning s).

(* ================================================================== *)
(** ** [src/logger.js]                                                 *)
(* ================================================================== *)

Module logger.
Section Logger.
Context {W : Type}.

Definition write (l : Level) (t : string) : M W unit := modify (addLog (mkLog l t)).

Definition logSuccess (msg : string) : M W unit := write Info ("✅ " ++ msg).
Definition logWarning (msg : string) : M W unit := write Warn ("⚠️ " ++ msg).
Definition logError (msg : string) (error : option JsError) : M W unit :=
  match error with
  | Some e => write Err (msg ++ ": " ++ message e)
  | None => write Err ("❌ " ++ msg)
  end.
Definition logStep (step : string) : M W unit := write Info ("🔄 " ++ step).
Definition logCompletion (step : string) : M W unit := write Info ("✅ Completed: " ++ step).
Definition logInfo (msg : string) : M W unit := write Info ("ℹ️ " ++ msg).

End Logger.
End logger.

(* ================================================================== *)
(** ** The page object                                                 *)
(* ================================================================== *)

Section Page.
Context {W : Type} {B : Browser W}.

(** an action on the page or the browser: it may throw, and is recorded *)
Definition act (a : action) : M W unit :=
  fun s =>
    let (r, w') := perform (world s) a in
    (match r with None => Ok tt | Some e => Throw e end,
     setWorld w' (addEvent (mkEvent a r) s)).

(** [page.$$(selector)] *)
Definition page_queryAll (selector : string) : M W (list ElementHandle) :=
  gets (fun s => querySelectorAll (world s) selector).

(** [page.$(selector)]: the first match, or null *)
Definition page_query (selector : string) : M W (option ElementHandle) :=
  gets (fun s => head (querySelectorAll (world s) selector)).

(** [page.$x(expression)] *)
Definition page_xpath (x : XPath) : M W (list ElementHandle) :=
  gets (fun s => filter (xpathMatches x) (documentElements (world s))).

End Page.

(* ================================================================== *)
(** ** [src/utils.js]                                                  *)
(* ================================================================== *)

Module utils.
Section Utils.
Context {W : Type} {B : Browser W}.

(** [delay(ms)]: a timer; it cannot fail *)
Definition delay (ms : Z) : M W unit :=
  modify (fun s => setWorld (elapse (world s) ms) (addEvent (mkEvent (Delay ms) None) s)).

Definition waitForElementVisible (selector : string) (timeout : Z) : M W (option ElementHandle) :=
  tryCatch
    (act (WaitForSelector selector true false timeout) ;;
     page_query selector)
    (fun _ => throw (mkError ("Element not visible: " ++ selector))).

Definition defaultTimeout : Z := 10000.

(** the [try] block of [clickElement]: one attempt *)
Definition clickAttempt (selector : string) : M W bool :=
  waitForElementVisible selector defaultTimeout ;;
  act (Click selector) ;;
  logger.logSuccess ("Clicked element: " ++ selector) ;;
  ret true.

(** The loop of [clickElement], with [remaining] iterations to go; the
    attempt number of the iteration is [maxRetries - remaining + 1]. *)
Fixpoint clickElementFrom (selector : string) (maxRetries remaining : nat) : M W bool :=
  match remaining with
  | O => ret false
  | S remaining' =>
      let attempt := (maxRetries - remaining')%nat in
      tryCatch
        (clickAttempt selector)
        (fun error =>
           logger.logWarning ("Click attempt " ++ ofNat attempt ++ " failed for "
                              ++ selector ++ ": " ++ message error) ;;
           if (attempt =? maxRetries)%nat then throw error
           else (delay 1000 ;; clickElementFrom selector maxRetries remaining'))
  end.

Definition clickElement (selector : string) (maxRetries : nat) : M W bool :=
  clickElementFrom selector maxRetries maxRetries.

Definition defaultMaxRetries : nat := 3.

Definition fillInput (selector text : string) : M W bool :=
  tryCatch
    (waitForElementVisible selector defaultTimeout ;;
     act (Focus selector) ;;
     act (Clear selector) ;;
     act (TypeText selector text) ;;
     logger.logSuccess ("Filled input " ++ selector ++ " with: " ++ text) ;;
     ret true)
    (fun error =>
       logger.logError ("Failed to fill input " ++ selector ++ ": " ++ message error) None ;;
       ret false).

Definition selectOption (selector value : string) : M W bool :=
  tryCatch
    (waitForElementVisible selector defaultTimeout ;;
     act (Select selector value) ;;
     logger.logSuccess ("Selected option " ++ value ++ " from " ++ selector) ;;
     ret true)
    (fun error =>
       logger.logError ("Failed to select option from " ++ selector ++ ": " ++ message error) None ;;
       ret false).

Definition elementExists (selector : string) : M W bool :=
  tryCatch
    (element <- page_query selector ;;
     ret (isSome element))
    (fun _ => ret false).

Definition waitForPageLoad : M W unit :=
  tryCatch
    (act (WaitForLoadState "networkidle") ;;
     delay 1000)
    (fun _ => logger.logWarning "Page load wait failed, continuing anyway").

(** [timestamp.replace(/[:.]/g, "-")] *)
Fixpoint dashColonsAndDots (s : string) : string :=
  match s with
  | EmptyString => EmptyString
  | String c rest =>
      String (if (Ascii.eqb c ":" || Ascii.eqb c ".")%bool then "-"%char else c)
             (dashColonsAndDots rest)
  end.

Definition takeScreenshot (filename : string) : M W (option string) :=
  tryCatch
    (timestamp <- gets (fun s => dashColonsAndDots (isoTimestamp (world s))) ;;
     let filepath := "screenshots/" ++ filename ++ "_" ++ timestamp ++ ".png" in
     act (Screenshot filepath true) ;;
     logger.logSuccess ("Screenshot saved: " ++ filepath) ;;
     ret (Some filepath))
    (fun error =>
       logger.logError ("Failed to take screenshot: " ++ message error) None ;;
       ret None).

End Utils.
End utils.

(** the error of a sold-out pass (line 723) *)
Definition soldOutError : JsError := mkError "Pass is sold out for the selected date".

(* ================================================================== *)
(** ** [src/bot.js]: class [BuntzenLakeBot]                            *)
(* ================================================================== *)

Module bot.
Section Bot.
Context {W : Type} {B : Browser W}.
Variable config : Config.

Import logger.

Definition userAgent : string :=
  "Mozilla/5.0 (Windows NT 10.0; Win64; x64) AppleWebKit/537.36 (KHTML, like Gecko) Chrome/91.0.4472.124 Safari/537.36".

(** [page.$eval(selector, el => el.textContent)]: throws when nothing matches *)
Definition page_evalTextContent (selector : string) : M W string :=
  element <- page_query selector ;;
  match element with
  | Some el => ret (textContent el)
  | None => throw (mkError ("failed to find element matching selector " ++ dq ++ selector ++ dq))
  end.

(** [element.click()] *)
Definition click (el : ElementHandle) : M W unit := act (ElementClick el 1).

(** the debugging screenshot of the date pickers:
    [page.screenshot({ path: `logs/${name}_${Date.now()}.png` })] inside
    its own try/catch *)
Definition debugScreenshot (name : string) : M W unit :=
  tryCatch
    (now <- gets (fun s => dateNow (world s)) ;;
     act (Screenshot ("logs/" ++ name ++ "_" ++ ofZ now ++ ".png") false) ;;
     logInfo "Screenshot saved for debugging")
    (fun screenshotError =>
       logWarning ("Could not save screenshot: " ++ message screenshotError)).

Definition initialize : M W bool :=
  tryCatch
    (logStep "Initializing bot" ;;
     act (Launch (headless config)) ;;
     modify (setBrowser true) ;;
     act NewPage ;;
     modify (setPage true) ;;
     act (SetUserAgent userAgent) ;;
     act (SetViewport 1366 768) ;;
     logSuccess "Bot initialized successfully" ;;
     ret true)
    (fun error =>
       logError "Failed to initialize bot" (Some error) ;;
       throw error).

Definition navigateToPortal : M W bool :=
  tryCatch
    (logStep "Navigating to Buntzen Lake portal" ;;
     act (Goto (baseUrl config) 30000) ;;
     utils.waitForPageLoad ;;
     logSuccess "Successfully navigated to portal" ;;
     utils.takeScreenshot "portal_loaded" ;;
     ret true)
    (fun error =>
       logError "Failed to navigate to portal" (Some error) ;;
       throw error).

Definition buttonSelectors : list string :=
  [ "a.themeBtn.button.popup-close";
    ".themeBtn.button.popup-close";
    "a[href='#']";
    "a.themeBtn.button";
    ".themeBtn.button";
    ".popup-close";
    "a.popup-close" ].

(** lines 110-123: the XPath attempt at the popup's button *)
Definition clickGoToPassByXPath : M W bool :=
  tryCatch
    (xpathButton <- page_xpath (mkXPath "a" EmptyString false "Go To Pass") ;;
     match xpathButton with
     | first :: _ =>
         click first ;;
         logSuccess "Clicked 'Go To Pass(es)' button using XPath" ;;
         ret true
     | [] => ret false
     end)
    (fun error =>
       logWarning ("XPath search failed: " ++ message error) ;;
       ret false).

(** lines 126-166: the CSS selectors tried in turn *)
Definition clickGoToPassBySelector : M W bool :=
  r <- forOf buttonSelectors (fun selector =>
         tryCatch
           (found <- utils.elementExists selector ;;
            if found then
              element <- page_query selector ;;
              match element with
              | Some el =>
                  let text := textContent el in
                  if includes text "Go To Pass" then
                    utils.clickElement selector utils.defaultMaxRetries ;;
                    logSuccess ("Clicked button using selector: " ++ selector) ;;
                    ret (Some tt)
                  else
                    logInfo ("Selector " ++ selector ++ " found element with text: "
                             ++ dq ++ text ++ dq) ;;
                    ret None
              | None => throw (mkError "Cannot read properties of null (reading 'evaluate')")
              end
            else ret None)
           (fun error =>
              logWarning ("Selector " ++ selector ++ " failed: " ++ message error) ;;
              ret None)) ;;
  ret (isSome r).

(** lines 168-198: any clickable element with the button's text *)
Definition clickGoToPassByText : M W bool :=
  elements <- page_queryAll "a, button, .themeBtn" ;;
  logInfo ("Found " ++ ofNat (length elements) ++ " potential clickable elements") ;;
  r <- forOf elements (fun element =>
         tryCatch
           (let text := textContent element in
            logInfo ("Element: " ++ tagName element ++ "." ++ className element
                     ++ " - " ++ dq ++ text ++ dq) ;;
            if includes text "Go To Pass"
               || includes text "Go To Pass(es)"
               || (includes text "Pass" && includes text "Go")
            then
              click element ;;
              logSuccess ("Clicked button by text content: " ++ dq ++ text ++ dq) ;;
              ret (Some tt)
            else ret None)
           (fun _ => ret None)) ;;
  ret (isSome r).

Definition handleInfoPopup : M W bool :=
  tryCatch
    (logStep "Handling information popup" ;;
     popupExists <- utils.elementExists (infoPopup selectors) ;;
     (if popupExists then
        logStep ("Info popup found, looking for " ++ dq ++ "Go To Pass(es)" ++ dq ++ " button") ;;
        utils.takeScreenshot "info_popup" ;;
        popupText <- page_evalTextContent (infoPopup selectors) ;;
        logInfo ("Popup content: " ++ substring0 200 popupText ++ "...") ;;
        buttonClicked <- clickGoToPassByXPath ;;
        buttonClicked <- (if negb buttonClicked then clickGoToPassBySelector
                          else ret buttonClicked) ;;
        buttonClicked <- (if negb buttonClicked then clickGoToPassByText
                          else ret buttonClicked) ;;
        if buttonClicked then utils.delay (delayBetweenActions config)
        else logWarning ("Could not find " ++ dq ++ "Go To Pass(es)" ++ dq
                         ++ " button, continuing anyway")
      else logStep "No info popup found, continuing") ;;
     logCompletion "Info popup handled" ;;
     ret true)
    (fun error =>
       logError "Failed to handle info popup" (Some error) ;;
       logWarning "Continuing despite info popup error" ;;
       ret true).

(** the test of lines 238-248 on a card's text *)
Definition passCardMatches (cardText : string) : bool :=
  let isAllDay := includes cardText "All Day Pass" || includes cardText "All-day Pass" in
  let isHalfDay := includes cardText "Half Day Pass" || includes cardText "Half-day Pass" in
  ((passType config =? "all_day") && isAllDay) ||
  ((passType config =? "half_day") && isHalfDay).

Definition selectPassType : M W bool :=
  tryCatch
    (logStep ("Selecting pass type: " ++ passType config) ;;
     utils.delay 2000 ;;
     passCards <- page_queryAll ".gridCard, .cardRow .gridCard" ;;
     r <- forOf passCards (fun card =>
            tryCatch
              (let cardText := textContent card in
               if passCardMatches cardText then
                 click card ;;
                 logSuccess ("Selected " ++ passType config ++ " pass") ;;
                 ret (Some tt)
               else ret None)
              (fun _ => ret None)) ;;
     let passSelected := isSome r in
     (if negb passSelected then
        match passCards with
        | first :: _ =>
            click first ;;
            logWarning "Could not find specific pass type, selected first available"
        | [] => throw (mkError "No pass cards found")
        end
      else ret tt) ;;
     utils.delay (delayBetweenActions config) ;;
     logCompletion "Pass type selected" ;;
     ret true)
    (fun error =>
       logError "Failed to select pass type" (Some error) ;;
       throw error).

(** lines 313-328: the day to look for; the empty string stands for the
    variable left undefined *)
Definition resolvePreferredDay : M W string :=
  if testMonthDay (preferredDate config) then
    let preferredDay := nth 1 (split "/" (preferredDate config)) EmptyString in
    logInfo ("Looking for preferred date: " ++ preferredDate config
             ++ " (day: " ++ preferredDay ++ ")") ;;
    ret preferredDay
  else if testDay (preferredDate config) then
    let preferredDay := preferredDate config in
    logInfo ("Looking for preferred date: day " ++ preferredDay) ;;
    ret preferredDay
  else
    logWarning ("Invalid date format: " ++ preferredDate config
                ++ ". Expected MM/DD or just day number.") ;;
    ret EmptyString.

Definition buttonText (button : ElementHandle) : string := trim (textContent button).

(** lines 332-380: the date buttons of the scheduler *)
Definition collectDateButtons : M W (list ElementHandle) :=
  dateButtons <- page_queryAll "#scheduler_12196 .dateMain button.date" ;;
  dateButtons <-
    (if (length dateButtons =? 0)%nat then
       logWarning "No dates found in scheduler, trying alternative selectors" ;;
       altDateButtons <- page_queryAll "#scheduler_12196 button.date" ;;
       if (0 <? length altDateButtons)%nat then
         logInfo ("Found " ++ ofNat (length altDateButtons)
                  ++ " dates using alternative selector") ;;
         ret (dateButtons ++ altDateButtons)%list
       else ret dateButtons
     else ret dateButtons) ;;
  (if (length dateButtons =? 0)%nat then
     logError "No date buttons found in scheduler. This might indicate a page structure change." None ;;
     debugScreenshot "scheduler_date_selection_error"
   else ret tt) ;;
  logInfo ("Available dates in scheduler: " ++ join ", " (map buttonText dateButtons)) ;;
  ret dateButtons.

(** lines 417-435: the body of the loop over the date buttons *)
Definition clickIfPreferred (preferredDay : string) (button : ElementHandle) : M W (option unit) :=
  logInfo ("Checking button: " ++ dq ++ buttonText button ++ dq
           ++ " vs preferred: " ++ dq ++ preferredDay ++ dq) ;;
  if buttonText button =? preferredDay then
    logInfo ("Found matching date button: " ++ dq ++ buttonText button ++ dq) ;;
    click button ;;
    logSuccess ("Selected preferred date: " ++ preferredDate config
                ++ " (day: " ++ preferredDay ++ ")") ;;
    ret (Some tt)
  else ret None.

(** lines 388-410: is the preferred day the active date already *)
Definition preferredDayIsActive (preferredDay : string) : M W bool :=
  activeDateButton <- page_query "#scheduler_12196 .dateMain button.date.active" ;;
  match activeDateButton with
  | Some active =>
      let activeDateText := buttonText active in
      logInfo ("Found active date button: " ++ dq ++ activeDateText ++ dq) ;;
      if activeDateText =? preferredDay then
        logSuccess ("Preferred date " ++ preferredDay ++ " is already active/selected") ;;
        ret true
      else
        logInfo ("Active date " ++ activeDateText ++ " doesn't match preferred date "
                 ++ preferredDay ++ ", will click preferred date") ;;
        ret false
  | None => ret false
  end.

(** lines 383-437: the preferred day, already active or to be clicked *)
Definition selectPreferredDay (preferredDay : string) (dateButtons : list ElementHandle) : M W bool :=
  if truthy preferredDay then
    logInfo ("Searching for date button with text: " ++ dq ++ preferredDay ++ dq) ;;
    dateSelected <- preferredDayIsActive preferredDay ;;
    if negb dateSelected then
      logInfo ("Searching for date button with text: " ++ dq ++ preferredDay ++ dq) ;;
      r <- forOf dateButtons (clickIfPreferred preferredDay) ;;
      ret (isSome r)
    else ret dateSelected
  else ret false.

(** lines 446-473: the first date button there is *)
Definition selectFirstAvailableDate (dateSelected : bool) : M W bool :=
  logInfo "No preferred date set or preferred date not found, selecting first available date from scheduler" ;;
  firstAvailableDate <- page_query "#scheduler_12196 .dateMain button.date" ;;
  firstAvailableDate <-
    match firstAvailableDate with
    | Some _ => ret firstAvailableDate
    | None => page_query "#scheduler_12196 button.date"
    end ;;
  match firstAvailableDate with
  | Some first =>
      click first ;;
      logSuccess ("Selected available date from scheduler: " ++ buttonText first) ;;
      ret true
  | None => ret dateSelected
  end.

(** lines 311-444: the body of [if (config.preferredDate)]; it yields
    [dateSelected] *)
Definition selectPreferredDate : M W bool :=
  preferredDay <- resolvePreferredDay ;;
  dateButtons <- collectDateButtons ;;
  dateSelected <- selectPreferredDay preferredDay dateButtons ;;
  (if negb dateSelected then
     logWarning ("Preferred date " ++ preferredDate config
                 ++ " not available in scheduler, selecting first available")
   else ret tt) ;;
  ret dateSelected.

(** lines 309-495: the date is chosen, the picker being there *)
Definition chooseDate : M W bool :=
  dateSelected <-
    (if truthy (preferredDate config) then selectPreferredDate
     else ret false) ;;
  dateSelected <-
    (if negb (truthy (preferredDate config)) || negb dateSelected
     then selectFirstAvailableDate dateSelected
     else ret dateSelected) ;;
  utils.delay (delayBetweenActions config) ;;
  (if negb dateSelected then
     logWarning "No date was selected from scheduler, this might cause issues later" ;;
     debugScreenshot "no_scheduler_date_selected"
   else ret tt) ;;
  logCompletion "Date selected from new picker" ;;
  ret true.

Definition selectDateFromNewPicker : M W bool :=
  tryCatch
    (logStep "Selecting date from new date picker after vehicle selection" ;;
     utils.waitForElementVisible "#scheduler_12196 .dateMain" utils.defaultTimeout ;;
     utils.delay 1000 ;;
     tryCatch
       (element <- page_query "#scheduler_12196" ;;
        let schedulerHTML :=
          match element with
          | Some el => outerHTML el
          | None => "Element not found"
          end in
        logInfo ("Scheduler HTML: " ++ substring0 300 schedulerHTML ++ "..."))
       (fun error => logWarning ("Could not log scheduler HTML: " ++ message error)) ;;
     chooseDate)
    (fun error =>
       logError "Failed to select date from new picker" (Some error) ;;
       throw error).


Definition addToCart : M W bool :=
  tryCatch
    (logStep "Adding pass to cart" ;;
     utils.waitForElementVisible (addToCartBtn selectors) utils.defaultTimeout ;;
     soldOutExists <- utils.elementExists (soldOut selectors) ;;
     if soldOutExists then throw soldOutError
     else
       utils.clickElement (addToCartBtn selectors) utils.defaultMaxRetries ;;
       utils.delay (delayBetweenActions config) ;;
       logCompletion "Pass added to cart" ;;
       ret true)
    (fun error =>
       logError "Failed to add to cart" (Some error) ;;
       throw error).

(** lines 847-871: the five fields of the vehicle form; what [fillInput]
    and [selectOption] return is dropped *)
Definition fillVehicleFields : M W unit :=
  utils.fillInput (licensePlateInput selectors) (licensePlate config) ;;
  utils.selectOption (provinceSelect selectors) (province config) ;;
  utils.selectOption (colorSelect selectors) (vehicleColor config) ;;
  utils.selectOption (makeSelect selectors) (vehicleMake config) ;;
  utils.fillInput (modelInput selectors) (vehicleModel config) ;;
  ret tt.

Definition fillVehicleForm : M W bool :=
  tryCatch
    (logStep "Filling vehicle form" ;;
     utils.waitForElementVisible (licensePlateInput selectors) utils.defaultTimeout ;;
     fillVehicleFields ;;
     utils.clickElement (saveVehicleBtn selectors) utils.defaultMaxRetries ;;
     utils.delay 2000 ;;
     modify (setVehicleAdded true) ;;
     logCompletion "Vehicle form filled and saved" ;;
     ret true)
    (fun error =>
       logError "Failed to fill vehicle form" (Some error) ;;
       throw error).

Definition newVehicleOption : string := "option[value=" ++ dq ++ "new_vehicle" ++ dq ++ "]".
Definition existingVehicleOption : string := "option[value*=" ++ dq ++ "__BC" ++ dq ++ "]".

(** lines 805-810 and 813-818 *)
Definition selectExistingVehicleOption : M W unit :=
  existingVehicle <- page_query existingVehicleOption ;;
  match existingVehicle with
  | Some el =>
      click el ;;
      logSuccess "Selected existing vehicle"
  | None => ret tt
  end.

(** lines 781-788: the vehicle selector is opened *)
Definition openVehicleSelector : M W unit :=
  logStep "Handling vehicle selection for signed-in user" ;;
  utils.waitForElementVisible "#selectVehicleSmartSelect" utils.defaultTimeout ;;
  utils.clickElement "#selectVehicleSmartSelect" utils.defaultMaxRetries ;;
  utils.delay 1000.

Definition handleVehicleSelectionForSignedInUser : M W bool :=
  tryCatch
    (openVehicleSelector ;;
     added <- gets vehicleAdded ;;
     (if negb added then
        logStep "Adding new vehicle for signed-in user" ;;
        addVehicleOption <- page_query newVehicleOption ;;
        match addVehicleOption with
        | Some el =>
            click el ;;
            utils.delay 1000 ;;
            fillVehicleForm ;;
            ret tt
        | None => selectExistingVehicleOption
        end
      else selectExistingVehicleOption) ;;
     utils.delay 1000 ;;
     logCompletion "Vehicle selection completed for signed-in user" ;;
     ret true)
    (fun error =>
       logError "Failed to handle vehicle selection for signed-in user" (Some error) ;;
       throw error).

Definition handleSignedInBooking : M W bool :=
  tryCatch
    (logStep "Handling booking page for signed-in user" ;;
     utils.delay 3000 ;;
     vehicleSelectExists <- utils.elementExists "#selectVehicleSmartSelect" ;;
     (if vehicleSelectExists then
        logStep "Vehicle selection required" ;;
        handleVehicleSelectionForSignedInUser ;;
        ret tt
      else ret tt) ;;
     logStep "Vehicle selected, now selecting date from new date picker" ;;
     selectDateFromNewPicker ;;
     addToCart ;;
     logCompletion "Signed-in booking handled" ;;
     ret true)
    (fun error =>
       logError "Failed to handle signed-in booking" (Some error) ;;
       throw error).

(* ---------------------------------------------------------------- *)
(** *** One-time code                                                *)

Definition otpSelectors : list string :=
  [ ".otpFocusInput";
    "input[type=" ++ dq ++ "tel" ++ dq ++ "]";
    "input[maxlength=" ++ dq ++ "1" ++ dq ++ "]";
    "input[aria-label*=" ++ dq ++ "verification" ++ dq ++ "]";
    "input[aria-label*=" ++ dq ++ "Digit" ++ dq ++ "]" ].

(** lines 1062-1120: the code's input fields *)
Definition findOtpInputs : M W (list ElementHandle) :=
  r <- forOf otpSelectors (fun selector =>
         tryCatch
           (inputs <- page_queryAll selector ;;
            if (4 <=? length inputs)%nat then
              logSuccess ("Found " ++ ofNat (length inputs)
                          ++ " OTP inputs with selector: " ++ selector) ;;
              ret (Some inputs)
            else ret None)
           (fun _ => ret None)) ;;
  let otpInputs := match r with Some inputs => inputs | None => [] end in
  otpInputs <-
    (if (length otpInputs =? 0)%nat then
       allInputs <- page_queryAll "input" ;;
       logInfo ("Found " ++ ofNat (length allInputs) ++ " input fields on the page") ;;
       let otpInputs :=
         filter (fun input =>
                   (property input "maxLength" =? "1")
                   || (property input "type" =? "tel")
                   || includes (property input "aria-label") "Digit"
                   || includes (property input "aria-label") "verification")
                allInputs in
       logInfo ("Identified " ++ ofNat (length otpInputs) ++ " potential OTP input fields") ;;
       ret otpInputs
     else ret otpInputs) ;;
  if (length otpInputs =? 0)%nat then throw (mkError "Could not find OTP input fields")
  else ret otpInputs.

Definition maxWaitTime : Z := 300000.
Definition checkInterval : Z := 2000.

(** the predicate polled at line 1136 *)
Definition otpStillVisible (w : W) : bool :=
  negb (length (querySelectorAll w ".otpFocusInput") =? 0)%nat
  || negb (length (querySelectorAll w ("input[maxlength=" ++ dq ++ "1" ++ dq ++ "]")) =? 0)%nat.

(** lines 1134-1159: the wait loop, entered with [waitedTime]; it yields
    the value of [waitedTime] when the loop is left. *)
Fixpoint otpWaitLoop (maxWait interval : Z) (fuel : nat) (waitedTime : Z) : M W Z :=
  match fuel with
  | O => fun s => (OutOfFuel, s)
  | S fuel' =>
      if (waitedTime <? maxWait)%Z then
        stillVisible <- gets (fun s => otpStillVisible (world s)) ;;
        if negb stillVisible then
          logSuccess "✅ OTP verification appears to be completed" ;;
          ret waitedTime
        else
          utils.delay interval ;;
          let waitedTime := (waitedTime + interval)%Z in
          (if (Z.rem waitedTime 10000 =? 0)%Z then
             logInfo ("⏳ Still waiting for OTP verification... ("
                      ++ ofZ (waitedTime / 1000) ++ "s)")
           else ret tt) ;;
          otpWaitLoop maxWait interval fuel' waitedTime
      else ret waitedTime
  end.

(** iterations that exhaust the ceiling from zero, and one more *)
Definition otpFuel : nat := 151.

(** lines 1128-1166: the wait for the code to be entered by hand *)
Definition awaitOtpEntry : M W Z :=
  waitedTime <- otpWaitLoop maxWaitTime checkInterval otpFuel 0 ;;
  (if (maxWaitTime <=? waitedTime)%Z then
     logWarning "⚠️  Timeout waiting for OTP verification" ;;
     logInfo "Please complete the verification manually and the bot will continue"
   else ret tt) ;;
  ret waitedTime.

Definition submitSelectors : list string :=
  [ otpSubmitBtn selectors;
    ".themeBtn.button";
    "button[type=" ++ dq ++ "submit" ++ dq ++ "]";
    "a.themeBtn.button" ].

(** lines 1168-1199: the submission of the code *)
Definition submitOtp : M W bool :=
  r <- forOf submitSelectors (fun selector =>
         tryCatch
           (found <- utils.elementExists selector ;;
            if found then
              utils.clickElement selector utils.defaultMaxRetries ;;
              logSuccess ("OTP submitted using selector: " ++ selector) ;;
              ret (Some tt)
            else ret None)
           (fun error =>
              logWarning ("Submit selector " ++ selector ++ " failed: " ++ message error) ;;
              ret None)) ;;
  let otpSubmitted := isSome r in
  (if negb otpSubmitted then throw (mkError "Could not submit OTP") else ret tt) ;;
  utils.delay (delayBetweenActions config) ;;
  logCompletion "OTP verification completed" ;;
  ret true.

(** lines 1054-1126: up to the request that the code be entered *)
Definition requestOtpEntry : M W unit :=
  logStep "Handling OTP verification" ;;
  utils.delay 3000 ;;
  utils.takeScreenshot "otp_form" ;;
  findOtpInputs ;;
  logWarning "⚠️  OTP verification code required!" ;;
  logInfo "📱 Please check your phone for the verification code" ;;
  logInfo "⌨️  Enter the 4-digit code manually in the browser" ;;
  logInfo "⏳ Bot will wait for you to complete this step...".

Definition handleOTPVerification : M W bool :=
  tryCatch
    (requestOtpEntry ;;
     awaitOtpEntry ;;
     submitOtp)
    (fun error =>
       logError "Failed to handle OTP verification" (Some error) ;;
       throw error).

(* ---------------------------------------------------------------- *)
(** *** Login                                                        *)

Definition phoneInputSelectors : list string :=
  [ "#txtPhonenumber";
    "input[name=" ++ dq ++ "number" ++ dq ++ "]";
    "input[type=" ++ dq ++ "number" ++ dq ++ "]";
    "input[placeholder*=" ++ dq ++ "Enter number" ++ dq ++ "]" ].

(** lines 899-964: the phone-number field; the result is [phoneInput] *)
Definition findPhoneInput : M W ElementHandle :=
  r <- forOf phoneInputSelectors (fun selector =>
         tryCatch
           (found <- utils.elementExists selector ;;
            if found then
              phoneInput <- page_query selector ;;
              logSuccess ("Found phone input with selector: " ++ selector) ;;
              ret (Some phoneInput)
            else ret None)
           (fun error =>
              logWarning ("Selector " ++ selector ++ " failed: " ++ message error) ;;
              ret None)) ;;
  r <-
    (if negb (isSome r) then
       allInputs <- page_queryAll "input" ;;
       logInfo ("Found " ++ ofNat (length allInputs) ++ " input fields on the page") ;;
       forOf allInputs (fun input =>
         tryCatch
           (let inputType := property input "type" in
            let inputId := property input "id" in
            let inputName := property input "name" in
            let inputPlaceholder := property input "placeholder" in
            logInfo ("Input: type=" ++ inputType ++ ", id=" ++ inputId ++ ", name="
                     ++ inputName ++ ", placeholder=" ++ inputPlaceholder) ;;
            if (inputType =? "number")
               || includes inputId "phone"
               || includes inputName "number"
               || includes inputPlaceholder "number"
               || includes inputPlaceholder "phone"
            then
              logSuccess ("Found phone input by attributes: type=" ++ inputType
                          ++ ", id=" ++ inputId) ;;
              ret (Some (Some input))
            else ret None)
           (fun _ => ret None))
     else ret r) ;;
  match r with
  | Some (Some phoneInput) => ret phoneInput
  | _ => throw (mkError "Could not find phone number input field")
  end.

Definition indexed {A} (xs : list A) : list (nat * A) := combine (seq 0 (length xs)) xs.

(** lines 975-1033: the Next button *)
Definition clickNextButton : M W unit :=
  logStep "Clicking Next button" ;;
  allButtons <- page_queryAll "a, button" ;;
  logInfo ("Found " ++ ofNat (length allButtons) ++ " buttons/links on the page") ;;
  r <- forOf (indexed allButtons) (fun '(i, button) =>
         tryCatch
           (let buttonText := textContent button in
            let buttonClass := className button in
            let buttonTag := tagName button in
            logInfo ("Button " ++ ofNat (i + 1) ++ ": " ++ buttonTag ++ "." ++ buttonClass
                     ++ " - " ++ dq ++ buttonText ++ dq) ;;
            if includes (toLowerCase buttonText) "next" then
              logSuccess ("Found Next button: " ++ buttonTag ++ "." ++ buttonClass
                          ++ " - " ++ dq ++ buttonText ++ dq) ;;
              click button ;;
              logSuccess "Clicked Next button directly" ;;
              ret (Some tt)
            else ret None)
           (fun _ => ret None)) ;;
  let nextButtonClicked := isSome r in
  nextButtonClicked <-
    (if negb nextButtonClicked then
       tryCatch
         (nextButton <- page_query ".cardfooter .themeBtn.button" ;;
          match nextButton with
          | Some el =>
              if includes (toLowerCase (textContent el)) "next" then
                click el ;;
                logSuccess "Clicked Next button using .cardfooter .themeBtn.button" ;;
                ret true
              else ret false
          | None => ret false
          end)
         (fun error =>
            logWarning ("Specific selector failed: " ++ message error) ;;
            ret false)
     else ret nextButtonClicked) ;;
  if negb nextButtonClicked then throw (mkError "Could not find or click Next button")
  else ret tt.

Definition handleLogin : M W bool :=
  tryCatch
    (logStep "Handling login process" ;;
     utils.delay 2000 ;;
     utils.takeScreenshot "login_form" ;;
     phoneInput <- findPhoneInput ;;
     logStep ("Filling phone number: " ++ phoneNumber config) ;;
     act (ElementFocus phoneInput) ;;
     act (ElementType phoneInput (phoneNumber config)) ;;
     logSuccess "Phone number filled successfully" ;;
     utils.delay 3000 ;;
     clickNextButton ;;
     utils.delay (delayBetweenActions config) ;;
     handleOTPVerification ;;
     modify (setIsLoggedIn true) ;;
     logCompletion "Login completed" ;;
     ret true)
    (fun error =>
       logError "Failed to handle login" (Some error) ;;
       throw error).

(* ---------------------------------------------------------------- *)
(** *** Vehicle list                                                 *)

Definition vehiclePopupSelector : string :=
  ".page.smart-select-page[data-name=" ++ dq ++ "smart-select-page" ++ dq ++ "]".
Definition searchInputSelector : string :=
  "input[type=" ++ dq ++ "search" ++ dq ++ "][placeholder=" ++ dq ++ "Search vehicle" ++ dq ++ "]".

(** [//div[contains(@class, 'item-title') and contains(text(), '${config.vehicleModel}')]] *)
Definition vehicleSelector : XPath := mkXPath "div" "item-title" false (vehicleModel config).

(** the same over [translate(text(), 'A..Z', 'a..z')] and
    [config.vehicleModel.toLowerCase()] *)
Definition flexibleSelector : XPath :=
  mkXPath "div" "item-title" true (toLowerCase (vehicleModel config)).

(** lines 1281-1285: an entry the last resort may take *)
Definition selectableVehicleText (vehicleText : string) : bool :=
  truthy vehicleText
  && negb (vehicleText =? "Select...")
  && negb (vehicleText =? "Add a Vehicle").

(** lines 1240-1250: the vehicles listed in the log *)
Definition logAllVehicles : M W unit :=
  allVehicles <- page_queryAll ".item-title" ;;
  if (0 <? length allVehicles)%nat then
    logStep ("Found " ++ ofNat (length allVehicles) ++ " vehicles on the page") ;;
    forOf (indexed allVehicles) (fun '(i, vehicle) =>
      logInfo ("Vehicle " ++ ofNat (i + 1) ++ ": " ++ textContent vehicle) ;;
      ret (@None unit)) ;;
    ret tt
  else ret tt.

(** lines 1299-1319: the popup closes *)
Definition awaitVehiclePopupClosed : M W unit :=
  utils.delay (delayBetweenActions config) ;;
  tryCatch
    (act (WaitForSelector vehiclePopupSelector false true 10000) ;;
     logSuccess "Vehicle selection popup closed")
    (fun _ => logWarning "Vehicle selection popup may not have closed properly") ;;
  utils.delay 2000.

(** lines 1252-1297: the entry of the list that is clicked *)
Definition pickVehicle : M W unit :=
  vehicleElement <- page_xpath vehicleSelector ;;
  match vehicleElement with
  | first :: _ =>
      click first ;;
      logSuccess ("Selected vehicle with model: " ++ vehicleModel config)
  | [] =>
      logStep "Exact match not found, trying flexible search" ;;
      flexibleVehicleElement <- page_xpath flexibleSelector ;;
      match flexibleVehicleElement with
      | first :: _ =>
          click first ;;
          logSuccess ("Selected vehicle using flexible search for model: " ++ vehicleModel config)
      | [] =>
          logStep "No model match found, trying to select first available vehicle" ;;
          availableVehicles <- page_queryAll ".item-title" ;;
          r <- forOf availableVehicles (fun vehicle =>
                 let vehicleText := textContent vehicle in
                 if selectableVehicleText vehicleText then
                   click vehicle ;;
                   logSuccess ("Selected available vehicle: " ++ vehicleText) ;;
                   ret (Some tt)
                 else ret None) ;;
          let selectedVehicle := isSome r in
          if negb selectedVehicle then throw (mkError "No suitable vehicle found for selection")
          else ret tt
      end
  end.

Definition handleVehicleSelection : M W bool :=
  tryCatch
    (logStep "Handling vehicle selection" ;;
     utils.waitForElementVisible vehiclePopupSelector utils.defaultTimeout ;;
     utils.waitForElementVisible searchInputSelector utils.defaultTimeout ;;
     searchInput <- page_query searchInputSelector ;;
     match searchInput with
     | Some el =>
         act (ElementClick el 3) ;;
         act (ElementType el (vehicleModel config)) ;;
         logSuccess ("Filled search input with vehicle model: " ++ vehicleModel config) ;;
         utils.delay 1000
     | None => ret tt
     end ;;
     logAllVehicles ;;
     pickVehicle ;;
     awaitVehiclePopupClosed ;;
     logCompletion "Vehicle selection completed" ;;
     ret true)
    (fun error =>
       logError "Failed to handle vehicle selection" (Some error) ;;
       throw error).

(** lines 1454-1481 and 1489-1519: a click that falls back on a scripted
    click; [what] and [how] tell the two uses apart in the messages *)
Definition clickVehicleOrFallback (el : ElementHandle) (what how : string) : M W unit :=
  tryCatch
    (utils.delay 500 ;;
     click el ;;
     logSuccess ("Selected vehicle " ++ how ++ vehicleModel config))
    (fun clickError =>
       logWarning ("Failed to click " ++ what ++ " element: " ++ message clickError) ;;
       tryCatch
         (act (EvaluateClick el) ;;
          logSuccess ("Selected vehicle " ++ how ++ vehicleModel config
                      ++ " using alternative click method"))
         (fun altClickError =>
            logError ("Alternative click method also failed: " ++ message altClickError) None ;;
            throw (mkError ("Could not click on " ++ what ++ " element: "
                            ++ message clickError)))).

(** lines 1450-1575: the entry of the list that is clicked, post-login *)
Definition pickVehicleFromDropdown : M W unit :=
  vehicleElement <- page_xpath vehicleSelector ;;
  match vehicleElement with
  | first :: _ => clickVehicleOrFallback first "vehicle" "with model: "
  | [] =>
      logStep "Exact match not found, trying flexible search" ;;
      flexibleVehicleElement <- page_xpath flexibleSelector ;;
      match flexibleVehicleElement with
      | first :: _ =>
          clickVehicleOrFallback first "flexible vehicle" "using flexible search for model: "
      | [] =>
          logStep "No model match found, trying to select first available vehicle" ;;
          availableVehicles <- page_queryAll ".item-title" ;;
          r <- forOf availableVehicles (fun vehicle =>
                 let vehicleText := textContent vehicle in
                 if selectableVehicleText vehicleText then
                   tryCatch
                     (utils.delay 500 ;;
                      click vehicle ;;
                      logSuccess ("Selected available vehicle: " ++ vehicleText) ;;
                      ret (Some tt))
                     (fun clickError =>
                        logWarning ("Failed to click available vehicle: "
                                    ++ message clickError) ;;
                        tryCatch
                          (act (EvaluateClick vehicle) ;;
                           logSuccess ("Selected available vehicle: " ++ vehicleText
                                       ++ " using alternative click method") ;;
                           ret (Some tt))
                          (fun altClickError =>
                             logWarning ("Alternative click method also failed for "
                                         ++ vehicleText ++ ": " ++ message altClickError) ;;
                             ret None))
                 else ret None) ;;
          let selectedVehicle := isSome r in
          if negb selectedVehicle then throw (mkError "No suitable vehicle found for selection")
          else ret tt
      end
  end.

(** The statements after the [return true] of line 1600 are never reached
    and have no counterpart here. *)
Definition handleDropdownVehicleSelection : M W bool :=
  tryCatch
    (logStep "Handling vehicle selection from dropdown" ;;
     smartSelectLink <- page_query ".smartSelectCustom .item-link.smart-select" ;;
     match smartSelectLink with
     | Some link =>
         logStep "Clicking on smart-select link to open popup" ;;
         click link ;;
         utils.delay 1000 ;;
         utils.waitForElementVisible vehiclePopupSelector utils.defaultTimeout ;;
         utils.waitForElementVisible searchInputSelector utils.defaultTimeout ;;
         searchInput <- page_query searchInputSelector ;;
         match searchInput with
         | Some el =>
             act (ElementClick el 3) ;;
             let searchTerm := vehicleMake config ++ " " ++ vehicleModel config
                               ++ " " ++ licensePlate config in
             act (ElementType el searchTerm) ;;
             logSuccess ("Filled search input with: " ++ searchTerm) ;;
             utils.delay 1000
         | None => ret tt
         end ;;
         logAllVehicles ;;
         pickVehicleFromDropdown ;;
         awaitVehiclePopupClosed ;;
         logCompletion "Vehicle selection from dropdown completed" ;;
         ret true
     | None => throw (mkError "Smart-select link not found")
     end)
    (fun error =>
       logError "Failed to handle dropdown vehicle selection" (Some error) ;;
       throw error).

Definition alternativeSelectors : list string :=
  [ ".smartSelectCustom"; ".item-link.smart-select"; "[id*='selectVehicle']" ].

Definition handlePostLoginFlow : M W bool :=
  tryCatch
    (logStep "Handling post-login flow" ;;
     utils.delay 5000 ;;
     utils.takeScreenshot "post_login_page" ;;
     vehicleSelectorExists <- utils.elementExists "#selectVehicleSmartSelect" ;;
     r <- forOf alternativeSelectors (fun selector =>
            found <- utils.elementExists selector ;;
            if found then
              logInfo ("Found alternative selector: " ++ selector) ;;
              ret (Some tt)
            else ret None) ;;
     let foundSelector := isSome r in
     if vehicleSelectorExists || foundSelector then
       logStep "Back on booking page, handling vehicle selection" ;;
       handleDropdownVehicleSelection ;;
       logStep "Vehicle selected, now selecting date from new date picker" ;;
       selectDateFromNewPicker ;;
       addToCart ;;
       logCompletion "Post-login flow completed" ;;
       ret true
     else
       logWarning "Vehicle selector not found on post-login page" ;;
       logStep "Taking screenshot for debugging" ;;
       utils.takeScreenshot "no_vehicle_selector_found" ;;
       throw (mkError "Post-login page not loaded properly"))
    (fun error =>
       logError "Failed to handle post-login flow" (Some error) ;;
       throw error).

Definition addNewVehicle : M W bool :=
  tryCatch
    (logStep "Adding new vehicle" ;;
     utils.clickElement (addVehicleBtn selectors) utils.defaultMaxRetries ;;
     utils.delay (delayBetweenActions config) ;;
     fillVehicleFields ;;
     utils.clickElement (saveVehicleBtn selectors) utils.defaultMaxRetries ;;
     utils.delay (delayBetweenActions config) ;;
     modify (setVehicleAdded true) ;;
     logCompletion "New vehicle added" ;;
     ret true)
    (fun error =>
       logError "Failed to add new vehicle" (Some error) ;;
       throw error).

(* ---------------------------------------------------------------- *)
(** *** Checkout and the whole run                                   *)

Definition completeCheckout : M W bool :=
  tryCatch
    (logStep "Completing checkout" ;;
     utils.waitForElementVisible (checkoutBtn selectors) utils.defaultTimeout ;;
     utils.clickElement (checkoutBtn selectors) utils.defaultMaxRetries ;;
     utils.delay (delayBetweenActions config) ;;
     utils.takeScreenshot "checkout_completed" ;;
     logCompletion "Checkout completed" ;;
     ret true)
    (fun error =>
       logError "Failed to complete checkout" (Some error) ;;
       throw error).

Definition cleanup : M W unit :=
  tryCatch
    (open <- gets browser ;;
     if open then
       act Close ;;
       logSuccess "Browser closed"
     else ret tt)
    (fun error => logError "Failed to cleanup resources" (Some error)).

(** lines 1776-1814: the run of a user who is not signed in *)
Definition bookAsGuest : M W unit :=
  logStep "User not signed in, proceeding with login flow" ;;
  logStep "Selecting preferred date before adding to cart" ;;
  selectDateFromNewPicker ;;
  addToCart ;;
  utils.delay 3000 ;;
  loginFormVisible <- utils.elementExists ".signinModel, .modelLogin, #slideNo1" ;;
  if loginFormVisible then
    logStep "Login form is visible, proceeding with login" ;;
    tryCatch
      (handleLogin ;;
       logStep "Login completed, handling post-login flow" ;;
       handlePostLoginFlow ;;
       ret tt)
      (fun error =>
         logError "Login or vehicle selection failed" (Some error) ;;
         utils.takeScreenshot "login_failed" ;;
         throw error)
  else
    logWarning "Login form not visible after adding to cart" ;;
    utils.takeScreenshot "no_login_form" ;;
    throw (mkError "Login form not found after adding to cart").

(** lines 1750-1815: every stage before checkout *)
Definition bookUntilCart : M W unit :=
  logStep "Starting parking pass booking process" ;;
  initialize ;;
  navigateToPortal ;;
  handleInfoPopup ;;
  selectPassType ;;
  vehicleSelectExists <- utils.elementExists "#selectVehicleSmartSelect" ;;
  if vehicleSelectExists then
    logStep "User appears to be signed in, handling signed-in booking" ;;
    handleSignedInBooking ;;
    ret tt
  else bookAsGuest.

Definition bookParkingPass : M W bool :=
  tryFinally
    (tryCatch
       (bookUntilCart ;;
        completeCheckout ;;
        logSuccess "🎉 Parking pass booking completed successfully!" ;;
        ret true)
       (fun error =>
          logError "Booking process failed" (Some error) ;;
          hasPage <- gets page ;;
          (if hasPage then utils.takeScreenshot "error_state" ;; ret tt else ret tt) ;;
          throw error))
    cleanup.

End Bot.
End bot.

(* ================================================================== *)
(** ** [src/scheduler.js]: the job runner of [BotScheduler]            *)
(* ================================================================== *)

Module scheduler.
Section Scheduler.
Context {W : Type} {B : Browser W}.
Variable config : Config.

Import logger.

(** [runScheduledJob(jobName)]. The bot it builds is the only bot alive, so
    building it resets the bot fields of the state. *)
Definition runScheduledJob (jobName : string) : M W unit :=
  running <- gets isRunning ;;
  if running then
    logWarning ("Bot is already running, skipping scheduled job: " ++ jobName)
  else
    tryFinally
      (tryCatch
         (modify (setIsRunning true) ;;
          logStep ("Running scheduled job: " ++ jobName) ;;
          modify newBot ;;
          bot.bookParkingPass config ;;
          logSuccess ("Scheduled job completed: " ++ jobName))
         (fun error => logError ("Scheduled job failed: " ++ jobName) (Some error)))
      (modify (setIsRunning false)).

End Scheduler.
End scheduler.

(* ================================================================== *)
(** ** A scripted page, for running the bot on concrete scenarios      *)
(* ================================================================== *)

Module Sim.

(** What the page shows and which actions fail, until the next [delay]. *)
Record Frame := mkFrame {
  elementsOf : string -> list ElementHandle;
  document : list ElementHandle;
  failing : action -> option JsError
}.

Record World := mkWorld { frames : list Frame; clock : Z }.

Fixpoint table (rows : list (string * list ElementHandle)) (selector : string) : list ElementHandle :=
  match rows with
  | [] => []
  | (k, els) :: rest => if k =? selector then els else table rest selector
  end.

Definition blank : Frame := mkFrame (fun _ => []) [] (fun _ => None).

Definition current (w : World) : Frame := hd blank (frames w).

(** the last frame stays for ever *)
Definition advance (w : World) (ms : Z) : World :=
  mkWorld (match frames w with
           | _ :: (_ :: _) as rest => rest
           | fs => fs
           end)
          (clock w + ms).

#[export] Instance browser : Browser World := {|
  querySelectorAll w selector := elementsOf (current w) selector;
  documentElements w := document (current w);
  perform w a := (failing (current w) a, w);
  elapse := advance;
  dateNow := clock;
  isoTimestamp _ := "2025-08-17T08:00:00.000Z"
|}.

(** a bot just built, in front of the scripted page *)
Definition start (fs : list Frame) : State World :=
  mkState (mkWorld fs 0) [] [] false false false false false.

(** an element that only has a text *)
Definition textElement (id : nat) (tag cls text : string) : ElementHandle :=
  mkElement id tag cls text text EmptyString [].

End Sim.

(* ================================================================== *)
(** ** What is observed of a run                                       *)
(* ================================================================== *)

Local Open Scope list_scope.

(** the line that opens the checkout stage *)
Definition checkoutStep : LogEntry := mkLog Info "🔄 Completing checkout".

(** the line that reports a sold-out pass *)
Definition soldOutReport : LogEntry :=
  mkLog Err "Failed to add to cart: Pass is sold out for the selected date".

(** a click on the save button of the vehicle form that went through *)
Definition saveClick : Event := mkEvent (Click (saveVehicleBtn selectors)) None.

Section Observations.
Context {W : Type}.

(** From [s] to [s'] the log and the history only grew, by entries in [PE]
    and events in [PV], and [vehicleAdded] kept its value, or became true
    where [PV] lets a registration through. *)
Definition extends (PE : LogEntry -> Prop) (PV : Event -> Prop) (s s' : State W) : Prop :=
  (exists l, log s' = log s ++ l /\ Forall PE l) /\
  (exists t, trace s' = trace s ++ t /\ Forall PV t) /\
  (vehicleAdded s' = vehicleAdded s \/ (vehicleAdded s' = true /\ PV saveClick)).

Definition keeps (PE : LogEntry -> Prop) (PV : Event -> Prop) {A} (m : M W A) : Prop :=
  forall s, extends PE PV s (snd (m s)).

End Observations.

(** [PE] holds of every entry but the two above *)
Definition ordinary (PE : LogEntry -> Prop) : Prop :=
  forall e, e <> checkoutStep -> e <> soldOutReport -> PE e.

(** [PV] holds of every event but a registration *)
Definition unsaved (PV : Event -> Prop) : Prop :=
  forall v, v <> saveClick -> PV v.

(** an entry that is neither of the two *)
Definition quiet (e : LogEntry) : Prop := e <> checkoutStep /\ e <> soldOutReport.

Definition anyEvent (v : Event) : Prop := True.

(** an entry that is not the sold-out report *)
Definition unreported (e : LogEntry) : Prop := e <> soldOutReport.

(** What [m] adds to the log never opens the checkout stage, and when it
    reports a sold-out pass, [m] throws that error. *)
Definition abortsOnSoldOut {W A} (m : M W A) : Prop :=
  forall s, exists l,
    log (snd (m s)) = log s ++ l /\
    ~ In checkoutStep l /\
    (In soldOutReport l -> fst (m s) = Throw soldOutError).

(** [m] hands the error it catches back to its caller *)
Definition rethrows {W A} (h : JsError -> M W A) : Prop :=
  forall e s, fst (h e s) = Throw e.

(** [m] always returns *)
Definition returns {W A} (m : M W A) : Prop :=
  forall s, exists a, fst (m s) = Ok a.

(* ---------------------------------------------------------------- *)
(** *** The shape of a run of [clickElement]                         *)

Definition waitEvent (selector : string) (r : option JsError) : Event :=
  mkEvent (WaitForSelector selector true false utils.defaultTimeout) r.

Definition clickEvent (selector : string) (r : option JsError) : Event :=
  mkEvent (Click selector) r.

(** the pause between two attempts *)
Definition pause : Event := mkEvent (Delay 1000) None.

(** the error [waitForElementVisible] throws *)
Definition notVisible (selector : string) : JsError :=
  mkError ("Element not visible: " ++ selector)%string.

(** The events of an attempt that failed, and the error it was left with:
    the wait failed, whatever its cause, or the wait passed and the click
    threw [cause]. *)
Inductive failedAttempt (selector : string) : list Event -> JsError -> Prop :=
| wait_failed cause :
    failedAttempt selector [waitEvent selector (Some cause)] (notVisible selector)
| click_failed cause :
    failedAttempt selector [waitEvent selector None; clickEvent selector (Some cause)] cause.

(** [clickRun selector n evs r]: with [n] attempts allowed, the events
    [evs] and the outcome [r] of a run. *)
Inductive clickRun (selector : string) : nat -> list Event -> Result bool -> Prop :=
| click_succeeds n :
    clickRun selector (S n) [waitEvent selector None; clickEvent selector None] (Ok true)
| click_gives_up evs e :
    failedAttempt selector evs e ->
    clickRun selector 1 evs (Throw e)
| click_retries n evs e rest r :
    failedAttempt selector evs e ->
    clickRun selector (S n) rest r ->
    clickRun selector (S (S n)) (evs ++ pause :: rest) r.

Definition isWait (v : Event) : bool :=
  match performed v with
  | WaitForSelector _ _ _ _ => true
  | _ => false
  end.

(** the attempts made in a run: each starts with a wait *)
Definition attempts (evs : list Event) : nat := length (filter isWait evs).

(* ---------------------------------------------------------------- *)
(** *** Registrations                                                *)

Definition isSaveClick (v : Event) : bool :=
  match performed v, failure v with
  | Click selector, None => (selector =? saveVehicleBtn selectors)%string
  | _, _ => false
  end.

(** the submissions of the vehicle form in a history *)
Definition saves (t : list Event) : nat := length (filter isSaveClick t).

(** an event that is not a registration *)
Definition unregistering (v : Event) : Prop := v <> saveClick.

Definition anyEntry (e : LogEntry) : Prop := True.

Definition isFailureLine (e : LogEntry) : bool :=
  match level e with Err => true | _ => false end.

(** [m] does not run out of fuel: it returns or it throws *)
Definition lands {W A} (m : M W A) : Prop :=
  forall s, fst (m s) <> OutOfFuel.

(* ---------------------------------------------------------------- *)
(** *** The wait for the one-time code                               *)

(** the page after [k] polls that each ended in a delay of [interval] *)
Definition pollWorld {W} {B : Browser W} (interval : Z) (k : nat) (w : W) : W :=
  Nat.iter k (fun w' => elapse w' interval) w.

(** the delay that follows a poll *)
Definition pollDelay (interval : Z) : Event := mkEvent (Delay interval) None.

(** the line written when the code's fields are seen to be gone *)
Definition otpCompleted : LogEntry :=
  mkLog Info "✅ ✅ OTP verification appears to be completed".

(** the two lines written when the ceiling is reached *)
Definition otpTimedOut : LogEntry :=
  mkLog Warn "⚠️ ⚠️  Timeout waiting for OTP verification".
Definition otpTimeoutHint : LogEntry :=
  mkLog Info "ℹ️ Please complete the verification manually and the bot will continue".

(* ---------------------------------------------------------------- *)
(** *** The vehicle list as the specification words it               *)

Definition isSentinel (vehicleText : string) : bool :=
  ((vehicleText =? "Select...") || (vehicleText =? "Add a Vehicle"))%string.

(** Written from the specification, to be compared with [pickVehicle]:
    among the texts of the list, the first that is exactly the model, else
    the first that holds the model whatever the case, else the first that
    is neither the placeholder nor the entry that adds a vehicle. *)
Definition specVehicleChoice (model : string) (entries : list string) : option string :=
  match find (fun t => (t =? model)%string) entries with
  | Some t => Some t
  | None =>
      match find (fun t => includes (toLowerCase t) (toLowerCase model)) entries with
      | Some t => Some t
      | None => find (fun t => negb (isSentinel t)) entries
      end
  end.

(** a click on an element handle that went through *)
Definition clicked (el : ElementHandle) : Event := mkEvent (ElementClick el 1) None.

(* ---------------------------------------------------------------- *)
(** *** The date picker                                              *)

(** the day [resolvePreferredDay] settles on; empty when it settles on
    none *)
Definition preferredDay (config : Config) : string :=
  if testMonthDay (preferredDate config) then
    nth 1 (split "/" (preferredDate config)) EmptyString
  else if testDay (preferredDate config) then preferredDate config
  else EmptyString.

Definition dateMainSelector : string := "#scheduler_12196 .dateMain".
Definition dateButtonSelector : string := "#scheduler_12196 .dateMain button.date".
Definition altDateButtonSelector : string := "#scheduler_12196 button.date".
Definition activeDateSelector : string := "#scheduler_12196 .dateMain button.date.active".

(** the line that tells the preferred date was not to be had *)
Definition dateUnavailable (config : Config) : LogEntry :=
  mkLog Warn ("⚠️ Preferred date " ++ preferredDate config
              ++ " not available in scheduler, selecting first available")%string.

Definition isWarning (e : LogEntry) : bool :=
  match level e with Warn => true | _ => false end.

(** [s1] differs from [s] by log lines only *)
Definition logged {W} (s s1 : State W) : Prop :=
  world s1 = world s /\ trace s1 = trace s /\ exists l, log s1 = log s ++ l.

(** the warnings of a picker that shows no date *)
Definition noDatesFound : LogEntry :=
  mkLog Warn "⚠️ No dates found in scheduler, trying alternative selectors".
Definition noDateSelected : LogEntry :=
  mkLog Warn "⚠️ No date was selected from scheduler, this might cause issues later".

(* ================================================================== *)
(** ** Scripted pages                                                  *)
(* ================================================================== *)

Module Scenario.
Import Sim.

Definition withPassType (p : string) (c : Config) : Config :=
  mkConfig (phoneNumber c) (licensePlate c) (province c) (vehicleColor c) (vehicleMake c)
           (vehicleModel c) p (preferredDate c) (headless c) (delayBetweenActions c)
           (baseUrl c).

Definition withPreferredDate (d : string) (c : Config) : Config :=
  mkConfig (phoneNumber c) (licensePlate c) (province c) (vehicleColor c) (vehicleMake c)
           (vehicleModel c) (passType c) d (headless c) (delayBetweenActions c)
           (baseUrl c).

(** a page on which every action goes through *)
Definition still (rows : list (string * list ElementHandle)) (doc : list ElementHandle) : Frame :=
  mkFrame (table rows) doc (fun _ => None).

(** *** A sold-out day *)
Definition passCard : ElementHandle := textElement 1 "div" "gridCard" "All Day Pass".
Definition day17 : ElementHandle := textElement 2 "button" "date" "17".
Definition soldOutBadge : ElementHandle := textElement 3 "div" "soldout" "Sold out".

Definition soldOutDay : State World :=
  start [still [(".gridCard, .cardRow .gridCard", [passCard]);
                ("#scheduler_12196 .dateMain button.date", [day17]);
                (".soldout", [soldOutBadge])] []].

(** *** A signed-in user with no vehicle yet *)
Definition addVehicleEntry : ElementHandle := textElement 4 "option" EmptyString "Add a Vehicle".

Definition vehicleSelect : ElementHandle :=
  textElement 16 "a" "smart-select" "Select...".

Definition noVehicleYet : State World :=
  start [still [("#selectVehicleSmartSelect", [vehicleSelect]);
                (bot.newVehicleOption, [addVehicleEntry])] []].

(** *** A list of vehicles *)
Definition chevy : ElementHandle := textElement 5 "div" "item-title" "Chevy".
Definition teslaY : ElementHandle := textElement 6 "div" "item-title" "Tesla Y".

Definition twoVehicles : State World :=
  start [still [(".item-title", [chevy; teslaY])] [chevy; teslaY]].

(** *** Date pickers *)
Definition day16 : ElementHandle := textElement 7 "button" "date" "16".
Definition day18 : ElementHandle := textElement 8 "button" "date" "18".

Definition threeDays : State World :=
  start [still [("#scheduler_12196 .dateMain button.date", [day16; day17; day18])] []].

Definition august17 : Config := withPreferredDate "08/17" defaultConfig.
Definition anyDay : Config := withPreferredDate EmptyString defaultConfig.

(** *** Pass cards *)
Definition halfDayCard : ElementHandle := textElement 9 "div" "gridCard" "Half-day Pass".
Definition allDayCard : ElementHandle := textElement 10 "div" "gridCard" "All Day Pass".

Definition twoCards : State World :=
  start [still [(".gridCard, .cardRow .gridCard", [halfDayCard; allDayCard])] []].

Definition halfDay : Config := withPassType "half_day" defaultConfig.

(** *** A code that is never entered *)
Definition digit (id : nat) : ElementHandle :=
  mkElement id "input" "otpFocusInput" EmptyString EmptyString EmptyString [].

Definition codeForm : Frame :=
  still [(".otpFocusInput", [digit 11; digit 12; digit 13; digit 14]);
         (".themeBtn.btn-disbled.button", [textElement 15 "a" "themeBtn" "Verify"])] [].

Definition codeAsked : State World := start [codeForm].
Definition codePending : State World := snd (bot.requestOtpEntry codeAsked).

(** *** A trigger during a run *)
Definition busy : State World := setIsRunning true (start [blank]).

(** *** A button that is detached when clicked *)
Definition detached : JsError := mkError "Node is detached from document".

Definition detachedButton : State World :=
  start [mkFrame (fun _ => []) []
                 (fun a => match a with Click _ => Some detached | _ => None end)].

(** *** A vehicle form whose fields cannot be filled *)
Definition readOnly : JsError := mkError "Element is not editable".

Definition readOnlyForm : State World :=
  start [mkFrame (fun _ => []) []
                 (fun a => match a with
                           | Clear _ | TypeText _ _ | Select _ _ => Some readOnly
                           | _ => None
                           end)].

End Scenario.

(* ================================================================== *)
(** ** The rest of [src/utils.js]                                      *)
(* ================================================================== *)

Module utils_rest.
Section UtilsRest.
Context {W : Type} {B : Browser W}.

(** [waitForElement(page, selector, timeout)]: the wait does not ask for
    the element to be visible *)
Definition waitForElement (selector : string) (timeout : Z) : M W (option ElementHandle) :=
  tryCatch
    (act (WaitForSelector selector false false timeout) ;;
     page_query selector)
    (fun _ => throw (mkError ("Element not found: " ++ selector))).

(** [page.$eval(selector, (el) => el.textContent.trim())]: throws when
    nothing matches *)
Definition page_evalTrimmedText (selector : string) : M W string :=
  element <- page_query selector ;;
  match element with
  | Some el => ret (trim (textContent el))
  | None => throw (mkError ("failed to find element matching selector " ++ dq ++ selector ++ dq))
  end.

Definition getElementText (selector : string) : M W string :=
  tryCatch
    (utils.waitForElementVisible selector utils.defaultTimeout ;;
     page_evalTrimmedText selector)
    (fun error =>
       logger.logError ("Failed to get text from " ++ selector ++ ": " ++ message error) None ;;
       ret EmptyString).

(** The loop of [retryWithBackoff], with [remaining] iterations to go;
    the attempt number of the iteration is [maxRetries - remaining + 1].
    [fn] is the function retried; the result is [None] (undefined) when
    the loop is left without a [return].  The delay is a whole number of
    milliseconds. *)
Fixpoint retryWithBackoffFrom {A} (fn : M W A) (maxRetries : nat) (baseDelay : Z)
    (remaining : nat) : M W (option A) :=
  match remaining with
  | O => ret None
  | S remaining' =>
      let attempt := (maxRetries - remaining')%nat in
      tryCatch
        (a <- fn ;; ret (Some a))
        (fun error =>
           if (attempt =? maxRetries)%nat then throw error
           else
             let delay := (baseDelay * 2 ^ Z.of_nat (attempt - 1))%Z in
             logger.logWarning ("Attempt " ++ ofNat attempt ++ " failed, retrying in "
                                ++ ofZ delay ++ "ms: " ++ message error) ;;
             utils.delay delay ;;
             retryWithBackoffFrom fn maxRetries baseDelay remaining')
  end.

Definition retryWithBackoff {A} (fn : M W A) (maxRetries : nat) (baseDelay : Z) : M W (option A) :=
  retryWithBackoffFrom fn maxRetries baseDelay maxRetries.

End UtilsRest.
End utils_rest.

(* ================================================================== *)
(** ** [src/scheduler.js]: the jobs of [BotScheduler]                  *)
(* ================================================================== *)

(** A task of node-cron, as far as the scheduler looks at it. *)
Record Task := mkTask { expression : string; timezone : string; running : bool }.

(** What was asked of node-cron, in order. *)
Inductive CronEvent : Type :=
| Started (jobName cronExpression : string)
| Stopped (jobName : string).

(** [this.scheduledJobs], a [Map]: its entries in insertion order, a key
    at most once. *)
Module JsMap.
Section JsMap.
Context {V : Type}.

Fixpoint get (key : string) (m : list (string * V)) : option V :=
  match m with
  | [] => None
  | (k, v) :: rest => if (k =? key)%string then Some v else get key rest
  end.

Definition has (key : string) (m : list (string * V)) : bool := isSome (get key m).

(** [m.set(key, v)]: in place when the key is there, at the end otherwise *)
Fixpoint set (key : string) (v : V) (m : list (string * V)) : list (string * V) :=
  match m with
  | [] => [(key, v)]
  | (k, v0) :: rest =>
      if (k =? key)%string then (k, v) :: rest else (k, v0) :: set key v rest
  end.

Fixpoint delete (key : string) (m : list (string * V)) : list (string * V) :=
  match m with
  | [] => []
  | (k, v) :: rest => if (k =? key)%string then rest else (k, v) :: delete key rest
  end.

Definition keys (m : list (string * V)) : list string := map fst m.

End JsMap.
End JsMap.

Record Scheduler := mkScheduler {
  scheduledJobs : list (string * Task);
  printed : list LogEntry;
  asked : list CronEvent
}.

Module BotScheduler.

(** operations of the scheduler: they thread its fields, the logger
    output and what was asked of node-cron, and may throw *)
Definition Op (A : Type) : Type := Scheduler -> Result A * Scheduler.

Definition pure {A} (a : A) : Op A := fun sch => (Ok a, sch).

Definition andThen {A C} (m : Op A) (k : A -> Op C) : Op C :=
  fun sch =>
    match m sch with
    | (Ok a, sch') => k a sch'
    | (Throw e, sch') => (Throw e, sch')
    | (OutOfFuel, sch') => (OutOfFuel, sch')
    end.

Definition raise {A} (e : JsError) : Op A := fun sch => (Throw e, sch).

Definition catch {A} (m : Op A) (h : JsError -> Op A) : Op A :=
  fun sch =>
    match m sch with
    | (Throw e, sch') => h e sch'
    | other => other
    end.

Definition read {A} (f : Scheduler -> A) : Op A := fun sch => (Ok (f sch), sch).

Definition update (f : Scheduler -> Scheduler) : Op unit := fun sch => (Ok tt, f sch).

Declare Scope sched_scope.
Delimit Scope sched_scope with sched.
Notation "x <- m ;; k" := (andThen m (fun x => k))
  (at level 61, m at next level, right associativity) : sched_scope.
Notation "m ;; k" := (andThen m (fun _ => k))
  (at level 61, right associativity) : sched_scope.
Local Open Scope sched_scope.

Definition setJobs (jobs : list (string * Task)) (sch : Scheduler) : Scheduler :=
  mkScheduler jobs (printed sch) (asked sch).

Definition print (l : Level) (t : string) : Op unit :=
  update (fun sch => mkScheduler (scheduledJobs sch) (printed sch ++ [mkLog l t]) (asked sch)).

Definition ask (e : CronEvent) : Op unit :=
  update (fun sch => mkScheduler (scheduledJobs sch) (printed sch) (asked sch ++ [e])).

Definition logSuccess (msg : string) : Op unit := print Info ("✅ " ++ msg).
Definition logStep (step : string) : Op unit := print Info ("🔄 " ++ step).
Definition logError (msg : string) (error : JsError) : Op unit :=
  print Err (msg ++ ": " ++ message error).

(** [for (const [jobName, job] of this.scheduledJobs) { ... }] *)
Fixpoint forEach {A} (xs : list A) (body : A -> Op unit) : Op unit :=
  match xs with
  | [] => pure tt
  | x :: rest => body x ;; forEach rest body
  end.

Section Methods.
(** [cron.validate] *)
Variable validate : string -> bool.

(** the task [job] is the object the map holds under [jobName]: what
    node-cron does to it shows in the map *)
Definition setRunning (r : bool) (jobName : string) (job : Task) : Op unit :=
  update (fun sch =>
            setJobs (JsMap.set jobName (mkTask (expression job) (timezone job) r)
                       (scheduledJobs sch)) sch).

(** [job.stop()], on the task stored under [jobName] *)
Definition stopTask (jobName : string) (job : Task) : Op unit :=
  setRunning false jobName job ;;
  ask (Stopped jobName).

(** [job.start()], on the task just stored under [jobName] *)
Definition startTask (jobName : string) (job : Task) : Op unit :=
  setRunning true jobName job ;;
  ask (Started jobName (expression job)).

Definition stopJob (jobName : string) : Op bool :=
  catch
    (job <- read (fun sch => JsMap.get jobName (scheduledJobs sch)) ;;
     match job with
     | Some job =>
         stopTask jobName job ;;
         update (fun sch => setJobs (JsMap.delete jobName (scheduledJobs sch)) sch) ;;
         logSuccess ("Job stopped: " ++ jobName) ;;
         pure true
     | None => pure false
     end)
    (fun error =>
       logError ("Failed to stop job: " ++ jobName) error ;;
       pure false).

Definition scheduleJob (cronExpression jobName : string) : Op bool :=
  catch
    (logStep ("Scheduling job: " ++ jobName ++ " with cron: " ++ cronExpression) ;;
     (if negb (validate cronExpression) then
        raise (mkError ("Invalid cron expression: " ++ cronExpression))
      else pure tt) ;;
     known <- read (fun sch => JsMap.has jobName (scheduledJobs sch)) ;;
     (if known then stopJob jobName ;; pure tt else pure tt) ;;
     let job := mkTask cronExpression "America/Vancouver" false in
     update (fun sch => setJobs (JsMap.set jobName job (scheduledJobs sch)) sch) ;;
     startTask jobName job ;;
     logSuccess ("Job scheduled successfully: " ++ jobName) ;;
     pure true)
    (fun error =>
       logError ("Failed to schedule job: " ++ jobName) error ;;
       pure false).

(** an element of [time.split(":")] inside the template literal: a
    missing one prints as [undefined] *)
Definition part (i : nat) (parts : list string) : string :=
  nth i parts "undefined".

Definition scheduleDaily (time jobName : string) : Op bool :=
  let parts := split ":" time in
  let hour := part 0 parts in
  let minute := part 1 parts in
  scheduleJob (minute ++ " " ++ hour ++ " * * *") jobName.

(** [minutes] is a whole number *)
Definition scheduleInterval (minutes : Z) (jobName : string) : Op bool :=
  scheduleJob ("*/" ++ ofZ minutes ++ " * * * *") jobName.

(** [days] are whole numbers; [days.join(",")] *)
Definition scheduleWeekly (days : list Z) (time jobName : string) : Op bool :=
  let parts := split ":" time in
  let hour := part 0 parts in
  let minute := part 1 parts in
  let daysString := join "," (map ofZ days) in
  scheduleJob (minute ++ " " ++ hour ++ " * * " ++ daysString) jobName.

Definition stopAllJobs : Op bool :=
  catch
    (jobs <- read scheduledJobs ;;
     forEach jobs (fun '(jobName, job) =>
       stopTask jobName job ;;
       logSuccess ("Job stopped: " ++ jobName)) ;;
     update (setJobs []) ;;
     pure true)
    (fun error =>
       logError "Failed to stop all jobs" error ;;
       pure false).

Definition getScheduledJobs : Op (list string) :=
  read (fun sch => JsMap.keys (scheduledJobs sch)).

(** [getJobStatus(jobName)] without [nextDate]: [(exists, running)] *)
Definition getJobStatus (jobName : string) : Op (bool * bool) :=
  job <- read (fun sch => JsMap.get jobName (scheduledJobs sch)) ;;
  match job with
  | None => pure (false, false)
  | Some job => pure (true, running job)
  end.

Definition startDefaultScheduler : Op unit :=
  logStep "Starting default scheduler" ;;
  scheduleDaily "08:00" "morning_booking" ;;
  scheduleDaily "08:30" "backup_booking" ;;
  scheduleDaily "18:00" "evening_check" ;;
  logSuccess "Default scheduler started".

End Methods.

(** [new BotScheduler()] *)
Definition fresh : Scheduler := mkScheduler [] [] [].

End BotScheduler.

(* ================================================================== *)
(** ** [src/config.js] and the options of [src/cli.js]                 *)
(* ================================================================== *)

Module config.

(** the digit a character stands for in radix 10 or 16 *)
Definition digitValue (radix : Z) (c : ascii) : option Z :=
  let n := Z.of_nat (nat_of_ascii c) in
  let v := if ((48 <=? n) && (n <=? 57))%Z then Some (n - 48)%Z
           else if ((97 <=? n) && (n <=? 102))%Z then Some (n - 87)%Z
           else if ((65 <=? n) && (n <=? 70))%Z then Some (n - 55)%Z
           else None in
  match v with
  | Some d => if (d <? radix)%Z then Some d else None
  | None => None
  end.

(** the digits at the head of [s], most significant first *)
Fixpoint leadingDigits (radix : Z) (s : string) : list Z :=
  match s with
  | EmptyString => []
  | String c rest =>
      match digitValue radix c with
      | Some d => d :: leadingDigits radix rest
      | None => []
      end
  end.

Definition digitsValue (radix : Z) (ds : list Z) : Z :=
  fold_left (fun acc d => acc * radix + d)%Z ds 0%Z.

(** [parseInt(s)] with no radix given, [None] standing for NaN: blanks at
    the head are dropped, then a sign, then [0x] or [0X] which makes the
    radix 16; the digits that follow are read and the rest is ignored.
    The result is exact, which JavaScript's is up to 2^53. *)
Definition parseInt (s : string) : option Z :=
  let s := trimStart s in
  let (negative, s) :=
    match s with
    | String "-" rest => (true, rest)
    | String "+" rest => (false, rest)
    | _ => (false, s)
    end in
  let (radix, s) :=
    match s with
    | String "0" (String "x" rest) => (16%Z, rest)
    | String "0" (String "X" rest) => (16%Z, rest)
    | _ => (10%Z, s)
    end in
  match leadingDigits radix s with
  | [] => None
  | ds => Some (if negative then - digitsValue radix ds else digitsValue radix ds)%Z
  end.

(** [process.env.NAME || fallback] *)
Definition orElse (value : option string) (fallback : string) : string :=
  match value with
  | Some v => if truthy v then v else fallback
  | None => fallback
  end.

(** [parseInt(process.env.NAME) || fallback]: [parseInt(undefined)] is NaN *)
Definition intOrElse (value : option string) (fallback : Z) : Z :=
  match value with
  | Some v =>
      match parseInt v with
      | Some n => if (n =? 0)%Z then fallback else n
      | None => fallback
      end
  | None => fallback
  end.

(** The object [config.js] exports, as far as the bot reads it, for the
    environment [env]. *)
Definition load (env : string -> option string) : Config := {|
  phoneNumber := "6043679066";
  licensePlate := orElse (env "LICENSE_PLATE") EmptyString;
  province := orElse (env "PROVINCE") "BC";
  vehicleColor := orElse (env "VEHICLE_COLOR") "BLACK";
  vehicleMake := orElse (env "VEHICLE_MAKE") "Tesla";
  vehicleModel := orElse (env "VEHICLE_MODEL") "Y";
  passType := orElse (env "PASS_TYPE") "all_day";
  preferredDate := orElse (env "PREFERRED_DATE") "17";
  headless := match env "HEADLESS" with Some v => (v =? "true")%string | None => false end;
  delayBetweenActions := intOrElse (env "DELAY_BETWEEN_ACTIONS") 100;
  baseUrl := "https://yodelportal.com/buntzen-lake"
|}.

(** the options of the [run] command of [cli.js] *)
Record RunOptions := mkRunOptions {
  optDate : option string;
  optType : option string;
  optHeadless : bool
}.

(** [cli.js], lines 30-32: the options that override the configuration *)
Definition override (options : RunOptions) (c : Config) : Config := {|
  phoneNumber := phoneNumber c;
  licensePlate := licensePlate c;
  province := province c;
  vehicleColor := vehicleColor c;
  vehicleMake := vehicleMake c;
  vehicleModel := vehicleModel c;
  passType := match optType options with
              | Some t => if truthy t then t else passType c
              | None => passType c
              end;
  preferredDate := match optDate options with
                   | Some d => if truthy d then d else preferredDate c
                   | None => preferredDate c
                   end;
  headless := if optHeadless options then true else headless c;
  delayBetweenActions := delayBetweenActions c;
  baseUrl := baseUrl c
|}.

End config.

(* ---------------------------------------------------------------- *)
(** *** Outcomes                                                     *)

(** when [m] returns, what it returns is [a] *)
Definition yieldsOnly {W A} (a : A) (m : M W A) : Prop :=
  forall s r, fst (m s) = Ok r -> r = a.

(** the attempt to close the browser, whatever came of it *)
Definition closeEvent (r : option JsError) : Event := mkEvent Close r.

(** the line that reports a failed run *)
Definition runFailed (e : JsError) : LogEntry :=
  mkLog Err ("Booking process failed: " ++ message e)%string.

(** the lines of the job runner *)
Definition jobStarted (jobName : string) : LogEntry :=
  mkLog Info ("🔄 Running scheduled job: " ++ jobName)%string.
Definition jobCompleted (jobName : string) : LogEntry :=
  mkLog Info ("✅ Scheduled job completed: " ++ jobName)%string.
Definition jobFailed (jobName : string) (e : JsError) : LogEntry :=
  mkLog Err ("Scheduled job failed: " ++ jobName ++ ": " ++ message e)%string.

(* ---------------------------------------------------------------- *)
(** *** Stages                                                       *)

(** the line a stage's [catch] block writes before it rethrows *)
Definition stageFailed (what : string) (e : JsError) : LogEntry :=
  mkLog Err (what ++ ": " ++ message e)%string.

Definition passCardSelector : string := ".gridCard, .cardRow .gridCard".

Definition noPassCards : JsError := mkError "No pass cards found".

Definition firstCardWarning : LogEntry :=
  mkLog Warn "⚠️ Could not find specific pass type, selected first available".

(* ---------------------------------------------------------------- *)
(** *** Lookups                                                      *)

(** the one error [m] may throw *)
Definition throwsOnly {W A} (e : JsError) (m : M W A) : Prop :=
  forall s e', fst (m s) = Throw e' -> e' = e.

(** [m] looks at the page and may write to the log; it does nothing to
    the page *)
Definition onlyLooks {W A} (m : M W A) : Prop :=
  forall s, trace (snd (m s)) = trace s /\ world (snd (m s)) = world s.

Definition otpFieldsMissing : JsError := mkError "Could not find OTP input fields".
Definition otpNotSubmitted : JsError := mkError "Could not submit OTP".
Definition phoneFieldMissing : JsError := mkError "Could not find phone number input field".
Definition nextButtonMissing : JsError := mkError "Could not find or click Next button".

(** lines 1094-1099: an input that may be a field of the code *)
Definition looksLikeOtpField (input : ElementHandle) : bool :=
  (property input "maxLength" =? "1")%string
  || (property input "type" =? "tel")%string
  || includes (property input "aria-label") "Digit"
  || includes (property input "aria-label") "verification".

(** lines 942-948: an input that may be the phone number's *)
Definition looksLikePhoneField (input : ElementHandle) : bool :=
  (property input "type" =? "number")%string
  || includes (property input "id") "phone"
  || includes (property input "name") "number"
  || includes (property input "placeholder") "number"
  || includes (property input "placeholder") "phone".

(** line 1003: a button that may be the Next button *)
Definition saysNext (button : ElementHandle) : bool :=
  includes (toLowerCase (textContent button)) "next".

(* ---------------------------------------------------------------- *)
(** *** Primitives                                                   *)

(** the time spent in the delays of a history *)
Fixpoint delayed (evs : list Event) : Z :=
  match evs with
  | [] => 0
  | v :: rest =>
      match performed v with
      | Delay ms => ms + delayed rest
      | _ => delayed rest
      end
  end.

(** The actions [todo] performed in turn from page [w] up to the first
    that fails: the events, and the error of the one that failed. *)
Fixpoint performedInTurn {W} {B : Browser W} (w : W) (todo : list action)
  : list Event * option JsError :=
  match todo with
  | [] => ([], None)
  | a :: rest =>
      match perform w a with
      | (Some e, _) => ([mkEvent a (Some e)], Some e)
      | (None, w') =>
          let (evs, r) := performedInTurn w' rest in
          (mkEvent a None :: evs, r)
      end
  end.

(** the steps of [fillInput] and of [selectOption] *)
Definition fillSteps (selector text : string) : list action :=
  [WaitForSelector selector true false utils.defaultTimeout;
   Focus selector; Clear selector; TypeText selector text].
Definition selectSteps (selector value : string) : list action :=
  [WaitForSelector selector true false utils.defaultTimeout; Select selector value].

(** what is reported of a step that failed: a wait that failed is
    reported as [Element not visible], without its cause *)
Definition reportedCause (selector : string) (failed : Event) : string :=
  match performed failed, failure failed with
  | WaitForSelector _ _ _ _, _ => message (notVisible selector)
  | _, Some e => message e
  | _, None => EmptyString
  end.

(** the characters [takeScreenshot] keeps out of a time stamp *)
Definition isColonOrDot (c : ascii) : bool := (Ascii.eqb c ":" || Ascii.eqb c ".")%bool.

(* ---------------------------------------------------------------- *)
(** *** After the login                                              *)

Definition scriptedClick (el : ElementHandle) (r : option JsError) : Event :=
  mkEvent (EvaluateClick el) r.

(** the error of a vehicle that could be clicked neither way: it gives
    the message of the first click's error *)
Definition vehicleNotClicked (clickError : JsError) : JsError :=
  mkError ("Could not click on vehicle element: " ++ message clickError)%string.

Definition smartSelectLink : string := ".smartSelectCustom .item-link.smart-select".
Definition smartSelectMissing : JsError := mkError "Smart-select link not found".
Definition postLoginNotLoaded : JsError := mkError "Post-login page not loaded properly".

(** the selectors that tell the booking page after the login *)
Definition bookingPageSelectors : list string :=
  "#selectVehicleSmartSelect" :: bot.alternativeSelectors.

Definition isClick (v : Event) : bool :=
  match performed v with
  | Click _ | ElementClick _ _ | EvaluateClick _ => true
  | _ => false
  end.

(* ---------------------------------------------------------------- *)
(** *** Retries with a growing delay                                 *)

(** the delays before the attempts 2, 3, ..., [k + 1] *)
Definition backoffDelays (baseDelay : Z) (k : nat) : list Event :=
  map (fun i => mkEvent (Delay (baseDelay * 2 ^ Z.of_nat i)) None) (seq 0 k).

(** [fn] leaves the history of actions as it is *)
Definition traceless {W A} (fn : M W A) : Prop :=
  forall s, trace (snd (fn s)) = trace s.

(* ---------------------------------------------------------------- *)
(** *** The scheduler's jobs                                         *)

(** the tasks started under [jobName] and not stopped since *)
Fixpoint live (jobName : string) (asked : list CronEvent) : Z :=
  match asked with
  | [] => 0%Z
  | Started name _ :: rest =>
      ((if (name =? jobName)%string then 1 else 0) + live jobName rest)%Z
  | Stopped name :: rest =>
      ((if (name =? jobName)%string then -1 else 0) + live jobName rest)%Z
  end.

(** A scheduler in order: a job name is stored once, every stored task is
    running, and a name has one live task when it is stored and none when
    it is not. *)
Definition inOrder (sch : Scheduler) : Prop :=
  NoDup (JsMap.keys (scheduledJobs sch)) /\
  Forall (fun entry => running (snd entry) = true) (scheduledJobs sch) /\
  forall jobName,
    live jobName (asked sch) = if JsMap.has jobName (scheduledJobs sch) then 1%Z else 0%Z.

(** the task [scheduleJob] stores, once started *)
Definition scheduledTask (cronExpression : string) : Task :=
  mkTask cronExpression "America/Vancouver" true.

Definition withoutKey (jobName : string) (names : list string) : list string :=
  filter (fun name => negb (name =? jobName)%string) names.

Definition hasNoColon (s : string) : bool :=
  forallb (fun c => negb (Ascii.eqb c ":")) (list_ascii_of_string s).

Definition jobStopped (jobName : string) : LogEntry :=
  mkLog Info ("✅ Job stopped: " ++ jobName)%string.

(** what [scheduleJob] prints on its way *)
Definition schedulingLines (cronExpression jobName : string) (known : bool) : list LogEntry :=
  [mkLog Info ("🔄 Scheduling job: " ++ jobName ++ " with cron: " ++ cronExpression)%string]
  ++ (if known then [jobStopped jobName] else [])
  ++ [mkLog Info ("✅ Job scheduled successfully: " ++ jobName)%string].

(* ---------------------------------------------------------------- *)
(** *** Decimal numerals                                             *)

(** the digits of a decimal numeral, most significant first *)
Fixpoint uintDigits (d : Decimal.uint) : list Z :=
  match d with
  | Decimal.Nil => []
  | Decimal.D0 d => 0%Z :: uintDigits d
  | Decimal.D1 d => 1%Z :: uintDigits d
  | Decimal.D2 d => 2%Z :: uintDigits d
  | Decimal.D3 d => 3%Z :: uintDigits d
  | Decimal.D4 d => 4%Z :: uintDigits d
  | Decimal.D5 d => 5%Z :: uintDigits d
  | Decimal.D6 d => 6%Z :: uintDigits d
  | Decimal.D7 d => 7%Z :: uintDigits d
  | Decimal.D8 d => 8%Z :: uintDigits d
  | Decimal.D9 d => 9%Z :: uintDigits d
  end.

(** every character of [s] is a decimal digit *)
Definition allDigits (s : string) : bool := forallb isDigit (list_ascii_of_string s).

(* ================================================================== *)
(** ** More scripted pages, and a scheduler at work                    *)
(* ================================================================== *)

Module Cases.
Import Sim Scenario.

(** *** A signed-in user in front of one pass, the vehicle selector and
    one day *)
Definition signedIn : State World :=
  start [still [(".gridCard, .cardRow .gridCard", [passCard]);
                ("#scheduler_12196 .dateMain button.date", [day17]);
                ("#selectVehicleSmartSelect", [vehicleSelect])] []].

(** *** A bot at rest in front of an empty page *)
Definition idle : State World := start [blank].

(** *** A browser that cannot be launched, a portal that cannot be reached *)
Definition noDisplay : JsError := mkError "Failed to launch the browser process".
Definition offline : JsError := mkError "net::ERR_INTERNET_DISCONNECTED".

Definition noBrowser : State World :=
  start [mkFrame (fun _ => []) []
                 (fun a => match a with Launch _ => Some noDisplay | _ => None end)].

Definition noNetwork : State World :=
  start [mkFrame (fun _ => []) []
                 (fun a => match a with Goto _ _ => Some offline | _ => None end)].

(** *** A pass type the configuration does not know *)
Definition weekend : Config := withPassType "weekend" defaultConfig.

(** *** A vehicle entry that is covered by another element *)
Definition covered : JsError := mkError "Node is either not clickable or not an Element".

Definition coveredEntry : State World :=
  start [mkFrame (table [(".item-title", [teslaY])]) [teslaY]
                 (fun a => match a with ElementClick _ _ => Some covered | _ => None end)].

(** *** A sign-in form *)
Definition phoneField : ElementHandle :=
  mkElement 20 "input" EmptyString EmptyString EmptyString EmptyString
            [("type", "text"); ("placeholder", "Your phone")].

Definition searchField : ElementHandle :=
  mkElement 21 "input" EmptyString EmptyString EmptyString EmptyString
            [("type", "text"); ("placeholder", "Search")].

Definition backLink : ElementHandle := textElement 22 "a" "themeBtn" "Back".
Definition nextLink : ElementHandle := textElement 23 "a" "themeBtn" "NEXT".

Definition signInForm : State World :=
  start [still [("input", [searchField; phoneField]);
                ("a, button", [backLink; nextLink])] []].

(** *** A page that never shows anything and on which every action goes
    through *)
Definition emptyPage : Browser Z := {|
  querySelectorAll _ _ := [];
  documentElements _ := [];
  perform w _ := (None, w);
  elapse w ms := (w + ms)%Z;
  dateNow w := w;
  isoTimestamp _ := "2025-08-17T08:00:00.000Z"
|}.

Definition loggedIn : State Z := mkState 0%Z [] [] true true false false false.

(** *** A service that is down *)
Definition unavailable : JsError := mkError "503 Service Unavailable".

(** *** A stand-in for [cron.validate]: an expression has five fields *)
Definition fiveFields (expression : string) : bool :=
  (length (Js.split " " expression) =? 5)%nat.

(** the scheduler after [startDefaultScheduler] *)
Definition defaultSchedule : Scheduler :=
  snd (BotScheduler.startDefaultScheduler fiveFields BotScheduler.fresh).

(** *** An environment *)
Definition slowEnv (name : string) : option string :=
  if name =? "DELAY_BETWEEN_ACTIONS" then Some "250"
  else if name =? "HEADLESS" then Some "yes"
  else None.

Definition onThe18th : config.RunOptions := config.mkRunOptions (Some "18") None false.

End Cases.

(*PROOFS*)
(* ================================================================== *)
(** ** Frame lemmas: what an operation may add to the log and history *)
(* ================================================================== *)

Section Framing.
Context {W : Type} {B : Browser W}.
Variable PE : LogEntry -> Prop.
Variable PV : Event -> Prop.

Lemma extends_refl (s : State W) : extends PE PV s s.
Proof.
  split; [| split]; try (exists []; rewrite app_nil_r; auto); auto.
Qed.

Lemma extends_trans (a b c : State W) :
  extends PE PV a b -> extends PE PV b c -> extends PE PV a c.
Proof.
  intros [[l1 [E1 F1]] [[t1 [T1 G1]] V1]] [[l2 [E2 F2]] [[t2 [T2 G2]] V2]].
  split; [| split].
  - exists (l1 ++ l2). rewrite E2, E1, app_assoc. split; auto. apply Forall_app; auto.
  - exists (t1 ++ t2). rewrite T2, T1, app_assoc. split; auto. apply Forall_app; auto.
  - destruct V2 as [V2 | V2]; [rewrite V2; exact V1 | right; exact V2].
Qed.

Lemma keeps_ret A (a : A) : keeps PE PV (ret (W:=W) a).
Proof. intros s. apply extends_refl. Qed.

Lemma keeps_throw A e : keeps PE PV (@throw W A e).
Proof. intros s. apply extends_refl. Qed.

Lemma keeps_gets A (f : State W -> A) : keeps PE PV (gets f).
Proof. intros s. apply extends_refl. Qed.

Lemma keeps_bind A C (m : M W A) (k : A -> M W C) :
  keeps PE PV m -> (forall a, keeps PE PV (k a)) -> keeps PE PV (bind m k).
Proof.
  intros Hm Hk s. unfold bind. specialize (Hm s).
  destruct (m s) as [[a | e |] s1]; simpl in *; auto.
  eapply extends_trans; [exact Hm | apply Hk].
Qed.

Lemma keeps_tryCatch A (m : M W A) (h : JsError -> M W A) :
  keeps PE PV m -> (forall e, keeps PE PV (h e)) -> keeps PE PV (tryCatch m h).
Proof.
  intros Hm Hh s. unfold tryCatch. specialize (Hm s).
  destruct (m s) as [[a | e |] s1]; simpl in *; auto.
  eapply extends_trans; [exact Hm | apply Hh].
Qed.

Lemma keeps_tryFinally A (m : M W A) (f : M W unit) :
  keeps PE PV m -> keeps PE PV f -> keeps PE PV (tryFinally m f).
Proof.
  intros Hm Hf s. unfold tryFinally. specialize (Hm s).
  destruct (m s) as [[a | e |] s1]; simpl in *; auto;
    specialize (Hf s1); destruct (f s1) as [[[] | e' |] s2]; simpl in *;
    eapply extends_trans; eauto.
Qed.

Lemma keeps_forOf A C (xs : list A) (body : A -> M W (option C)) :
  (forall x, In x xs -> keeps PE PV (body x)) -> keeps PE PV (forOf xs body).
Proof.
  induction xs as [| x xs IH]; intros H; simpl.
  - apply keeps_ret.
  - apply keeps_bind; [apply H; left; reflexivity |].
    intros [c |]; [apply keeps_ret | apply IH; intros; apply H; right; assumption].
Qed.

Lemma keeps_write l t : PE (mkLog l t) -> keeps PE PV (logger.write (W:=W) l t).
Proof.
  intros H s. unfold logger.write, modify, addLog; simpl. split; [| split].
  - exists [mkLog l t]. auto.
  - exists []. rewrite app_nil_r. auto.
  - auto.
Qed.

Lemma keeps_act a : (forall r, PV (mkEvent a r)) -> keeps PE PV (act a).
Proof.
  intros H s. unfold act. destruct (perform (world s) a) as [r w'] eqn:E. simpl.
  split; [| split].
  - exists []. rewrite app_nil_r. auto.
  - exists [mkEvent a r]. auto.
  - auto.
Qed.

Lemma keeps_delay ms : PV (mkEvent (Delay ms) None) -> keeps PE PV (utils.delay ms).
Proof.
  intros H s. unfold utils.delay, modify; simpl. split; [| split].
  - exists []. rewrite app_nil_r. auto.
  - exists [mkEvent (Delay ms) None]. auto.
  - auto.
Qed.

Lemma keeps_modify (f : State W -> State W) :
  (forall s, log (f s) = log s) -> (forall s, trace (f s) = trace s) ->
  (forall s, vehicleAdded (f s) = vehicleAdded s) ->
  keeps PE PV (modify f).
Proof.
  intros HL HT HV s. unfold modify; simpl. split; [| split].
  - exists []. rewrite app_nil_r. auto.
  - exists []. rewrite app_nil_r. auto.
  - auto.
Qed.

Lemma keeps_register : PV saveClick -> keeps PE PV (modify (W:=W) (setVehicleAdded true)).
Proof.
  intros H s. unfold modify; simpl. split; [| split].
  - exists []. rewrite app_nil_r. auto.
  - exists []. rewrite app_nil_r. auto.
  - right. auto.
Qed.

End Framing.

Lemma keeps_weaken {W} (PE PE' : LogEntry -> Prop) (PV PV' : Event -> Prop) A (m : M W A) :
  (forall e, PE e -> PE' e) -> (forall v, PV v -> PV' v) ->
  keeps PE PV m -> keeps PE' PV' m.
Proof.
  intros HE HV H s. destruct (H s) as [[l [E F]] [[t [T G]] V]].
  split; [| split].
  - exists l. split; auto. eapply Forall_impl; eauto.
  - exists t. split; auto. eapply Forall_impl; eauto.
  - destruct V as [V | [V1 V2]]; auto.
Qed.

(** two terms that differ on a constructor once computed *)
Ltac differ := let H := fresh in intro H; cbn in H; discriminate H.

Ltac keeps_side :=
  match goal with
  | H : ordinary ?PE |- ?PE _ => apply H; differ
  | H : unsaved ?PV |- ?PV _ => apply H; differ
  | |- forall _, _ => intro; keeps_side
  | |- _ => assumption
  | |- _ => exact I
  | H : forall e : JsError, ?PE _ |- ?PE _ => apply H
  | H : forall r : option JsError, ?PV _ |- ?PV _ => apply H
  | H : ?PE checkoutStep |- ?PE _ => exact H
  end.

Ltac keeps_known := fail.

Ltac keeps_step :=
  match goal with
  | |- keeps _ _ (bind _ _) => apply keeps_bind; [| intros ?]
  | |- keeps _ _ (ret _) => apply keeps_ret
  | |- keeps _ _ (throw _) => apply keeps_throw
  | |- keeps _ _ (gets _) => apply keeps_gets
  | |- keeps _ _ (page_query _) => apply keeps_gets
  | |- keeps _ _ (page_queryAll _) => apply keeps_gets
  | |- keeps _ _ (page_xpath _) => apply keeps_gets
  | |- keeps _ _ (tryCatch _ _) => apply keeps_tryCatch; [| intros ?]
  | |- keeps _ _ (tryFinally _ _) => apply keeps_tryFinally
  | |- keeps _ _ (forOf _ _) => apply keeps_forOf; intros ? ?
  | |- keeps _ _ (logger.write _ _) => apply keeps_write; keeps_side
  | |- keeps _ _ (logger.logSuccess _) => apply keeps_write; keeps_side
  | |- keeps _ _ (logger.logWarning _) => apply keeps_write; keeps_side
  | |- keeps _ _ (logger.logStep _) => apply keeps_write; keeps_side
  | |- keeps _ _ (logger.logCompletion _) => apply keeps_write; keeps_side
  | |- keeps _ _ (logger.logInfo _) => apply keeps_write; keeps_side
  | |- keeps _ _ (logger.logError _ (Some _)) => apply keeps_write; keeps_side
  | |- keeps _ _ (logger.logError _ None) => apply keeps_write; keeps_side
  | |- keeps _ _ (act _) => apply keeps_act; keeps_side
  | |- keeps _ _ (utils.delay _) => apply keeps_delay; keeps_side
  | |- keeps _ _ (modify (setVehicleAdded true)) => apply keeps_register; keeps_side
  | |- keeps _ _ (modify _) => apply keeps_modify; intros; reflexivity
  | |- keeps _ _ (if ?b then _ else _) => destruct b
  | |- keeps _ _ (match ?x with _ => _ end) => destruct x
  | |- keeps _ _ _ => keeps_known
  | |- keeps _ _ _ => progress cbv zeta
  end.

Ltac keeps_auto := repeat keeps_step.

Section Frames.
Context {W : Type} {B : Browser W}.
Variable config : Config.
Variable PE : LogEntry -> Prop.
Variable PV : Event -> Prop.
Hypothesis HPE : ordinary PE.
Hypothesis HPV : unsaved PV.
Hypothesis HSave : forall r, PV (mkEvent (Click (saveVehicleBtn selectors)) r).
Hypothesis HSoldOut :
  forall e, PE (mkLog Err ("Failed to add to cart: " ++ message e)%string).
Hypothesis HCheckout : PE checkoutStep.

Lemma keeps_waitForElementVisible selector timeout :
  keeps PE PV (utils.waitForElementVisible selector timeout).
Proof. unfold utils.waitForElementVisible. keeps_auto. Qed.

Ltac keeps_known1 := apply keeps_waitForElementVisible.
Ltac keeps_known ::= keeps_known1.

Lemma keeps_clickAttempt selector :
  (forall r, PV (mkEvent (Click selector) r)) ->
  keeps PE PV (utils.clickAttempt selector).
Proof. intros HC. unfold utils.clickAttempt. keeps_auto. Qed.

Lemma keeps_clickElementFrom selector maxRetries remaining :
  (forall r, PV (mkEvent (Click selector) r)) ->
  keeps PE PV (utils.clickElementFrom selector maxRetries remaining).
Proof.
  intros HC. induction remaining as [| k IH]; simpl.
  - apply keeps_ret.
  - apply keeps_tryCatch; [apply keeps_clickAttempt; assumption | intros e].
    keeps_auto. exact IH.
Qed.

Lemma keeps_clickElement selector maxRetries :
  (forall r, PV (mkEvent (Click selector) r)) ->
  keeps PE PV (utils.clickElement selector maxRetries).
Proof. apply keeps_clickElementFrom. Qed.

Lemma keeps_fillInput selector text : keeps PE PV (utils.fillInput selector text).
Proof. unfold utils.fillInput. keeps_auto. Qed.

Lemma keeps_selectOption selector value : keeps PE PV (utils.selectOption selector value).
Proof. unfold utils.selectOption. keeps_auto. Qed.

Lemma keeps_elementExists selector : keeps PE PV (utils.elementExists selector).
Proof. unfold utils.elementExists. keeps_auto. Qed.

Lemma keeps_waitForPageLoad : keeps PE PV utils.waitForPageLoad.
Proof. unfold utils.waitForPageLoad. keeps_auto. Qed.

Lemma keeps_takeScreenshot filename : keeps PE PV (utils.takeScreenshot filename).
Proof. unfold utils.takeScreenshot. keeps_auto. Qed.

(** a click on a selector is not a registration unless the selector is the
    save button's *)
Ltac click_ok :=
  first [ assumption
        | let r := fresh in intros r; apply HPV; differ
        | let r := fresh in intros r; cbn; apply HSave
        | let r := fresh in
          intros r;
          match goal with
          | H : In ?x _ |- _ =>
              cbv [bot.buttonSelectors bot.submitSelectors In] in H;
              decompose [or] H; clear H; subst;
              first [ contradiction | apply HPV; differ ]
          end ].

Ltac keeps_known2 :=
  first [ keeps_known1
        | apply keeps_clickElement; click_ok
        | apply keeps_fillInput
        | apply keeps_selectOption
        | apply keeps_elementExists
        | apply keeps_waitForPageLoad
        | apply keeps_takeScreenshot ].
Ltac keeps_known ::= keeps_known2.

Lemma keeps_click el : keeps PE PV (bot.click el).
Proof. unfold bot.click. keeps_auto. Qed.

Lemma keeps_debugScreenshot name : keeps PE PV (bot.debugScreenshot name).
Proof. unfold bot.debugScreenshot. keeps_auto. Qed.

Lemma keeps_page_evalTextContent selector : keeps PE PV (bot.page_evalTextContent selector).
Proof. unfold bot.page_evalTextContent. keeps_auto. Qed.

Ltac keeps_known3 :=
  first [ keeps_known2
        | apply keeps_click
        | apply keeps_debugScreenshot
        | apply keeps_page_evalTextContent ].
Ltac keeps_known ::= keeps_known3.

Lemma keeps_initialize : keeps PE PV (bot.initialize config).
Proof. unfold bot.initialize. keeps_auto. Qed.

Lemma keeps_navigateToPortal : keeps PE PV (bot.navigateToPortal config).
Proof. unfold bot.navigateToPortal. keeps_auto. Qed.

Lemma keeps_handleInfoPopup : keeps PE PV (bot.handleInfoPopup config).
Proof.
  unfold bot.handleInfoPopup, bot.clickGoToPassByXPath, bot.clickGoToPassBySelector,
    bot.clickGoToPassByText.
  keeps_auto.
Qed.

Lemma keeps_selectPassType : keeps PE PV (bot.selectPassType config).
Proof. unfold bot.selectPassType. keeps_auto. Qed.

Lemma keeps_selectDateFromNewPicker : keeps PE PV (bot.selectDateFromNewPicker config).
Proof.
  unfold bot.selectDateFromNewPicker, bot.chooseDate, bot.selectPreferredDate,
    bot.resolvePreferredDay,
    bot.collectDateButtons, bot.selectPreferredDay, bot.preferredDayIsActive,
    bot.clickIfPreferred, bot.selectFirstAvailableDate.
  keeps_auto.
Qed.

Lemma keeps_addToCart : keeps PE PV (bot.addToCart config).
Proof. unfold bot.addToCart. keeps_auto. Qed.

Lemma keeps_fillVehicleFields : keeps PE PV (bot.fillVehicleFields config).
Proof. unfold bot.fillVehicleFields. keeps_auto. Qed.

Ltac keeps_known4 :=
  first [ keeps_known3
        | apply keeps_initialize
        | apply keeps_navigateToPortal
        | apply keeps_handleInfoPopup
        | apply keeps_selectPassType
        | apply keeps_selectDateFromNewPicker
        | apply keeps_addToCart
        | apply keeps_fillVehicleFields ].
Ltac keeps_known ::= keeps_known4.

Lemma keeps_fillVehicleForm : keeps PE PV (bot.fillVehicleForm config).
Proof. unfold bot.fillVehicleForm. keeps_auto. Qed.

Lemma keeps_selectExistingVehicleOption : keeps PE PV bot.selectExistingVehicleOption.
Proof. unfold bot.selectExistingVehicleOption. keeps_auto. Qed.

Ltac keeps_known5 :=
  first [ keeps_known4
        | apply keeps_fillVehicleForm
        | apply keeps_selectExistingVehicleOption ].
Ltac keeps_known ::= keeps_known5.

Lemma keeps_openVehicleSelector : keeps PE PV bot.openVehicleSelector.
Proof. unfold bot.openVehicleSelector. keeps_auto. Qed.

Lemma keeps_handleVehicleSelectionForSignedInUser :
  keeps PE PV (bot.handleVehicleSelectionForSignedInUser config).
Proof.
  unfold bot.handleVehicleSelectionForSignedInUser.
  apply keeps_tryCatch; [| intros ?; keeps_auto].
  apply keeps_bind; [apply keeps_openVehicleSelector | intros ?]. keeps_auto.
Qed.

Ltac keeps_known6 :=
  first [ keeps_known5 | apply keeps_handleVehicleSelectionForSignedInUser ].
Ltac keeps_known ::= keeps_known6.

Lemma keeps_handleSignedInBooking : keeps PE PV (bot.handleSignedInBooking config).
Proof. unfold bot.handleSignedInBooking. keeps_auto. Qed.

Lemma keeps_findOtpInputs : keeps PE PV bot.findOtpInputs.
Proof. unfold bot.findOtpInputs. keeps_auto. Qed.

Lemma keeps_otpWaitLoop maxWait interval fuel waitedTime :
  keeps PE PV (bot.otpWaitLoop maxWait interval fuel waitedTime).
Proof.
  revert waitedTime. induction fuel as [| fuel IH]; intros waitedTime; simpl.
  - intros s. apply extends_refl.
  - keeps_auto. apply IH.
Qed.

Ltac keeps_known7 :=
  first [ keeps_known6
        | apply keeps_handleSignedInBooking
        | apply keeps_findOtpInputs
        | apply keeps_otpWaitLoop ].
Ltac keeps_known ::= keeps_known7.

Lemma keeps_requestOtpEntry : keeps PE PV bot.requestOtpEntry.
Proof. unfold bot.requestOtpEntry. keeps_auto. Qed.

Lemma keeps_awaitOtpEntry : keeps PE PV bot.awaitOtpEntry.
Proof. unfold bot.awaitOtpEntry. keeps_auto. Qed.

Lemma keeps_submitOtp : keeps PE PV (bot.submitOtp config).
Proof. unfold bot.submitOtp. keeps_auto. Qed.

Ltac keeps_known8 :=
  first [ keeps_known7
        | apply keeps_requestOtpEntry
        | apply keeps_awaitOtpEntry
        | apply keeps_submitOtp ].
Ltac keeps_known ::= keeps_known8.

Lemma keeps_handleOTPVerification : keeps PE PV (bot.handleOTPVerification config).
Proof. unfold bot.handleOTPVerification. keeps_auto. Qed.

Lemma keeps_findPhoneInput : keeps PE PV bot.findPhoneInput.
Proof. unfold bot.findPhoneInput. keeps_auto. Qed.

Lemma keeps_clickNextButton : keeps PE PV bot.clickNextButton.
Proof. unfold bot.clickNextButton. keeps_auto. Qed.

Ltac keeps_known9 :=
  first [ keeps_known8
        | apply keeps_handleOTPVerification
        | apply keeps_findPhoneInput
        | apply keeps_clickNextButton ].
Ltac keeps_known ::= keeps_known9.

Lemma keeps_handleLogin : keeps PE PV (bot.handleLogin config).
Proof. unfold bot.handleLogin. keeps_auto. Qed.

Lemma keeps_logAllVehicles : keeps PE PV bot.logAllVehicles.
Proof. unfold bot.logAllVehicles. keeps_auto. Qed.

Lemma keeps_awaitVehiclePopupClosed : keeps PE PV (bot.awaitVehiclePopupClosed config).
Proof. unfold bot.awaitVehiclePopupClosed. keeps_auto. Qed.

Lemma keeps_pickVehicle : keeps PE PV (bot.pickVehicle config).
Proof. unfold bot.pickVehicle. keeps_auto. Qed.

Lemma keeps_clickVehicleOrFallback el what how :
  keeps PE PV (bot.clickVehicleOrFallback config el what how).
Proof. unfold bot.clickVehicleOrFallback. keeps_auto. Qed.

Ltac keeps_known10 :=
  first [ keeps_known9
        | apply keeps_handleLogin
        | apply keeps_logAllVehicles
        | apply keeps_awaitVehiclePopupClosed
        | apply keeps_pickVehicle
        | apply keeps_clickVehicleOrFallback ].
Ltac keeps_known ::= keeps_known10.

Lemma keeps_pickVehicleFromDropdown : keeps PE PV (bot.pickVehicleFromDropdown config).
Proof. unfold bot.pickVehicleFromDropdown. keeps_auto. Qed.

Lemma keeps_handleVehicleSelection : keeps PE PV (bot.handleVehicleSelection config).
Proof. unfold bot.handleVehicleSelection. keeps_auto. Qed.

Ltac keeps_known11 :=
  first [ keeps_known10 | apply keeps_pickVehicleFromDropdown ].
Ltac keeps_known ::= keeps_known11.

Lemma keeps_handleDropdownVehicleSelection :
  keeps PE PV (bot.handleDropdownVehicleSelection config).
Proof. unfold bot.handleDropdownVehicleSelection. keeps_auto. Qed.

Ltac keeps_known12 :=
  first [ keeps_known11 | apply keeps_handleDropdownVehicleSelection ].
Ltac keeps_known ::= keeps_known12.

Lemma keeps_handlePostLoginFlow : keeps PE PV (bot.handlePostLoginFlow config).
Proof. unfold bot.handlePostLoginFlow. keeps_auto. Qed.

Lemma keeps_completeCheckout : keeps PE PV (bot.completeCheckout config).
Proof. unfold bot.completeCheckout. keeps_auto. Qed.

Lemma keeps_cleanup : keeps PE PV bot.cleanup.
Proof. unfold bot.cleanup. keeps_auto. Qed.

Ltac keeps_known13 :=
  first [ keeps_known12
        | apply keeps_handlePostLoginFlow
        | apply keeps_completeCheckout
        | apply keeps_cleanup ].
Ltac keeps_known ::= keeps_known13.

Lemma keeps_bookAsGuest : keeps PE PV (bot.bookAsGuest config).
Proof. unfold bot.bookAsGuest. keeps_auto. Qed.

Ltac keeps_known14 := first [ keeps_known13 | apply keeps_bookAsGuest ].
Ltac keeps_known ::= keeps_known14.

Lemma keeps_bookUntilCart : keeps PE PV (bot.bookUntilCart config).
Proof. unfold bot.bookUntilCart. keeps_auto. Qed.

Ltac keeps_known15 := first [ keeps_known14 | apply keeps_bookUntilCart ].
Ltac keeps_known ::= keeps_known15.

Lemma keeps_bookParkingPass : keeps PE PV (bot.bookParkingPass config).
Proof. unfold bot.bookParkingPass. keeps_auto. Qed.

End Frames.

(* ================================================================== *)
(** ** A sold-out pass stops the run before checkout                   *)
(* ================================================================== *)

Section SoldOut.
Context {W : Type} {B : Browser W}.
Variable config : Config.

Lemma ordinary_quiet : ordinary quiet.
Proof. intros e H1 H2. split; assumption. Qed.

Lemma unsaved_anyEvent : unsaved anyEvent.
Proof. intros v _. exact I. Qed.

Lemma anyEvent_save : forall r, anyEvent (mkEvent (Click (saveVehicleBtn selectors)) r).
Proof. intros r. exact I. Qed.

Lemma quiet_not_in (l : list LogEntry) (e : LogEntry) :
  Forall quiet l -> (e = checkoutStep \/ e = soldOutReport) -> ~ In e l.
Proof.
  intros HF He Hin. rewrite Forall_forall in HF. destruct (HF e Hin) as [H1 H2].
  destruct He; contradiction.
Qed.

Lemma quiet_aborts A (m : M W A) : keeps quiet anyEvent m -> abortsOnSoldOut m.
Proof.
  intros H s. destruct (H s) as [[l [E F]] _]. exists l. repeat split; auto.
  - eapply quiet_not_in; eauto.
  - intros Hin. exfalso. eapply quiet_not_in; eauto.
Qed.

Lemma aborts_bind A C (m : M W A) (k : A -> M W C) :
  abortsOnSoldOut m -> (forall a, abortsOnSoldOut (k a)) -> abortsOnSoldOut (bind m k).
Proof.
  intros Hm Hk s. destruct (Hm s) as [l1 [E1 [N1 T1]]]. unfold bind.
  destruct (m s) as [[a | e |] s1] eqn:Em; simpl in *.
  - destruct (Hk a s1) as [l2 [E2 [N2 T2]]]. exists (l1 ++ l2).
    rewrite E2, E1, app_assoc. repeat split; auto.
    + intros Hin. apply in_app_or in Hin. tauto.
    + intros Hin. apply in_app_or in Hin. destruct Hin as [Hin | Hin]; auto.
      specialize (T1 Hin). discriminate T1.
  - exists l1. repeat split; auto.
    intros Hin. specialize (T1 Hin). injection T1 as ->. reflexivity.
  - exists l1. repeat split; auto.
    intros Hin. specialize (T1 Hin). discriminate T1.
Qed.

Lemma aborts_tryCatch A (m : M W A) (h : JsError -> M W A) :
  abortsOnSoldOut m -> (forall e, keeps quiet anyEvent (h e)) -> rethrows h ->
  abortsOnSoldOut (tryCatch m h).
Proof.
  intros Hm Hh Hr s. destruct (Hm s) as [l1 [E1 [N1 T1]]]. unfold tryCatch.
  destruct (m s) as [[a | e |] s1] eqn:Em; simpl in *.
  - exists l1. repeat split; auto.
  - destruct (Hh e s1) as [[l2 [E2 F2]] _]. exists (l1 ++ l2).
    rewrite E2, E1, app_assoc. repeat split; auto.
    + intros Hin. apply in_app_or in Hin. destruct Hin as [Hin | Hin]; auto.
      revert Hin. eapply quiet_not_in; eauto.
    + intros Hin. apply in_app_or in Hin. destruct Hin as [Hin | Hin].
      * rewrite Hr. apply T1. assumption.
      * exfalso. revert Hin. eapply quiet_not_in; eauto.
  - exists l1. repeat split; auto.
Qed.

Lemma returns_takeScreenshot filename : returns (W:=W) (utils.takeScreenshot filename).
Proof.
  intros s. unfold utils.takeScreenshot, tryCatch, bind, gets, act, logger.logSuccess,
    logger.logError, logger.write, modify, ret. simpl.
  destruct (perform (world s) _) as [[e |] w']; simpl; eauto.
Qed.

Lemma returns_cleanup : returns (W:=W) bot.cleanup.
Proof.
  intros s. unfold bot.cleanup, tryCatch, bind, gets, act, logger.logSuccess,
    logger.logError, logger.write, modify, ret. simpl.
  destruct (browser s); simpl; eauto.
  destruct (perform (world s) Close) as [[e |] w']; simpl; eauto.
Qed.

(** the catch blocks of the stages: log, then throw the same error *)
Lemma rethrows_log msg : rethrows (W:=W) (A:=bool)
  (fun error => logger.logError msg (Some error) ;; throw error)%bot.
Proof. intros e s. reflexivity. Qed.

Lemma aborts_addToCart : abortsOnSoldOut (bot.addToCart config).
Proof.
  intros s. unfold bot.addToCart, tryCatch.
  match goal with |- context [?body s] => set (m := body) end.
  assert (Hm : keeps quiet anyEvent m).
  { subst m. pose proof ordinary_quiet. pose proof unsaved_anyEvent.
    keeps_auto; try (apply keeps_waitForElementVisible; assumption);
      try (apply keeps_elementExists; assumption);
      try (apply keeps_clickElement; try assumption; intros; exact I). }
  destruct (Hm s) as [[l [E F]] _].
  destruct (m s) as [[a | e |] s1] eqn:Em; simpl in *.
  - exists l. repeat split; auto.
    + eapply quiet_not_in; eauto.
    + intros Hin. exfalso. revert Hin. eapply quiet_not_in; eauto.
  - exists (l ++ [mkLog Err ("Failed to add to cart: " ++ message e)%string]).
    rewrite E, app_assoc. repeat split; auto.
    + intros Hin. apply in_app_or in Hin. destruct Hin as [Hin | [Hin | []]].
      * revert Hin. eapply quiet_not_in; eauto.
      * discriminate Hin.
    + intros Hin. apply in_app_or in Hin. destruct Hin as [Hin | [Hin | []]].
      * exfalso. revert Hin. eapply quiet_not_in; eauto.
      * destruct e as [msg]. unfold soldOutReport in Hin. simpl in Hin.
        injection Hin as Hmsg. unfold soldOutError. congruence.
  - exists l. repeat split; auto.
    + eapply quiet_not_in; eauto.
    + intros Hin. exfalso. revert Hin. eapply quiet_not_in; eauto.
Qed.

End SoldOut.

Ltac frame_premise :=
  first [ apply ordinary_quiet | apply unsaved_anyEvent | assumption | (intros; exact I) ].

Ltac keeps_quiet_known :=
  match goal with
  | |- keeps _ _ (utils.elementExists _) => apply keeps_elementExists
  | |- keeps _ _ (utils.takeScreenshot _) => apply keeps_takeScreenshot
  | |- keeps _ _ (bot.initialize _) => apply keeps_initialize
  | |- keeps _ _ (bot.navigateToPortal _) => apply keeps_navigateToPortal
  | |- keeps _ _ (bot.handleInfoPopup _) => apply keeps_handleInfoPopup
  | |- keeps _ _ (bot.selectPassType _) => apply keeps_selectPassType
  | |- keeps _ _ (bot.selectDateFromNewPicker _) => apply keeps_selectDateFromNewPicker
  | |- keeps _ _ (bot.handleVehicleSelectionForSignedInUser _) =>
      apply keeps_handleVehicleSelectionForSignedInUser
  | |- keeps _ _ (bot.handleDropdownVehicleSelection _) =>
      apply keeps_handleDropdownVehicleSelection
  | |- keeps _ _ (bot.handleLogin _) => apply keeps_handleLogin
  | |- keeps _ _ bot.cleanup => apply keeps_cleanup
  end; frame_premise.

Ltac keeps_known ::= keeps_quiet_known.

Ltac keeps_quiet :=
  pose proof ordinary_quiet; pose proof unsaved_anyEvent; keeps_auto.

Ltac aborts_step :=
  match goal with
  | |- abortsOnSoldOut (bot.addToCart _) => apply aborts_addToCart
  | |- abortsOnSoldOut _ => apply quiet_aborts; solve [keeps_quiet]
  | |- abortsOnSoldOut (bind _ _) => apply aborts_bind; [| intros ?]
  | |- abortsOnSoldOut (if ?b then _ else _) => destruct b
  | |- abortsOnSoldOut (tryCatch _ _) =>
      apply aborts_tryCatch; [| intros ?; solve [keeps_quiet] |]
  end.

Section SoldOutRun.
Context {W : Type} {B : Browser W}.
Variable config : Config.

Lemma rethrows_after_screenshot msg filename :
  rethrows (W:=W) (A:=unit)
    (fun error => logger.logError msg (Some error) ;;
                  utils.takeScreenshot filename ;;
                  throw error)%bot.
Proof.
  intros e s. unfold bind at 1. simpl. unfold bind.
  destruct (returns_takeScreenshot filename (addLog (mkLog Err (msg ++ ": " ++ message e)%string) s))
    as [a Ha].
  destruct (utils.takeScreenshot filename _) as [[a' | e' |] s1]; simpl in *;
    try discriminate; reflexivity.
Qed.

Lemma aborts_handleSignedInBooking : abortsOnSoldOut (bot.handleSignedInBooking config).
Proof.
  unfold bot.handleSignedInBooking. repeat aborts_step. apply rethrows_log.
Qed.

Lemma aborts_handlePostLoginFlow : abortsOnSoldOut (bot.handlePostLoginFlow config).
Proof.
  unfold bot.handlePostLoginFlow. repeat aborts_step. apply rethrows_log.
Qed.

Lemma aborts_bookAsGuest : abortsOnSoldOut (bot.bookAsGuest config).
Proof.
  unfold bot.bookAsGuest. repeat aborts_step.
  - apply aborts_handlePostLoginFlow.
  - apply rethrows_after_screenshot.
Qed.

Lemma aborts_bookUntilCart : abortsOnSoldOut (bot.bookUntilCart config).
Proof.
  unfold bot.bookUntilCart. repeat aborts_step.
  - apply aborts_handleSignedInBooking.
  - apply aborts_bookAsGuest.
Qed.

(** lines 1817-1821: what follows the cart *)
Let checkoutAndReport : M W bool :=
  (bot.completeCheckout config ;;
   logger.logSuccess "🎉 Parking pass booking completed successfully!" ;;
   ret true)%bot.

(** lines 1822-1830: the catch block of the run *)
Let reportFailure (error : JsError) : M W bool :=
  (logger.logError "Booking process failed" (Some error) ;;
   hasPage <- gets page ;;
   (if hasPage then utils.takeScreenshot "error_state" ;; ret tt else ret tt) ;;
   throw error)%bot.

Lemma ordinary_unreported : ordinary unreported.
Proof. intros e _ H. exact H. Qed.

Lemma keeps_after_cart :
  keeps unreported anyEvent (tryFinally (tryCatch checkoutAndReport reportFailure) bot.cleanup).
Proof.
  pose proof ordinary_unreported. pose proof unsaved_anyEvent.
  assert (HC : unreported checkoutStep) by (intro E; discriminate E).
  unfold checkoutAndReport, reportFailure.
  apply keeps_tryFinally; [| apply keeps_cleanup; assumption].
  apply keeps_tryCatch.
  - apply keeps_bind; [apply keeps_completeCheckout; assumption | intros ?]. keeps_auto.
  - intros e. keeps_auto.
Qed.

Lemma keeps_failure_path e :
  keeps quiet anyEvent (tryFinally (reportFailure e) bot.cleanup).
Proof. unfold reportFailure. keeps_quiet. Qed.

Lemma failure_path_throws e s :
  fst (tryFinally (reportFailure e) bot.cleanup s) = Throw e.
Proof.
  unfold tryFinally.
  assert (Hr : fst (reportFailure e s) = Throw e).
  { unfold reportFailure, bind, gets, logger.logError, logger.write, modify, ret, throw. simpl.
    destruct (page s); simpl; [| reflexivity].
    match goal with |- context [utils.takeScreenshot ?f ?st] =>
      destruct (returns_takeScreenshot f st) as [a Ha];
      destruct (utils.takeScreenshot f st) as [[a' | e' |] s1]
    end; simpl in *; try discriminate; reflexivity. }
  destruct (reportFailure e s) as [r s1]. simpl in Hr. subst r.
  destruct (returns_cleanup s1) as [[] Hc].
  destruct (bot.cleanup s1) as [[[] | e' |] s2]; simpl in *; try discriminate; reflexivity.
Qed.

Lemma bookParkingPass_unfold s :
  bot.bookParkingPass config s =
  match bot.bookUntilCart config s with
  | (Ok _, s1) => tryFinally (tryCatch checkoutAndReport reportFailure) bot.cleanup s1
  | (Throw e, s1) => tryFinally (reportFailure e) bot.cleanup s1
  | (OutOfFuel, s1) => (OutOfFuel, s1)
  end.
Proof.
  unfold bot.bookParkingPass, checkoutAndReport, reportFailure.
  unfold tryFinally, tryCatch. unfold bind at 1.
  destruct (bot.bookUntilCart config s) as [[a | e |] s1]; reflexivity.
Qed.

Lemma run_aborts_on_sold_out s :
  exists l,
    log (snd (bot.bookParkingPass config s)) = log s ++ l /\
    (In soldOutReport l ->
     fst (bot.bookParkingPass config s) = Throw soldOutError /\ ~ In checkoutStep l).
Proof.
  rewrite bookParkingPass_unfold.
  destruct (aborts_bookUntilCart s) as [l1 [E1 [N1 T1]]].
  destruct (bot.bookUntilCart config s) as [[a | e |] s1]; simpl in *.
  - destruct (keeps_after_cart s1) as [[l2 [E2 F2]] _].
    exists (l1 ++ l2). rewrite E2, E1, app_assoc. split; [reflexivity |].
    intros Hin. exfalso. apply in_app_or in Hin. destruct Hin as [Hin | Hin].
    + specialize (T1 Hin). discriminate T1.
    + rewrite Forall_forall in F2. apply (F2 _ Hin). reflexivity.
  - destruct (keeps_failure_path e s1) as [[l2 [E2 F2]] _].
    exists (l1 ++ l2). rewrite E2, E1, app_assoc. split; [reflexivity |].
    intros Hin. rewrite failure_path_throws. split.
    + apply in_app_or in Hin. destruct Hin as [Hin | Hin].
      * specialize (T1 Hin). injection T1 as ->. reflexivity.
      * exfalso. revert Hin. eapply quiet_not_in; eauto.
    + intros Hc. apply in_app_or in Hc. destruct Hc as [Hc | Hc]; [auto |].
      revert Hc. eapply quiet_not_in; eauto.
  - exists l1. split; [assumption |]. intros Hin. specialize (T1 Hin). discriminate T1.
Qed.

(** the cart stage in front of a sold-out indicator *)
Lemma addToCart_sold_out s w1 :
  perform (world s) (WaitForSelector (addToCartBtn selectors) true false utils.defaultTimeout)
    = (None, w1) ->
  querySelectorAll w1 (soldOut selectors) <> [] ->
  fst (bot.addToCart config s) = Throw soldOutError /\
  log (snd (bot.addToCart config s))
    = log s ++ [mkLog Info "🔄 Adding pass to cart"; soldOutReport] /\
  trace (snd (bot.addToCart config s))
    = trace s ++ [mkEvent (WaitForSelector (addToCartBtn selectors) true false
                             utils.defaultTimeout) None].
Proof.
  intros Hw Hs.
  unfold bot.addToCart, tryCatch, bind, utils.waitForElementVisible, tryCatch, bind, act,
    utils.elementExists, tryCatch, bind, page_query, gets, logger.logStep, logger.logError,
    logger.write, modify, ret, throw.
  simpl in *. rewrite Hw. simpl.
  destruct (querySelectorAll w1 _) as [| el els] eqn:Eq;
    [contradiction Hs; reflexivity |].
  simpl. rewrite <- app_assoc. auto.
Qed.

(** C2 -- A run whose cart stage finds the sold-out indicator does not
    reach checkout.  In front of the indicator [addToCart] throws the
    sold-out error, reports it in the log and clicks nothing; and in every
    run of [bookParkingPass] whose log holds that report, the run ends by
    throwing the sold-out error and the line that opens the checkout stage
    was never written. *)
Theorem sold_out_run_never_checks_out (s : State W) :
  (forall w1,
     perform (world s) (WaitForSelector (addToCartBtn selectors) true false utils.defaultTimeout)
       = (None, w1) ->
     querySelectorAll w1 (soldOut selectors) <> [] ->
     fst (bot.addToCart config s) = Throw soldOutError /\
     log (snd (bot.addToCart config s))
       = log s ++ [mkLog Info "🔄 Adding pass to cart"; soldOutReport] /\
     trace (snd (bot.addToCart config s))
       = trace s ++ [mkEvent (WaitForSelector (addToCartBtn selectors) true false
                                utils.defaultTimeout) None]) /\
  (forall l,
     log (snd (bot.bookParkingPass config s)) = log s ++ l ->
     In soldOutReport l ->
     fst (bot.bookParkingPass config s) = Throw soldOutError /\ ~ In checkoutStep l).
Proof.
  split.
  - intros w1. apply addToCart_sold_out.
  - intros l El Hin. destruct (run_aborts_on_sold_out s) as [l' [El' H]].
    assert (l = l') by (eapply app_inv_head; rewrite <- El, <- El'; reflexivity).
    subst l'. auto.
Qed.

End SoldOutRun.

(* ================================================================== *)
(** ** The job runner's guard                                          *)
(* ================================================================== *)

Section Guard.
Context {W : Type} {B : Browser W}.
Variable config : Config.

(** C8 -- A trigger that arrives while [isRunning] is set is skipped: the
    job runner returns at once, having only logged a warning; no bot is
    built or run (the history of actions, the page and the bot fields are
    what they were) and the guard keeps its value. *)
Theorem running_guard_skips_job (jobName : string) (s : State W) :
  isRunning s = true ->
  scheduler.runScheduledJob config jobName s
    = (Ok tt,
       addLog (mkLog Warn ("⚠️ Bot is already running, skipping scheduled job: " ++ jobName)%string) s)
  /\ isRunning (snd (scheduler.runScheduledJob config jobName s)) = true
  /\ trace (snd (scheduler.runScheduledJob config jobName s)) = trace s
  /\ world (snd (scheduler.runScheduledJob config jobName s)) = world s.
Proof.
  intros H.
  assert (E : scheduler.runScheduledJob config jobName s
              = (Ok tt, addLog (mkLog Warn
                   ("⚠️ Bot is already running, skipping scheduled job: " ++ jobName)%string) s)).
  { unfold scheduler.runScheduledJob, bind, gets. rewrite H. reflexivity. }
  rewrite E. simpl. auto.
Qed.

End Guard.

(* ================================================================== *)
(** ** The click primitive                                             *)
(* ================================================================== *)

Section ClickElement.
Context {W : Type} {B : Browser W}.

(** one attempt, by cases on what the page answers *)
Lemma clickAttempt_cases selector (s : State W) :
  (fst (utils.clickAttempt selector s) = Ok true /\
   trace (snd (utils.clickAttempt selector s))
     = trace s ++ [waitEvent selector None; clickEvent selector None]) \/
  (exists evs e,
     fst (utils.clickAttempt selector s) = Throw e /\
     trace (snd (utils.clickAttempt selector s)) = trace s ++ evs /\
     failedAttempt selector evs e).
Proof.
  unfold utils.clickAttempt, utils.waitForElementVisible, tryCatch, bind, act, page_query,
    gets, logger.logSuccess, logger.write, modify, ret, throw.
  destruct (perform (world s) (WaitForSelector selector true false utils.defaultTimeout))
    as [[cause |] w1] eqn:E1; simpl.
  - right. exists [waitEvent selector (Some cause)], (notVisible selector).
    repeat split. constructor.
  - destruct (perform w1 (Click selector)) as [[cause |] w2] eqn:E2; simpl.
    + right. exists [waitEvent selector None; clickEvent selector (Some cause)], cause.
      rewrite <- app_assoc. repeat split. constructor.
    + left. rewrite <- app_assoc. auto.
Qed.

Lemma logWarning_trace msg (s : State W) :
  trace (snd (logger.logWarning msg s)) = trace s.
Proof. reflexivity. Qed.

Lemma clickElementFrom_step selector maxRetries remaining :
  utils.clickElementFrom (W:=W) selector maxRetries (S remaining) =
  tryCatch
    (utils.clickAttempt selector)
    (fun error =>
       logger.logWarning ("Click attempt " ++ ofNat (maxRetries - remaining) ++ " failed for "
                          ++ selector ++ ": " ++ message error)%string ;;
       if (maxRetries - remaining =? maxRetries)%nat then throw error
       else (utils.delay 1000 ;; utils.clickElementFrom selector maxRetries remaining))%bot.
Proof. reflexivity. Qed.

Lemma clickElementFrom_run selector maxRetries remaining (s : State W) :
  (S remaining <= maxRetries)%nat ->
  exists evs,
    trace (snd (utils.clickElementFrom selector maxRetries (S remaining) s)) = trace s ++ evs /\
    clickRun selector (S remaining) evs
      (fst (utils.clickElementFrom selector maxRetries (S remaining) s)).
Proof.
  revert s. induction remaining as [| k IH]; intros s Hle.
  - rewrite clickElementFrom_step. unfold tryCatch.
    destruct (clickAttempt_cases selector s) as [[Hr Ht] | [evs [e [Hr [Ht Hf]]]]];
      destruct (utils.clickAttempt selector s) as [r s1]; simpl in Hr, Ht; subst r.
    + exists [waitEvent selector None; clickEvent selector None]. split; [exact Ht | constructor].
    + replace (maxRetries - 0 =? maxRetries)%nat with true
        by (symmetry; apply Nat.eqb_eq; lia).
      exists evs. split; [exact Ht | apply click_gives_up; exact Hf].
  - rewrite clickElementFrom_step. unfold tryCatch.
    destruct (clickAttempt_cases selector s) as [[Hr Ht] | [evs [e [Hr [Ht Hf]]]]];
      destruct (utils.clickAttempt selector s) as [r s1]; simpl in Hr, Ht; subst r.
    + exists [waitEvent selector None; clickEvent selector None]. split; [exact Ht | constructor].
    + replace (maxRetries - S k =? maxRetries)%nat with false
        by (symmetry; apply Nat.eqb_neq; lia).
      unfold bind, logger.logWarning, logger.write, utils.delay, modify.
      match goal with |- context [utils.clickElementFrom selector maxRetries (S k) ?st] =>
        destruct (IH st) as [rest [Ht' Hrun]]; [lia |];
        exists (evs ++ pause :: rest)
      end.
      split.
      * rewrite Ht'. simpl. rewrite Ht. rewrite <- !app_assoc. reflexivity.
      * eapply click_retries; eauto.
Qed.

Lemma clickRun_attempts selector n evs r :
  clickRun selector n evs r -> (attempts evs <= n)%nat.
Proof.
  induction 1 as [n | evs e Hf | n evs e rest r Hf Hrun IH].
  - unfold attempts. simpl. lia.
  - destruct Hf; unfold attempts; simpl; lia.
  - unfold attempts in *. rewrite filter_app, length_app. simpl.
    destruct Hf; simpl; lia.
Qed.

(** C9 (as amended) -- [clickElement] with the default of 3 attempts.  Its
    run is a sequence of at most 3 attempts, each of which first waits for
    the target to be visible and then clicks it, with a pause of one
    second between two attempts; it returns true at the first attempt that
    goes through, and when the third attempt fails it throws that
    attempt's own error as it is: [Element not visible: <target>] when the
    wait failed, the error of the click otherwise. *)
Theorem clickElement_three_attempts selector (s : State W) :
  exists evs,
    trace (snd (utils.clickElement selector utils.defaultMaxRetries s)) = trace s ++ evs /\
    clickRun selector 3 evs (fst (utils.clickElement selector utils.defaultMaxRetries s)) /\
    (attempts evs <= 3)%nat.
Proof.
  destruct (clickElementFrom_run selector 3 2 s) as [evs [Ht Hrun]]; [lia |].
  exists evs. repeat split; auto. eapply clickRun_attempts; eauto.
Qed.

End ClickElement.

(* ================================================================== *)
(** ** Running a sequence step by step                                 *)
(* ================================================================== *)

Section Running.
Context {W : Type}.

Lemma bind_ok A C (m : M W A) (k : A -> M W C) s a s1 :
  m s = (Ok a, s1) -> bind m k s = k a s1.
Proof. intros H. unfold bind. rewrite H. reflexivity. Qed.

Lemma bind_throw A C (m : M W A) (k : A -> M W C) s e s1 :
  m s = (Throw e, s1) -> bind m k s = (Throw e, s1).
Proof. intros H. unfold bind. rewrite H. reflexivity. Qed.

Lemma tryCatch_ok A (m : M W A) h s a s1 :
  m s = (Ok a, s1) -> tryCatch m h s = (Ok a, s1).
Proof. intros H. unfold tryCatch. rewrite H. reflexivity. Qed.

Lemma tryCatch_throw A (m : M W A) h s e s1 :
  m s = (Throw e, s1) -> tryCatch m h s = h e s1.
Proof. intros H. unfold tryCatch. rewrite H. reflexivity. Qed.

Lemma returns_bind A C (m : M W A) (k : A -> M W C) :
  returns m -> (forall a, returns (k a)) -> returns (bind m k).
Proof.
  intros Hm Hk s. destruct (Hm s) as [a Ha]. unfold bind.
  destruct (m s) as [r s1]. simpl in Ha. subst r. apply Hk.
Qed.

Lemma returns_ret A (a : A) : returns (W:=W) (ret a).
Proof. intros s. exists a. reflexivity. Qed.

Lemma returns_modify (f : State W -> State W) : returns (modify f).
Proof. intros s. exists tt. reflexivity. Qed.

Lemma returns_lands A (m : M W A) : returns m -> lands m.
Proof. intros H s. destruct (H s) as [a Ha]. rewrite Ha. discriminate. Qed.

Lemma lands_ret A (a : A) : lands (W:=W) (ret a).
Proof. intros s. discriminate. Qed.

Lemma lands_throw A e : lands (@throw W A e).
Proof. intros s. discriminate. Qed.

Lemma lands_gets A (f : State W -> A) : lands (gets f).
Proof. intros s. discriminate. Qed.

Lemma lands_modify (f : State W -> State W) : lands (modify f).
Proof. intros s. discriminate. Qed.

Lemma lands_bind A C (m : M W A) (k : A -> M W C) :
  lands m -> (forall a, lands (k a)) -> lands (bind m k).
Proof.
  intros Hm Hk s. specialize (Hm s). unfold bind.
  destruct (m s) as [[a | e |] s1]; simpl in *; [apply Hk | discriminate | congruence].
Qed.

Lemma lands_tryCatch A (m : M W A) (h : JsError -> M W A) :
  lands m -> (forall e, lands (h e)) -> lands (tryCatch m h).
Proof.
  intros Hm Hh s. specialize (Hm s). unfold tryCatch.
  destruct (m s) as [[a | e |] s1]; simpl in *; [discriminate | apply Hh | congruence].
Qed.

Lemma lands_forOf A C (xs : list A) (body : A -> M W (option C)) :
  (forall x, lands (body x)) -> lands (forOf xs body).
Proof.
  intros H. induction xs as [| x xs IH]; simpl.
  - apply lands_ret.
  - apply lands_bind; [apply H |]. intros [c |]; [apply lands_ret | apply IH].
Qed.

Lemma returns_tryCatch A (m : M W A) (h : JsError -> M W A) :
  lands m -> (forall e, returns (h e)) -> returns (tryCatch m h).
Proof.
  intros Hm Hh s. specialize (Hm s). unfold tryCatch.
  destruct (m s) as [[a | e |] s1]; simpl in *; [eauto | apply Hh | congruence].
Qed.

Lemma forOf_skip A C (skipped rest : list A) (body : A -> M W (option C)) s :
  (forall x, In x skipped -> body x s = (Ok None, s)) ->
  forOf (skipped ++ rest) body s = forOf rest body s.
Proof.
  induction skipped as [| x xs IH]; intros H; simpl; [reflexivity |].
  erewrite bind_ok by (apply H; left; reflexivity).
  apply IH. intros y Hy. apply H. right. exact Hy.
Qed.

End Running.

(* ================================================================== *)
(** ** The vehicle form                                                *)
(* ================================================================== *)

Section VehicleForm.
Context {W : Type} {B : Browser W}.
Variable config : Config.

Lemma lands_act a : lands (W:=W) (act a).
Proof.
  intros s. unfold act. destruct (perform (world s) a) as [[e |] w']; discriminate.
Qed.

Lemma lands_waitForElementVisible selector timeout :
  lands (W:=W) (utils.waitForElementVisible selector timeout).
Proof.
  unfold utils.waitForElementVisible.
  apply lands_tryCatch; [| intros e; apply lands_throw].
  apply lands_bind; [apply lands_act | intros ?; apply lands_gets].
Qed.

Ltac lands_step :=
  match goal with
  | |- lands (bind _ _) => apply lands_bind; [| intros ?]
  | |- lands (ret _) => apply lands_ret
  | |- lands (throw _) => apply lands_throw
  | |- lands (gets _) => apply lands_gets
  | |- lands (modify _) => apply lands_modify
  | |- lands (act _) => apply lands_act
  | |- lands (utils.waitForElementVisible _ _) => apply lands_waitForElementVisible
  | |- lands (logger.logSuccess _) => apply lands_modify
  | |- lands (logger.logWarning _) => apply lands_modify
  | |- lands (logger.logInfo _) => apply lands_modify
  | |- lands (logger.logError _ None) => apply lands_modify
  | |- lands (logger.logError _ (Some _)) => apply lands_modify
  | |- lands (tryCatch _ _) => apply lands_tryCatch; [| intros ?]
  end.

Lemma returns_fillInput selector text : returns (W:=W) (utils.fillInput selector text).
Proof.
  unfold utils.fillInput. apply returns_tryCatch.
  - repeat lands_step.
  - intros e. apply returns_bind; [apply returns_modify | intros ?; apply returns_ret].
Qed.

Lemma returns_selectOption selector value : returns (W:=W) (utils.selectOption selector value).
Proof.
  unfold utils.selectOption. apply returns_tryCatch.
  - repeat lands_step.
  - intros e. apply returns_bind; [apply returns_modify | intros ?; apply returns_ret].
Qed.

Lemma returns_fillVehicleFields : returns (bot.fillVehicleFields config).
Proof.
  unfold bot.fillVehicleFields.
  repeat (apply returns_bind; [first [apply returns_fillInput | apply returns_selectOption] | intros ?]).
  apply returns_ret.
Qed.


End VehicleForm.

(* ================================================================== *)
(** ** A vehicle is registered once                                    *)
(* ================================================================== *)

Section Registration.
Context {W : Type} {B : Browser W}.
Variable config : Config.

Lemma bind_ok_inv A C (m : M W A) (k : A -> M W C) s r s' :
  bind m k s = (Ok r, s') -> exists a s1, m s = (Ok a, s1) /\ k a s1 = (Ok r, s').
Proof.
  unfold bind. destruct (m s) as [[a | e |] s1]; intros H; try discriminate H. eauto.
Qed.

Lemma tryCatch_ok_inv A (m : M W A) (h : JsError -> M W A) s r s' :
  rethrows h -> tryCatch m h s = (Ok r, s') -> m s = (Ok r, s').
Proof.
  intros Hr. unfold tryCatch. destruct (m s) as [[a | e |] s1]; intros H; auto.
  specialize (Hr e s1). rewrite H in Hr. discriminate Hr.
Qed.

Lemma bind_same A C (m : M W A) (k1 k2 : A -> M W C) s :
  (forall a s1, m s = (Ok a, s1) -> k1 a s1 = k2 a s1) -> bind m k1 s = bind m k2 s.
Proof.
  intros H. unfold bind. destruct (m s) as [[a | e |] s1]; auto.
Qed.

Lemma tryCatch_same A (m1 m2 : M W A) (h : JsError -> M W A) s :
  m1 s = m2 s -> tryCatch m1 h s = tryCatch m2 h s.
Proof. intros H. unfold tryCatch. rewrite H. reflexivity. Qed.

Lemma saves_app t u : saves (t ++ u) = (saves t + saves u)%nat.
Proof. unfold saves. rewrite filter_app, length_app. reflexivity. Qed.

Lemma isSaveClick_saveClick v : isSaveClick v = true -> v = saveClick.
Proof.
  destruct v as [a [e |]]; unfold isSaveClick; simpl; destruct a; try discriminate.
  intros H. apply String.eqb_eq in H. subst. reflexivity.
Qed.

Lemma saves_unregistering t : Forall unregistering t -> saves t = 0%nat.
Proof.
  induction 1 as [| v t Hv Ht IH]; [reflexivity |].
  unfold saves in *. simpl. destruct (isSaveClick v) eqn:E; [| exact IH].
  apply isSaveClick_saveClick in E. contradiction.
Qed.

Lemma ordinary_anyEntry : ordinary anyEntry.
Proof. intros e _ _. exact I. Qed.

Lemma unsaved_unregistering : unsaved unregistering.
Proof. intros v H. exact H. Qed.

(** an operation that registers nothing leaves the count and the flag *)
Lemma unregistering_step A (m : M W A) s r s1 :
  m s = (r, s1) -> keeps anyEntry unregistering m ->
  saves (trace s1) = saves (trace s) /\ vehicleAdded s1 = vehicleAdded s.
Proof.
  intros E H. specialize (H s). rewrite E in H. simpl in H.
  destruct H as [_ [[t [Ht Ft]] V]]. split.
  - rewrite Ht, saves_app, (saves_unregistering t Ft). lia.
  - destruct V as [V | [_ V]]; [exact V | exfalso; apply V; reflexivity].
Qed.

Lemma failedAttempt_saves selector evs e : failedAttempt selector evs e -> saves evs = 0%nat.
Proof. destruct 1; reflexivity. Qed.

Lemma clickRun_save_once n evs b :
  clickRun (saveVehicleBtn selectors) n evs (Ok b) -> saves evs = 1%nat.
Proof.
  remember (saveVehicleBtn selectors) as selector eqn:Es.
  remember (Ok b) as r eqn:Er.
  induction 1 as [n | evs e Hf | n evs e rest r Hf Hrun IH].
  - subst selector. reflexivity.
  - discriminate Er.
  - rewrite saves_app, (failedAttempt_saves _ _ _ Hf). simpl.
    change (pause :: rest) with ([pause] ++ rest). rewrite saves_app. simpl. auto.
Qed.

Ltac unregistering_premise :=
  first [ apply ordinary_anyEntry | apply unsaved_unregistering
        | (let r := fresh in intros r; differ) ].

Lemma fillVehicleForm_registers s b s' :
  bot.fillVehicleForm config s = (Ok b, s') ->
  vehicleAdded s' = true /\ saves (trace s') = (saves (trace s) + 1)%nat.
Proof.
  intros H. unfold bot.fillVehicleForm in H.
  apply tryCatch_ok_inv in H; [| apply rethrows_log].
  apply bind_ok_inv in H. destruct H as [[] [s1 [H1 H]]].
  apply bind_ok_inv in H. destruct H as [el [s2 [H2 H]]].
  apply bind_ok_inv in H. destruct H as [[] [s3 [H3 H]]].
  apply bind_ok_inv in H. destruct H as [c [s4 [H4 H]]].
  injection H as _ Hs'. 
  assert (T1 : trace s1 = trace s) by (inversion H1; reflexivity).
  edestruct (unregistering_step _ _ _ _ _ H2) as [S2 _];
    [apply keeps_waitForElementVisible; unregistering_premise |].
  edestruct (unregistering_step _ _ _ _ _ H3) as [S3 _];
    [apply keeps_fillVehicleFields; unregistering_premise |].
  destruct (clickElement_three_attempts (saveVehicleBtn selectors) s3) as [evs [Ht [Hrun _]]].
  rewrite H4 in Ht, Hrun. simpl in Ht, Hrun.
  apply clickRun_save_once in Hrun.
  subst s'. split; [reflexivity |].
  cbn [trace addLog setVehicleAdded setWorld addEvent].
  rewrite saves_app, Ht, saves_app, S3, S2, T1, Hrun.
  change (saves [mkEvent (Delay 2000) None]) with 0%nat. lia.
Qed.

Lemma keeps_click_unregistering el :
  keeps (W:=W) anyEntry unregistering (bot.click el).
Proof. apply keeps_click; unregistering_premise. Qed.

(** with the flag set, vehicle resolution is the selection of an existing
    vehicle *)
Lemma registered_resolution_unfold s :
  vehicleAdded s = true ->
  bot.handleVehicleSelectionForSignedInUser config s =
  tryCatch
    (bot.openVehicleSelector ;;
     bot.selectExistingVehicleOption ;;
     utils.delay 1000 ;;
     logger.logCompletion "Vehicle selection completed for signed-in user" ;;
     ret true)%bot
    (fun error =>
       logger.logError "Failed to handle vehicle selection for signed-in user" (Some error) ;;
       throw error)%bot s.
Proof.
  intros Hv. unfold bot.handleVehicleSelectionForSignedInUser.
  apply tryCatch_same. apply bind_same. intros [] s0 E0.
  edestruct (unregistering_step _ _ _ _ _ E0) as [_ V];
    [apply keeps_openVehicleSelector; unregistering_premise |].
  unfold bind at 1, gets. rewrite V, Hv. reflexivity.
Qed.

Lemma registered_resolution_keeps s :
  vehicleAdded s = true ->
  extends anyEntry unregistering s
    (snd (bot.handleVehicleSelectionForSignedInUser config s)).
Proof.
  intros Hv. rewrite (registered_resolution_unfold s Hv).
  pose proof ordinary_anyEntry. pose proof unsaved_unregistering.
  match goal with |- extends _ _ _ (snd (?m s)) =>
    assert (K : keeps anyEntry unregistering m)
  end.
  { apply keeps_tryCatch; [| intros e; keeps_auto].
    apply keeps_bind; [apply keeps_openVehicleSelector; unregistering_premise | intros ?].
    apply keeps_bind; [apply keeps_selectExistingVehicleOption; unregistering_premise | intros ?].
    keeps_auto. }
  apply K.
Qed.

Lemma first_resolution_registers s s0 el r s' :
  vehicleAdded s = false ->
  bot.openVehicleSelector s = (Ok tt, s0) ->
  head (querySelectorAll (world s0) bot.newVehicleOption) = Some el ->
  bot.handleVehicleSelectionForSignedInUser config s = (Ok r, s') ->
  vehicleAdded s' = true /\ saves (trace s') = (saves (trace s) + 1)%nat.
Proof.
  intros Hv Hopen Hprobe H.
  edestruct (unregistering_step _ _ _ _ _ Hopen) as [S0 V0];
    [apply keeps_openVehicleSelector; unregistering_premise |].
  unfold bot.handleVehicleSelectionForSignedInUser in H.
  apply tryCatch_ok_inv in H; [| apply rethrows_log].
  apply bind_ok_inv in H. destruct H as [a [s1 [H1 H]]].
  rewrite Hopen in H1. injection H1 as <- <-.
  apply bind_ok_inv in H. destruct H as [added [s1 [H1 H]]].
  unfold gets in H1. injection H1 as <- <-.
  rewrite V0, Hv in H. cbn [negb] in H.
  apply bind_ok_inv in H. destruct H as [u [s2 [Hinner H]]].
  injection H as _ Hs'.
  apply bind_ok_inv in Hinner. destruct Hinner as [[] [sa [Ha Hinner]]].
  injection Ha as Ha.
  apply bind_ok_inv in Hinner. destruct Hinner as [q [sb [Hq Hinner]]].
  unfold page_query, gets in Hq. injection Hq as Hq <-.
  subst sa. cbn [world addLog] in Hq. rewrite Hprobe in Hq. subst q.
  apply bind_ok_inv in Hinner. destruct Hinner as [[] [sc [Hc Hinner]]].
  apply bind_ok_inv in Hinner. destruct Hinner as [[] [sd [Hd Hinner]]].
  apply bind_ok_inv in Hinner. destruct Hinner as [b [se [He Hinner]]].
  injection Hinner as _ <-.
  edestruct (unregistering_step _ _ _ _ _ Hc) as [Sc _];
    [apply keeps_click_unregistering |].
  injection Hd as Hd.
  destruct (fillVehicleForm_registers _ _ _ He) as [Ve Se].
  subst s' sd. split; [exact Ve |].
  cbn [trace addLog setWorld addEvent] in *.
  rewrite saves_app, Se, saves_app, Sc.
  change (saves [mkEvent (Delay 1000) None]) with 0%nat. lia.
Qed.


End Registration.

(* ================================================================== *)
(** ** The wait for the one-time code                                  *)
(* ================================================================== *)

Section OtpWait.
Context {W : Type} {B : Browser W}.

Local Open Scope Z_scope.

Lemma otpWaitLoop_step maxWait interval fuel waitedTime :
  bot.otpWaitLoop (W:=W) maxWait interval (S fuel) waitedTime =
  if waitedTime <? maxWait then
    (stillVisible <- gets (fun s => bot.otpStillVisible (world s)) ;;
     if negb stillVisible then
       logger.logSuccess "✅ OTP verification appears to be completed" ;;
       ret waitedTime
     else
       utils.delay interval ;;
       (if Z.rem (waitedTime + interval) 10000 =? 0 then
          logger.logInfo ("⏳ Still waiting for OTP verification... ("
                          ++ ofZ ((waitedTime + interval) / 1000) ++ "s)")%string
        else ret tt) ;;
       bot.otpWaitLoop maxWait interval fuel (waitedTime + interval))%bot
  else ret waitedTime.
Proof. reflexivity. Qed.

Lemma pollWorld_next interval k (w : W) :
  pollWorld interval k (elapse w interval) = pollWorld interval (S k) w.
Proof. unfold pollWorld. rewrite Nat.iter_succ_r. reflexivity. Qed.

(** the state in which the loop goes round again *)
Let afterPoll (interval waitedTime : Z) (s : State W) : State W :=
  snd ((utils.delay interval ;;
        (if Z.rem (waitedTime + interval) 10000 =? 0 then
           logger.logInfo ("⏳ Still waiting for OTP verification... ("
                           ++ ofZ ((waitedTime + interval) / 1000) ++ "s)")%string
         else ret tt))%bot s).

Lemma afterPoll_facts interval waitedTime s :
  world (afterPoll interval waitedTime s) = elapse (world s) interval /\
  trace (afterPoll interval waitedTime s) = trace s ++ [pollDelay interval] /\
  exists p, log (afterPoll interval waitedTime s) = log s ++ p /\ ~ In otpCompleted p.
Proof.
  unfold afterPoll, bind, utils.delay, logger.logInfo, logger.write, modify, ret. simpl.
  destruct (Z.rem (waitedTime + interval) 10000 =? 0); simpl.
  - repeat split. eexists. split; [reflexivity |].
    intros [H | []]. discriminate H.
  - repeat split. exists []. rewrite app_nil_r. auto.
Qed.

Lemma otpWaitLoop_run maxWait interval :
  0 < interval ->
  forall fuel waitedTime (s : State W),
    maxWait - waitedTime <= Z.of_nat fuel * interval ->
    exists k : nat,
      let run := bot.otpWaitLoop maxWait interval (S fuel) waitedTime s in
      fst run = Ok (waitedTime + Z.of_nat k * interval) /\
      world (snd run) = pollWorld interval k (world s) /\
      trace (snd run) = trace s ++ repeat (pollDelay interval) k /\
      (forall j, (j < k)%nat ->
         bot.otpStillVisible (pollWorld interval j (world s)) = true /\
         waitedTime + Z.of_nat j * interval < maxWait) /\
      ((waitedTime + Z.of_nat k * interval < maxWait /\
        bot.otpStillVisible (pollWorld interval k (world s)) = false /\
        exists l, log (snd run) = log s ++ l ++ [otpCompleted])
       \/
       (maxWait <= waitedTime + Z.of_nat k * interval /\
        exists l, log (snd run) = log s ++ l /\ ~ In otpCompleted l)).
Proof.
  intros Hi. induction fuel as [| fuel IH]; intros waitedTime s Hfuel.
  - exists 0%nat. rewrite otpWaitLoop_step.
    assert (E : (waitedTime <? maxWait) = false) by (apply Z.ltb_ge; lia).
    rewrite E. simpl. repeat split; try (rewrite ?app_nil_r; auto; fail).
    + rewrite Z.add_0_r. reflexivity.
    + lia.
    + lia.
    + right. split; [lia |]. exists []. rewrite app_nil_r. auto.
  - rewrite otpWaitLoop_step.
    destruct (waitedTime <? maxWait) eqn:E.
    + apply Z.ltb_lt in E. unfold bind at 1, gets.
      destruct (bot.otpStillVisible (world s)) eqn:Ev; cbn [negb].
      * (* still pending: delay and go round *)
        destruct (afterPoll_facts interval waitedTime s) as [Hw [Ht [p [Hl Hp]]]].
        destruct (IH (waitedTime + interval) (afterPoll interval waitedTime s))
          as [k [Hr [Hw' [Ht' [Hj Hc]]]]]; [lia |].
        exists (S k).
        assert (Erun :
          (utils.delay interval ;;
             (if Z.rem (waitedTime + interval) 10000 =? 0 then
                logger.logInfo ("⏳ Still waiting for OTP verification... ("
                                ++ ofZ ((waitedTime + interval) / 1000) ++ "s)")%string
              else ret tt) ;;
             bot.otpWaitLoop maxWait interval (S fuel) (waitedTime + interval))%bot s
          = bot.otpWaitLoop maxWait interval (S fuel) (waitedTime + interval)
              (afterPoll interval waitedTime s)).
        { unfold afterPoll, bind, utils.delay, logger.logInfo, logger.write, modify, ret. simpl.
          destruct (Z.rem (waitedTime + interval) 10000 =? 0); reflexivity. }
        cbv zeta in *. rewrite Erun.
        repeat split.
        -- rewrite Hr. f_equal. lia.
        -- rewrite Hw', Hw. apply pollWorld_next.
        -- rewrite Ht', Ht, <- app_assoc. reflexivity.
        -- destruct j as [| j]; [exact Ev |].
           rewrite <- pollWorld_next, <- Hw. apply Hj. lia.
        -- destruct j as [| j]; [lia |].
           assert (Hj' : (j < k)%nat) by lia. apply Hj in Hj'. lia.
        -- destruct Hc as [[Hlt [Hv [l Hlog]]] | [Hge [l [Hlog Hn]]]].
           ++ left. repeat split; [lia | rewrite <- pollWorld_next, <- Hw; exact Hv |].
              exists (p ++ l). rewrite Hlog, Hl, <- !app_assoc. reflexivity.
           ++ right. split; [lia |]. exists (p ++ l). rewrite Hlog, Hl, <- app_assoc.
              split; [reflexivity |]. intros Hin. apply in_app_or in Hin. tauto.
      * (* cleared *)
        exists 0%nat. simpl. repeat split.
        -- rewrite Z.add_0_r. reflexivity.
        -- rewrite app_nil_r. reflexivity.
        -- lia.
        -- lia.
        -- left. repeat split; [lia | exact Ev |]. exists []. reflexivity.
    + apply Z.ltb_ge in E. exists 0%nat. simpl. repeat split.
      * rewrite Z.add_0_r. reflexivity.
      * rewrite app_nil_r. reflexivity.
      * lia.
      * lia.
      * right. split; [lia |]. exists []. rewrite app_nil_r. auto.
Qed.

Variable config : Config.

(** the wait loop as [handleOTPVerification] runs it *)
Lemma awaitOtpEntry_run (s : State W) :
  exists k : nat,
    fst (bot.awaitOtpEntry s) = Ok (bot.checkInterval * Z.of_nat k) /\
    trace (snd (bot.awaitOtpEntry s))
      = trace s ++ repeat (pollDelay bot.checkInterval) k /\
    (forall j, (j < k)%nat ->
       bot.otpStillVisible (pollWorld bot.checkInterval j (world s)) = true) /\
    ((bot.otpStillVisible (pollWorld bot.checkInterval k (world s)) = false /\
      bot.checkInterval * Z.of_nat k < bot.maxWaitTime /\
      exists l, log (snd (bot.awaitOtpEntry s)) = log s ++ l ++ [otpCompleted])
     \/
     (k = 150%nat /\
      exists l,
        log (snd (bot.awaitOtpEntry s)) = log s ++ l ++ [otpTimedOut; otpTimeoutHint] /\
        ~ In otpCompleted l)).
Proof.
  destruct (otpWaitLoop_run bot.maxWaitTime bot.checkInterval ltac:(reflexivity)
              150%nat 0 s ltac:(unfold bot.maxWaitTime, bot.checkInterval; lia))
    as [k [Hr [Hw [Ht [Hj Hc]]]]].
  cbv zeta in *. exists k.
  unfold bot.awaitOtpEntry, bot.otpFuel, bind.
  destruct (bot.otpWaitLoop bot.maxWaitTime bot.checkInterval 151 0 s) as [r s1].
  simpl in Hr, Hw, Ht, Hc. subst r.
  unfold bot.maxWaitTime, bot.checkInterval in *.
  destruct Hc as [[Hlt [Hv [l Hl]]] | [Hge [l [Hl Hn]]]].
  - assert (E : (300000 <=? Z.of_nat k * 2000) = false) by (apply Z.leb_gt; lia).
    rewrite E. cbv [ret logger.logWarning logger.logInfo logger.write modify].
    cbn [fst snd log trace addLog]. repeat split.
    + f_equal. lia.
    + exact Ht.
    + intros j Hlt'. apply Hj. exact Hlt'.
    + left. repeat split; [exact Hv | lia | exists l; exact Hl].
  - assert (E : (300000 <=? Z.of_nat k * 2000) = true) by (apply Z.leb_le; lia).
    rewrite E. cbv [ret logger.logWarning logger.logInfo logger.write modify].
    cbn [fst snd log trace addLog].
    assert (Hk : k = 150%nat).
    { destruct (Nat.le_gt_cases k 150) as [Hle | Hgt]; [lia |].
      destruct (Hj 150%nat Hgt) as [_ Hlt]. lia. }
    repeat split.
    + f_equal. lia.
    + exact Ht.
    + intros j Hlt'. apply Hj. exact Hlt'.
    + right. split; [exact Hk |]. exists l. rewrite Hl, <- !app_assoc. auto.
Qed.

(** C1 -- The wait for the one-time code polls [otpStillVisible] every
    [checkInterval].  Whatever the page does, it makes some number [k] of
    polls that each find the condition still pending and are each followed
    by a delay of [checkInterval]; then either the next poll finds the
    condition cleared before the ceiling is reached, and the wait stops
    there and reports completion, or the accumulated wait has reached
    [maxWaitTime] and the wait stops and reports the timeout.  The
    accumulated wait is [checkInterval * k] and never exceeds
    [maxWaitTime + checkInterval]; the interval is 2 seconds and the
    ceiling 5 minutes. *)
Theorem otp_wait_is_bounded (s : State W) :
  exists k : nat,
    fst (bot.awaitOtpEntry s) = Ok (bot.checkInterval * Z.of_nat k) /\
    trace (snd (bot.awaitOtpEntry s))
      = trace s ++ repeat (pollDelay bot.checkInterval) k /\
    (forall j, (j < k)%nat ->
       bot.otpStillVisible (pollWorld bot.checkInterval j (world s)) = true) /\
    ((bot.otpStillVisible (pollWorld bot.checkInterval k (world s)) = false /\
      bot.checkInterval * Z.of_nat k < bot.maxWaitTime /\
      exists l, log (snd (bot.awaitOtpEntry s)) = log s ++ l ++ [otpCompleted])
     \/
     (bot.maxWaitTime <= bot.checkInterval * Z.of_nat k /\
      exists l,
        log (snd (bot.awaitOtpEntry s)) = log s ++ l ++ [otpTimedOut; otpTimeoutHint] /\
        ~ In otpCompleted l)) /\
    bot.checkInterval * Z.of_nat k <= bot.maxWaitTime + bot.checkInterval /\
    bot.checkInterval = 2 * 1000 /\
    bot.maxWaitTime = 5 * 60 * 1000.
Proof.
  destruct (awaitOtpEntry_run s) as [k [Hr [Ht [Hj Hc]]]].
  exists k. split; [exact Hr |]. split; [exact Ht |]. split; [exact Hj |].
  unfold bot.maxWaitTime, bot.checkInterval in *.
  destruct Hc as [[Hv [Hlt Hl]] | [Hk Hl]].
  - split; [left; auto |]. repeat split; lia.
  - subst k. split; [right; split; [lia | exact Hl] |]. repeat split; lia.
Qed.


End OtpWait.

(* ================================================================== *)
(** ** Choosing among the elements of the page                         *)
(* ================================================================== *)

Section Choosing.
Context {W : Type} {B : Browser W}.
Variable config : Config.

Lemma act_ok a (s : State W) w' :
  perform (world s) a = (None, w') ->
  act a s = (Ok tt, setWorld w' (addEvent (mkEvent a None) s)).
Proof. intros H. unfold act. rewrite H. reflexivity. Qed.

Lemma forOf_none A C (xs : list A) (body : A -> M W (option C)) s :
  (forall x, In x xs -> body x s = (Ok None, s)) ->
  forOf xs body s = (Ok None, s).
Proof.
  induction xs as [| x xs IH]; intros H; simpl; [reflexivity |].
  erewrite bind_ok by (apply H; left; reflexivity).
  apply IH. intros y Hy. apply H. right. exact Hy.
Qed.


Lemma pickVehicle_clicks (s : State W) v w' msg :
  perform (world s) (ElementClick v 1) = (None, w') ->
  (bot.click v ;; logger.logSuccess msg)%bot s
    = (Ok tt, addLog (mkLog Info ("✅ " ++ msg)%string)
                (setWorld w' (addEvent (clicked v) s))).
Proof.
  intros H. unfold bot.click. erewrite bind_ok by (apply act_ok; exact H). reflexivity.
Qed.

Lemma dropdown_clicks (s : State W) v w' what how :
  perform (elapse (world s) 500) (ElementClick v 1) = (None, w') ->
  fst (bot.clickVehicleOrFallback config v what how s) = Ok tt /\
  trace (snd (bot.clickVehicleOrFallback config v what how s))
    = trace s ++ [mkEvent (Delay 500) None; clicked v].
Proof.
  intros H.
  assert (E : exists s', bot.clickVehicleOrFallback config v what how s = (Ok tt, s') /\
                         trace s' = trace s ++ [mkEvent (Delay 500) None; clicked v]).
  { unfold bot.clickVehicleOrFallback. eexists. split.
    - apply tryCatch_ok.
      erewrite bind_ok by reflexivity.
      unfold bot.click. erewrite bind_ok by (apply act_ok; exact H). reflexivity.
    - cbn [trace log setWorld addEvent addLog]. rewrite <- !app_assoc. reflexivity. }
  destruct E as [s' [E Ht]]. rewrite E. auto.
Qed.


End Choosing.

(* ================================================================== *)
(** ** The date picker                                                 *)
(* ================================================================== *)

Section DatePicker.
Context {W : Type} {B : Browser W}.
Variable config : Config.

Lemma logged_addLog e (s : State W) : logged s (addLog e s).
Proof. repeat split. exists [e]. reflexivity. Qed.

Lemma logged_refl (s : State W) : logged s s.
Proof. repeat split. exists []. rewrite app_nil_r. reflexivity. Qed.

Lemma logged_trans (a b c : State W) : logged a b -> logged b c -> logged a c.
Proof.
  intros [W1 [T1 [l1 L1]]] [W2 [T2 [l2 L2]]]. repeat split; try congruence.
  exists (l1 ++ l2). rewrite L2, L1, app_assoc. reflexivity.
Qed.

Lemma resolvePreferredDay_run (s : State W) :
  exists e, bot.resolvePreferredDay config s = (Ok (preferredDay config), addLog e s).
Proof.
  unfold bot.resolvePreferredDay, preferredDay.
  destruct (testMonthDay (preferredDate config)); [eexists; reflexivity |].
  destruct (testDay (preferredDate config)); eexists; reflexivity.
Qed.

Lemma collectDateButtons_run (s : State W) b rest :
  querySelectorAll (world s) dateButtonSelector = b :: rest ->
  exists e, bot.collectDateButtons s = (Ok (b :: rest), addLog e s).
Proof.
  intros H. unfold bot.collectDateButtons.
  erewrite bind_ok by reflexivity.
  change "#scheduler_12196 .dateMain button.date" with dateButtonSelector.
  rewrite H. cbn [length Nat.eqb].
  erewrite bind_ok by reflexivity. erewrite bind_ok by reflexivity.
  eexists. reflexivity.
Qed.

(** the scan of the buttons: those that do not bear the day are passed *)
Lemma scan_passes day rest skipped (s : State W) :
  Forall (fun x => bot.buttonText x <> day) skipped ->
  exists s1,
    logged s s1 /\
    forOf (skipped ++ rest) (bot.clickIfPreferred config day) s
    = forOf rest (bot.clickIfPreferred config day) s1.
Proof.
  intros H. revert s. induction H as [| x xs Hx Hxs IH]; intros s.
  - exists s. split; [apply logged_refl | reflexivity].
  - cbn [app forOf].
    erewrite bind_ok.
    2:{ unfold bot.clickIfPreferred. erewrite bind_ok by reflexivity.
        apply String.eqb_neq in Hx. rewrite Hx. reflexivity. }
    cbv beta iota.
    match goal with |- context [forOf _ _ ?st] => destruct (IH st) as [s1 [L E]] end.
    exists s1. split; [| exact E].
    eapply logged_trans; [apply logged_addLog | exact L].
Qed.

Lemma scan_clicks day b rest (s : State W) page' :
  bot.buttonText b = day ->
  perform (world s) (ElementClick b 1) = (None, page') ->
  exists s1,
    forOf (b :: rest) (bot.clickIfPreferred config day) s = (Ok (Some tt), s1) /\
    world s1 = page' /\ trace s1 = trace s ++ [clicked b] /\
    exists l, log s1 = log s ++ l.
Proof.
  intros Hb Hclick. cbn [forOf]. eexists. split.
  - erewrite bind_ok.
    2:{ unfold bot.clickIfPreferred. erewrite bind_ok by reflexivity.
        apply String.eqb_eq in Hb. rewrite Hb.
        erewrite bind_ok by reflexivity.
        unfold bot.click. erewrite bind_ok by (apply act_ok; exact Hclick).
        erewrite bind_ok by reflexivity. reflexivity. }
    reflexivity.
  - cbn [world trace log setWorld addEvent addLog]. repeat split.
    eexists. rewrite <- !app_assoc. reflexivity.
Qed.

Lemma active_yes day (s : State W) a :
  head (querySelectorAll (world s) activeDateSelector) = Some a ->
  bot.buttonText a = day ->
  exists s1, bot.preferredDayIsActive day s = (Ok true, s1) /\ logged s s1.
Proof.
  intros Ha Hm. unfold bot.preferredDayIsActive.
  erewrite bind_ok by reflexivity.
  change "#scheduler_12196 .dateMain button.date.active" with activeDateSelector.
  rewrite Ha. cbv zeta. apply String.eqb_eq in Hm.
  erewrite bind_ok by reflexivity. rewrite Hm. erewrite bind_ok by reflexivity.
  eexists. split; [reflexivity |].
  repeat split. eexists. cbn [log addLog]. rewrite <- !app_assoc. reflexivity.
Qed.

Lemma active_no day (s : State W) :
  (forall a, head (querySelectorAll (world s) activeDateSelector) = Some a ->
             bot.buttonText a <> day) ->
  exists s1, bot.preferredDayIsActive day s = (Ok false, s1) /\ logged s s1.
Proof.
  intros Hno. unfold bot.preferredDayIsActive.
  erewrite bind_ok by reflexivity.
  change "#scheduler_12196 .dateMain button.date.active" with activeDateSelector.
  destruct (head (querySelectorAll (world s) activeDateSelector)) as [a |] eqn:Ea.
  - specialize (Hno a eq_refl). apply String.eqb_neq in Hno. cbv zeta.
    erewrite bind_ok by reflexivity. rewrite Hno. erewrite bind_ok by reflexivity.
    eexists. split; [reflexivity |].
    repeat split. eexists. cbn [log addLog]. rewrite <- !app_assoc. reflexivity.
  - eexists. split; [reflexivity | apply logged_refl].
Qed.

Lemma selectPreferredDay_active day buttons (s : State W) a :
  truthy day = true ->
  head (querySelectorAll (world s) activeDateSelector) = Some a ->
  bot.buttonText a = day ->
  exists s1, bot.selectPreferredDay config day buttons s = (Ok true, s1) /\ logged s s1.
Proof.
  intros Hd Ha Hm. unfold bot.selectPreferredDay. rewrite Hd.
  erewrite bind_ok by reflexivity.
  match goal with |- context [bind (bot.preferredDayIsActive day) _ ?st] =>
    destruct (active_yes day st a Ha Hm) as [s1 [E L]]
  end.
  erewrite bind_ok by exact E. cbn [negb].
  exists s1. split; [reflexivity |].
  eapply logged_trans; [apply logged_addLog | exact L].
Qed.

Lemma selectPreferredDay_clicks day skipped b rest (s : State W) page' :
  truthy day = true ->
  (forall a, head (querySelectorAll (world s) activeDateSelector) = Some a ->
             bot.buttonText a <> day) ->
  Forall (fun x => bot.buttonText x <> day) skipped ->
  bot.buttonText b = day ->
  perform (world s) (ElementClick b 1) = (None, page') ->
  exists s1,
    bot.selectPreferredDay config day (skipped ++ b :: rest) s = (Ok true, s1) /\
    world s1 = page' /\ trace s1 = trace s ++ [clicked b] /\
    exists l, log s1 = log s ++ l.
Proof.
  intros Hd Hno Hskip Hb Hclick. unfold bot.selectPreferredDay. rewrite Hd.
  erewrite bind_ok by reflexivity.
  match goal with |- context [bind (bot.preferredDayIsActive day) _ ?st] =>
    destruct (active_no day st Hno) as [s1 [E1 L1]]
  end.
  erewrite bind_ok by exact E1. cbn [negb].
  erewrite bind_ok by reflexivity.
  match goal with |- context [bind (forOf _ _) _ ?st] =>
    destruct (scan_passes day (b :: rest) skipped st Hskip) as [s2 [L2 E2]]
  end.
  assert (L : logged s s2).
  { eapply logged_trans; [apply logged_addLog |].
    eapply logged_trans; [exact L1 |].
    eapply logged_trans; [apply logged_addLog | exact L2]. }
  destruct L as [Lw [Lt [l Ll]]].
  destruct (scan_clicks day b rest s2 page' Hb) as [s3 [E3 [W3 [T3 [l3 L3]]]]];
    [rewrite Lw; exact Hclick |].
  exists s3. split.
  - erewrite bind_ok by (rewrite E2; exact E3). reflexivity.
  - repeat split; [exact W3 | rewrite T3, Lt; reflexivity |].
    exists (l ++ l3). rewrite L3, Ll, app_assoc. reflexivity.
Qed.

Lemma scan_finds_none day buttons (s : State W) :
  Forall (fun x => bot.buttonText x <> day) buttons ->
  exists s1, forOf buttons (bot.clickIfPreferred config day) s = (Ok None, s1) /\ logged s s1.
Proof.
  intros H. destruct (scan_passes day [] buttons s H) as [s1 [L E]].
  rewrite app_nil_r in E. exists s1. split; [rewrite E; reflexivity | exact L].
Qed.

Lemma selectPreferredDay_none day buttons (s : State W) :
  (truthy day = true ->
   (forall a, head (querySelectorAll (world s) activeDateSelector) = Some a ->
              bot.buttonText a <> day) /\
   Forall (fun x => bot.buttonText x <> day) buttons) ->
  exists s1, bot.selectPreferredDay config day buttons s = (Ok false, s1) /\ logged s s1.
Proof.
  intros H. unfold bot.selectPreferredDay.
  destruct (truthy day); [| exists s; split; [reflexivity | apply logged_refl]].
  destruct (H eq_refl) as [Hno Hall].
  erewrite bind_ok by reflexivity.
  match goal with |- context [bind (bot.preferredDayIsActive day) _ ?st] =>
    destruct (active_no day st Hno) as [s1 [E1 L1]]
  end.
  erewrite bind_ok by exact E1. cbn [negb].
  erewrite bind_ok by reflexivity.
  match goal with |- context [bind (forOf _ _) _ ?st] =>
    destruct (scan_finds_none day buttons st Hall) as [s2 [E2 L2]]
  end.
  erewrite bind_ok by exact E2.
  exists s2. split; [reflexivity |].
  eapply logged_trans; [apply logged_addLog |].
  eapply logged_trans; [exact L1 |].
  eapply logged_trans; [apply logged_addLog | exact L2].
Qed.

(** the steps of [selectPreferredDate] before the search *)
Lemma selectPreferredDate_start (s : State W) b rest :
  querySelectorAll (world s) dateButtonSelector = b :: rest ->
  exists s1,
    logged s s1 /\
    bot.selectPreferredDate config s =
    (dateSelected <- bot.selectPreferredDay config (preferredDay config) (b :: rest) ;;
     (if negb dateSelected then
        logger.logWarning ("Preferred date " ++ preferredDate config
                           ++ " not available in scheduler, selecting first available")%string
      else ret tt) ;;
     ret dateSelected)%bot s1.
Proof.
  intros H. unfold bot.selectPreferredDate.
  destruct (resolvePreferredDay_run s) as [e1 E1].
  erewrite bind_ok by exact E1.
  destruct (collectDateButtons_run (addLog e1 s) b rest H) as [e2 E2].
  erewrite bind_ok by exact E2.
  eexists. split; [| reflexivity].
  eapply logged_trans; apply logged_addLog.
Qed.

Lemma selectPreferredDate_active (s : State W) b rest a :
  querySelectorAll (world s) dateButtonSelector = b :: rest ->
  truthy (preferredDay config) = true ->
  head (querySelectorAll (world s) activeDateSelector) = Some a ->
  bot.buttonText a = preferredDay config ->
  exists s1, bot.selectPreferredDate config s = (Ok true, s1) /\ logged s s1.
Proof.
  intros Hb Hd Ha Hm.
  destruct (selectPreferredDate_start s b rest Hb) as [s1 [L1 E1]]. rewrite E1.
  destruct L1 as [W1 [T1 [l1 L1]]].
  destruct (selectPreferredDay_active (preferredDay config) (b :: rest) s1 a Hd)
    as [s2 [E2 [W2 [T2 [l2 L2]]]]]; [rewrite W1; exact Ha | exact Hm |].
  erewrite bind_ok by exact E2. cbn [negb].
  exists s2. split; [reflexivity |].
  repeat split; try congruence. exists (l1 ++ l2). rewrite L2, L1, app_assoc. reflexivity.
Qed.

Lemma selectPreferredDate_clicks (s : State W) skipped b rest page' :
  querySelectorAll (world s) dateButtonSelector = skipped ++ b :: rest ->
  truthy (preferredDay config) = true ->
  (forall a, head (querySelectorAll (world s) activeDateSelector) = Some a ->
             bot.buttonText a <> preferredDay config) ->
  Forall (fun x => bot.buttonText x <> preferredDay config) skipped ->
  bot.buttonText b = preferredDay config ->
  perform (world s) (ElementClick b 1) = (None, page') ->
  exists s1,
    bot.selectPreferredDate config s = (Ok true, s1) /\
    world s1 = page' /\ trace s1 = trace s ++ [clicked b].
Proof.
  intros Hq Hd Hno Hskip Hb Hclick.
  assert (Hq' : exists b0 r0, skipped ++ b :: rest = b0 :: r0)
    by (destruct skipped; simpl; eauto).
  destruct Hq' as [b0 [r0 Hq']].
  destruct (selectPreferredDate_start s b0 r0) as [s1 [L1 E1]]; [congruence |].
  rewrite E1, <- Hq'. destruct L1 as [W1 [T1 [l1 L1]]].
  destruct (selectPreferredDay_clicks (preferredDay config) skipped b rest s1 page' Hd)
    as [s2 [E2 [W2 [T2 _]]]]; try assumption; try (rewrite W1; assumption).
  erewrite bind_ok by exact E2. cbn [negb].
  exists s2. split; [reflexivity |]. split; [exact W2 | congruence].
Qed.

Lemma selectPreferredDate_none (s : State W) b rest :
  querySelectorAll (world s) dateButtonSelector = b :: rest ->
  (truthy (preferredDay config) = true ->
   (forall a, head (querySelectorAll (world s) activeDateSelector) = Some a ->
              bot.buttonText a <> preferredDay config) /\
   Forall (fun x => bot.buttonText x <> preferredDay config) (b :: rest)) ->
  exists s1,
    bot.selectPreferredDate config s = (Ok false, s1) /\ logged s s1 /\
    In (dateUnavailable config) (log s1).
Proof.
  intros Hq Hnone.
  destruct (selectPreferredDate_start s b rest Hq) as [s1 [L1 E1]]. rewrite E1.
  destruct L1 as [W1 [T1 [l1 L1]]].
  destruct (selectPreferredDay_none (preferredDay config) (b :: rest) s1)
    as [s2 [E2 [W2 [T2 [l2 L2]]]]]; [rewrite W1; exact Hnone |].
  erewrite bind_ok by exact E2. cbn [negb].
  eexists. split; [reflexivity |]. split.
  - repeat split; cbn [world trace log addLog]; try congruence.
    eexists. rewrite L2, L1, <- !app_assoc. reflexivity.
  - cbn [log addLog]. apply in_or_app. right. left. reflexivity.
Qed.

Lemma selectFirstAvailableDate_clicks (s : State W) first rest page' dateSelected :
  querySelectorAll (world s) dateButtonSelector = first :: rest ->
  perform (world s) (ElementClick first 1) = (None, page') ->
  exists s1,
    bot.selectFirstAvailableDate dateSelected s = (Ok true, s1) /\
    world s1 = page' /\ trace s1 = trace s ++ [clicked first] /\
    log s1 = log s ++
      [mkLog Info "ℹ️ No preferred date set or preferred date not found, selecting first available date from scheduler";
       mkLog Info ("✅ Selected available date from scheduler: " ++ bot.buttonText first)%string].
Proof.
  intros Hq Hclick. unfold bot.selectFirstAvailableDate.
  erewrite bind_ok by reflexivity. erewrite bind_ok by reflexivity.
  cbn [world addLog]. change "#scheduler_12196 .dateMain button.date" with dateButtonSelector.
  rewrite Hq. cbn [hd_error]. erewrite bind_ok by reflexivity.
  unfold bot.click. erewrite bind_ok by (apply act_ok; exact Hclick).
  erewrite bind_ok by reflexivity.
  eexists. split; [reflexivity |].
  cbn [world trace log setWorld addEvent addLog]. rewrite <- !app_assoc. auto.
Qed.

(** the stage up to the choice of the date, its container being visible *)
Lemma picker_opens (s : State W) w1 :
  perform (world s) (WaitForSelector dateMainSelector true false utils.defaultTimeout)
    = (None, w1) ->
  exists s1,
    world s1 = elapse w1 1000 /\
    trace s1 = trace s ++ [waitEvent dateMainSelector None; mkEvent (Delay 1000) None] /\
    (exists l, log s1 = log s ++ l /\ Forall (fun e => level e = Info) l) /\
    bot.selectDateFromNewPicker config s =
    tryCatch (bot.chooseDate config)
      (fun error =>
         logger.logError "Failed to select date from new picker" (Some error) ;;
         throw error)%bot s1.
Proof.
  intros Hwait. unfold bot.selectDateFromNewPicker.
  eexists. split; [| split; [| split]].
  4:{ unfold tryCatch at 1.
      erewrite bind_ok by reflexivity.
      erewrite bind_ok.
      2:{ unfold utils.waitForElementVisible. apply tryCatch_ok.
          erewrite bind_ok by (apply act_ok; exact Hwait). reflexivity. }
      erewrite bind_ok by reflexivity.
      erewrite bind_ok by reflexivity.
      reflexivity. }
  - reflexivity.
  - cbn [world trace log setWorld addEvent addLog]. rewrite <- !app_assoc. reflexivity.
  - eexists. cbn [world trace log setWorld addEvent addLog]. rewrite <- !app_assoc.
    split; [reflexivity |]. repeat constructor.
Qed.

(** the end of [chooseDate] once a date is selected *)
Lemma chooseDate_selected (s1 s2 : State W) :
  (if truthy (preferredDate config) then bot.selectPreferredDate config else ret false) s1
    = (Ok true, s2) ->
  truthy (preferredDate config) = true ->
  exists s',
    bot.chooseDate config s1 = (Ok true, s') /\
    trace s' = trace s2 ++ [mkEvent (Delay (delayBetweenActions config)) None] /\
    log s' = log s2 ++ [mkLog Info "✅ Completed: Date selected from new picker"].
Proof.
  intros E Hpd. unfold bot.chooseDate.
  erewrite bind_ok by exact E. rewrite Hpd. cbn [negb orb].
  erewrite bind_ok by reflexivity.
  erewrite bind_ok by reflexivity.
  erewrite bind_ok by reflexivity.
  erewrite bind_ok by reflexivity.
  eexists. split; [reflexivity |]. split; reflexivity.
Qed.

(** the end of [chooseDate] when the first date is fallen back on *)
Lemma chooseDate_falls_back (s1 s2 : State W) first rest page' :
  (if truthy (preferredDate config) then bot.selectPreferredDate config else ret false) s1
    = (Ok false, s2) ->
  querySelectorAll (world s2) dateButtonSelector = first :: rest ->
  perform (world s2) (ElementClick first 1) = (None, page') ->
  exists s',
    bot.chooseDate config s1 = (Ok true, s') /\
    trace s' = trace s2 ++ [clicked first; mkEvent (Delay (delayBetweenActions config)) None] /\
    log s' = log s2 ++
      [mkLog Info "ℹ️ No preferred date set or preferred date not found, selecting first available date from scheduler";
       mkLog Info ("✅ Selected available date from scheduler: " ++ bot.buttonText first)%string;
       mkLog Info "✅ Completed: Date selected from new picker"].
Proof.
  intros E Hq Hclick. unfold bot.chooseDate.
  erewrite bind_ok by exact E. cbn [negb]. rewrite orb_true_r.
  destruct (selectFirstAvailableDate_clicks s2 first rest page' false Hq Hclick)
    as [s3 [E3 [W3 [T3 L3]]]].
  erewrite bind_ok by exact E3. cbn [negb].
  erewrite bind_ok by reflexivity.
  erewrite bind_ok by reflexivity.
  erewrite bind_ok by reflexivity.
  eexists. split; [reflexivity |].
  cbn [world trace log setWorld addEvent addLog]. rewrite T3, L3, <- !app_assoc. auto.
Qed.

(* -- a picker that shows no date -- *)

Lemma debugScreenshot_run name (s : State W) :
  exists s', bot.debugScreenshot name s = (Ok tt, s') /\ exists l, log s' = log s ++ l.
Proof.
  unfold bot.debugScreenshot, tryCatch.
  erewrite bind_ok by reflexivity.
  unfold bind, act.
  destruct (perform (world s) _) as [[e |] w'].
  - eexists. split; [reflexivity |]. eexists. reflexivity.
  - eexists. split; [reflexivity |]. eexists. reflexivity.
Qed.

Lemma active_any day (s : State W) :
  exists b s1, bot.preferredDayIsActive day s = (Ok b, s1) /\ logged s s1.
Proof.
  destruct (head (querySelectorAll (world s) activeDateSelector)) as [a |] eqn:Ea.
  - destruct (String.eqb_spec (bot.buttonText a) day) as [Heq | Hne].
    + destruct (active_yes day s a Ea Heq) as [s1 [E L]]. eauto.
    + destruct (active_no day s) as [s1 [E L]]; [| eauto].
      intros a' Ha'. rewrite Ea in Ha'. injection Ha' as <-. exact Hne.
  - destruct (active_no day s) as [s1 [E L]]; [| eauto].
    intros a' Ha'. rewrite Ea in Ha'. discriminate Ha'.
Qed.

Lemma selectPreferredDay_empty day (s : State W) :
  exists b s1, bot.selectPreferredDay config day [] s = (Ok b, s1) /\
               exists l, log s1 = log s ++ l.
Proof.
  unfold bot.selectPreferredDay.
  destruct (truthy day).
  - erewrite bind_ok by reflexivity.
    match goal with |- context [bind (bot.preferredDayIsActive day) _ ?st] =>
      destruct (active_any day st) as [b [s1 [E [_ [_ [l L]]]]]]
    end.
    erewrite bind_ok by exact E.
    destruct b; cbn [negb].
    + exists true, s1. split; [reflexivity |]. eexists. rewrite L. cbn [log addLog].
      rewrite <- app_assoc. reflexivity.
    + erewrite bind_ok by reflexivity. erewrite bind_ok by reflexivity.
      eexists _, _. split; [reflexivity |]. eexists. cbn [log addLog]. rewrite L.
      cbn [log addLog]. rewrite <- !app_assoc. reflexivity.
  - exists false, s. split; [reflexivity |]. exists []. rewrite app_nil_r. reflexivity.
Qed.

Lemma bind_assoc A C D (m : M W A) (f : A -> M W C) (g : C -> M W D) s :
  bind (bind m f) g s = bind m (fun x => bind (f x) g) s.
Proof. unfold bind. destruct (m s) as [[a | e |] s']; reflexivity. Qed.

Section NoDate.
Hypothesis Hnone :
  forall w : W,
    querySelectorAll w dateButtonSelector = [] /\
    querySelectorAll w altDateButtonSelector = [].

Lemma collectDateButtons_none (s : State W) :
  exists s', bot.collectDateButtons s = (Ok [], s') /\
             exists l, log s' = log s ++ noDatesFound :: l.
Proof.
  unfold bot.collectDateButtons.
  erewrite bind_ok by reflexivity.
  change "#scheduler_12196 .dateMain button.date" with dateButtonSelector.
  rewrite (proj1 (Hnone (world s))). cbn [length Nat.eqb].
  erewrite bind_ok.
  2:{ erewrite bind_ok by reflexivity. erewrite bind_ok by reflexivity.
      cbn [world addLog]. change "#scheduler_12196 button.date" with altDateButtonSelector.
      rewrite (proj2 (Hnone (world s))). reflexivity. }
  cbn [length Nat.eqb].
  rewrite bind_assoc. erewrite bind_ok by reflexivity.
  match goal with |- context [bind (bot.debugScreenshot ?n) _ ?st] =>
    destruct (debugScreenshot_run n st) as [s1 [E1 [l1 L1]]]
  end.
  erewrite bind_ok by exact E1.
  erewrite bind_ok by reflexivity.
  eexists. split; [reflexivity |].
  eexists. cbn [log addLog]. rewrite L1. cbn [log addLog].
  rewrite <- !app_assoc. reflexivity.
Qed.

Lemma selectPreferredDate_empty (s : State W) :
  exists b s', bot.selectPreferredDate config s = (Ok b, s') /\
               exists l, log s' = log s ++ l /\ In noDatesFound l.
Proof.
  unfold bot.selectPreferredDate.
  destruct (resolvePreferredDay_run s) as [e E].
  erewrite bind_ok by exact E.
  destruct (collectDateButtons_none (addLog e s)) as [s1 [E1 [l1 L1]]].
  erewrite bind_ok by exact E1.
  destruct (selectPreferredDay_empty (preferredDay config) s1) as [b [s2 [E2 [l2 L2]]]].
  erewrite bind_ok by exact E2.
  destruct b; cbn [negb].
  - eexists _, _. split; [reflexivity |].
    eexists. split.
    + rewrite L2, L1. cbn [log addLog]. rewrite <- !app_assoc. reflexivity.
    + apply in_or_app. right. apply in_or_app. left. left. reflexivity.
  - erewrite bind_ok by reflexivity.
    eexists _, _. split; [reflexivity |].
    eexists. split.
    + cbn [log addLog]. rewrite L2, L1. cbn [log addLog]. rewrite <- !app_assoc. reflexivity.
    + apply in_or_app. right. apply in_or_app. left. left. reflexivity.
Qed.

Lemma selectFirstAvailableDate_none (s : State W) dateSelected :
  exists e, bot.selectFirstAvailableDate dateSelected s = (Ok dateSelected, addLog e s).
Proof.
  unfold bot.selectFirstAvailableDate.
  erewrite bind_ok by reflexivity.
  erewrite bind_ok by reflexivity.
  cbn [world addLog].
  change "#scheduler_12196 .dateMain button.date" with dateButtonSelector.
  rewrite (proj1 (Hnone (world s))). cbn [head].
  erewrite bind_ok by reflexivity.
  cbn [world addLog].
  change "#scheduler_12196 button.date" with altDateButtonSelector.
  rewrite (proj2 (Hnone (world s))). cbn [head].
  eexists. reflexivity.
Qed.

Lemma chooseDate_none (s1 : State W) :
  exists s',
    bot.chooseDate config s1 = (Ok true, s') /\
    exists l, log s' = log s1 ++ l /\ (In noDatesFound l \/ In noDateSelected l).
Proof.
  unfold bot.chooseDate.
  assert (E : exists b s2,
             (if truthy (preferredDate config) then bot.selectPreferredDate config
              else ret false) s1 = (Ok b, s2) /\
             exists l, log s2 = log s1 ++ l /\ (b = true -> In noDatesFound l)).
  { destruct (truthy (preferredDate config)).
    - destruct (selectPreferredDate_empty s1) as [b [s2 [E [l [L I]]]]].
      exists b, s2. split; [exact E |]. exists l. split; [exact L | intros _; exact I].
    - exists false, s1. split; [reflexivity |]. exists []. rewrite app_nil_r.
      split; [reflexivity | discriminate]. }
  destruct E as [b [s2 [E [l [L I]]]]].
  erewrite bind_ok by exact E.
  assert (E' : exists s3,
             (if negb (truthy (preferredDate config)) || negb b
              then bot.selectFirstAvailableDate b else ret b) s2 = (Ok b, s3) /\
             exists l', log s3 = log s2 ++ l').
  { destruct (negb (truthy (preferredDate config)) || negb b).
    - destruct (selectFirstAvailableDate_none s2 b) as [e Ee].
      eexists. split; [exact Ee |]. eexists. reflexivity.
    - exists s2. split; [reflexivity |]. exists []. rewrite app_nil_r. reflexivity. }
  destruct E' as [s3 [E' [l' L']]].
  erewrite bind_ok by exact E'.
  erewrite bind_ok by reflexivity.
  destruct b; cbn [negb].
  - erewrite bind_ok by reflexivity. erewrite bind_ok by reflexivity.
    eexists. split; [reflexivity |].
    eexists. cbn [log addLog addEvent setWorld]. rewrite L', L, <- !app_assoc.
    split; [reflexivity |]. left. apply in_or_app. left. apply I. reflexivity.
  - rewrite bind_assoc. erewrite bind_ok by reflexivity.
    match goal with |- context [bind (bot.debugScreenshot ?n) _ ?st] =>
      destruct (debugScreenshot_run n st) as [s4 [E4 [l4 L4]]]
    end.
    erewrite bind_ok by exact E4.
    erewrite bind_ok by reflexivity.
    eexists. split; [reflexivity |].
    eexists. cbn [log addLog]. rewrite L4. cbn [log addLog addEvent setWorld].
    rewrite L', L, <- !app_assoc.
    split; [reflexivity |]. right.
    apply in_or_app. right. apply in_or_app. right. apply in_or_app. left. left. reflexivity.
Qed.

End NoDate.


End DatePicker.

(* ================================================================== *)
(** ** Every operation of the bot comes to an end                      *)
(* ================================================================== *)

Section Landing.
Context {W : Type} {B : Browser W}.

Lemma lands_tryFinally A (m : M W A) (f : M W unit) :
  lands m -> lands f -> lands (tryFinally m f).
Proof.
  intros Hm Hf s. specialize (Hm s). unfold tryFinally.
  destruct (m s) as [[a | e |] s1]; simpl in *; try congruence;
    specialize (Hf s1); destruct (f s1) as [[u | e' |] s2]; simpl in *;
    congruence.
Qed.

Lemma lands_clickElementFrom selector maxRetries remaining :
  lands (W:=W) (utils.clickElementFrom selector maxRetries remaining).
Proof.
  induction remaining as [| n IH]; [apply lands_ret |].
  cbn [utils.clickElementFrom]. apply lands_tryCatch.
  - unfold utils.clickAttempt.
    apply lands_bind; [apply lands_waitForElementVisible | intros ?].
    apply lands_bind; [apply lands_act | intros ?].
    apply lands_bind; [apply lands_modify | intros ?]. apply lands_ret.
  - intros e. apply lands_bind; [apply lands_modify | intros ?].
    destruct (_ =? _)%nat; [apply lands_throw |].
    apply lands_bind; [apply lands_modify | intros ?]. exact IH.
Qed.

Lemma lands_awaitOtpEntry : lands (W:=W) bot.awaitOtpEntry.
Proof.
  intros s. destruct (awaitOtpEntry_run s) as [k [H _]]. rewrite H. discriminate.
Qed.

End Landing.

Ltac head_of t := lazymatch t with ?f _ => head_of f | _ => t end.

Ltac lands_step :=
  lazymatch goal with
  | |- lands (bind _ _) => apply lands_bind; [| intros ?]
  | |- lands (ret _) => apply lands_ret
  | |- lands (throw _) => apply lands_throw
  | |- lands (gets _) => apply lands_gets
  | |- lands (modify _) => apply lands_modify
  | |- lands (act _) => apply lands_act
  | |- lands (tryCatch _ _) => apply lands_tryCatch; [| intros ?]
  | |- lands (tryFinally _ _) => apply lands_tryFinally
  | |- lands (forOf _ _) => apply lands_forOf; intros ?
  | |- lands (utils.clickElementFrom _ _ _) => apply lands_clickElementFrom
  | |- lands bot.awaitOtpEntry => apply lands_awaitOtpEntry
  | |- lands (if ?b then _ else _) => destruct b
  | |- lands (match ?x with _ => _ end) => destruct x
  | |- lands (let _ := _ in _) => cbv zeta
  | |- lands ?m => let h := head_of m in unfold h
  end.

Ltac lands_auto := repeat lands_step.

Section LandingRun.
Context {W : Type} {B : Browser W}.
Variable config : Config.

Lemma lands_selectDateFromNewPicker : lands (bot.selectDateFromNewPicker config).
Proof. lands_auto. Qed.

Lemma lands_addToCart : lands (bot.addToCart config).
Proof. lands_auto. Qed.

Lemma lands_handleInfoPopup : lands (bot.handleInfoPopup config).
Proof. lands_auto. Qed.

Lemma lands_handleLogin : lands (bot.handleLogin config).
Proof. lands_auto. Qed.

Lemma lands_handlePostLoginFlow : lands (bot.handlePostLoginFlow config).
Proof. lands_auto. Qed.

Lemma lands_handleSignedInBooking : lands (bot.handleSignedInBooking config).
Proof. lands_auto. Qed.

Lemma lands_bookParkingPass : lands (bot.bookParkingPass config).
Proof.
  unfold bot.bookParkingPass. apply lands_tryFinally; [| lands_auto].
  apply lands_tryCatch; [| intros ?; lands_auto].
  apply lands_bind; [| intros ?; lands_auto].
  unfold bot.bookUntilCart.
  repeat (apply lands_bind; [solve [lands_auto] | intros ?]).
  match goal with |- lands (if ?b then _ else _) => destruct b end.
  { apply lands_bind; [lands_auto | intros ?].
    apply lands_bind; [apply lands_handleSignedInBooking | intros ?; lands_auto]. }
  unfold bot.bookAsGuest.
  apply lands_bind; [lands_auto | intros ?].
  apply lands_bind; [lands_auto | intros ?].
  apply lands_bind; [apply lands_selectDateFromNewPicker | intros ?].
  apply lands_bind; [apply lands_addToCart | intros ?].
  apply lands_bind; [lands_auto | intros ?].
  apply lands_bind; [lands_auto | intros ?].
  match goal with |- lands (if ?b then _ else _) => destruct b end; [| lands_auto].
  apply lands_bind; [lands_auto | intros ?].
  apply lands_tryCatch; [| intros ?; lands_auto].
  apply lands_bind; [apply lands_handleLogin | intros ?].
  apply lands_bind; [lands_auto | intros ?].
  apply lands_bind; [apply lands_handlePostLoginFlow | intros ?]. lands_auto.
Qed.

End LandingRun.

(* ================================================================== *)
(** ** What an operation returns when it returns                       *)
(* ================================================================== *)

Section Outcome.
Context {W : Type}.

Lemma yieldsOnly_ret A (a : A) : yieldsOnly (W:=W) a (ret a).
Proof. intros s r H. injection H as <-. reflexivity. Qed.

Lemma yieldsOnly_throw A (a : A) e : yieldsOnly (W:=W) a (throw e).
Proof. intros s r H. discriminate H. Qed.

Lemma yieldsOnly_bind A C (c : C) (m : M W A) (k : A -> M W C) :
  (forall x, yieldsOnly c (k x)) -> yieldsOnly c (bind m k).
Proof.
  intros Hk s r. unfold bind.
  destruct (m s) as [[a | e |] s1]; simpl; try discriminate. apply Hk.
Qed.

Lemma yieldsOnly_tryCatch A (a : A) (m : M W A) (h : JsError -> M W A) :
  yieldsOnly a m -> (forall e, yieldsOnly a (h e)) -> yieldsOnly a (tryCatch m h).
Proof.
  intros Hm Hh s r. unfold tryCatch. specialize (Hm s).
  destruct (m s) as [[a' | e |] s1]; simpl in *; try discriminate; [apply Hm | apply Hh].
Qed.

Lemma yieldsOnly_tryFinally A (a : A) (m : M W A) (f : M W unit) :
  yieldsOnly a m -> yieldsOnly a (tryFinally m f).
Proof.
  intros Hm s r. unfold tryFinally. specialize (Hm s).
  destruct (m s) as [[a' | e |] s1]; simpl in *; try discriminate;
    destruct (f s1) as [[u | e' |] s2]; simpl; try discriminate.
  apply Hm.
Qed.

(** a [try] whose handler settles on [a] always returns [a] *)
Lemma settles A (a : A) (m : M W A) (h : JsError -> M W A) s :
  lands m -> yieldsOnly a m -> (forall e s', fst (h e s') = Ok a) ->
  fst (tryCatch m h s) = Ok a.
Proof.
  intros Hl Hy Hh. unfold tryCatch. specialize (Hl s). specialize (Hy s).
  destruct (m s) as [[a' | e |] s1]; simpl in *.
  - rewrite (Hy a' eq_refl). reflexivity.
  - apply Hh.
  - congruence.
Qed.

End Outcome.

Ltac yields_step :=
  lazymatch goal with
  | |- yieldsOnly _ (bind _ _) => apply yieldsOnly_bind; intros ?
  | |- yieldsOnly _ (ret _) => apply yieldsOnly_ret
  | |- yieldsOnly _ (throw _) => apply yieldsOnly_throw
  | |- yieldsOnly _ (tryCatch _ _) => apply yieldsOnly_tryCatch; [| intros ?]
  | |- yieldsOnly _ (tryFinally _ _) => apply yieldsOnly_tryFinally
  | |- yieldsOnly _ (if ?b then _ else _) => destruct b
  | |- yieldsOnly _ (match ?x with _ => _ end) => destruct x
  end.

Ltac yields_auto := repeat yields_step.

(* ================================================================== *)
(** ** The information popup                                           *)
(* ================================================================== *)

Section InfoPopup.
Context {W : Type} {B : Browser W}.
Variable config : Config.

(** X1 -- [handleInfoPopup] is a best-effort stage: whatever the page
    does, and whichever of its searches for the button fail, it returns
    true and never throws. *)
Theorem info_popup_never_fails (s : State W) :
  fst (bot.handleInfoPopup config s) = Ok true.
Proof.
  unfold bot.handleInfoPopup. apply settles.
  - lands_auto.
  - yields_auto.
  - intros e s'. reflexivity.
Qed.

End InfoPopup.

(* ================================================================== *)
(** ** The whole run: outcome, report and release of the browser       *)
(* ================================================================== *)

Section WholeRun.
Context {W : Type} {B : Browser W}.
Variable config : Config.

(** lines 1749-1830: the [try] and [catch] blocks of [bookParkingPass] *)
Let attempt : M W bool :=
  tryCatch
    (bot.bookUntilCart config ;;
     bot.completeCheckout config ;;
     logger.logSuccess "🎉 Parking pass booking completed successfully!" ;;
     ret true)
    (fun error =>
       logger.logError "Booking process failed" (Some error) ;;
       hasPage <- gets page ;;
       (if hasPage then utils.takeScreenshot "error_state" ;; ret tt else ret tt) ;;
       throw error).

Lemma bookParkingPass_attempt : bot.bookParkingPass config = tryFinally attempt bot.cleanup.
Proof. reflexivity. Qed.

Lemma lands_attempt : lands attempt.
Proof.
  intros s. pose proof (lands_bookParkingPass config s) as H.
  rewrite bookParkingPass_attempt in H. unfold tryFinally in H.
  destruct (attempt s) as [[a | e |] s1]; simpl in *; try discriminate.
  exfalso. apply H. reflexivity.
Qed.

Lemma keeps_attempt : keeps anyEntry anyEvent attempt.
Proof.
  unfold attempt. apply keeps_tryCatch.
  - apply keeps_bind.
    + apply keeps_bookUntilCart;
        first [ exact I | apply ordinary_anyEntry | apply unsaved_anyEvent | (intros; exact I) ].
    + intros ?. apply keeps_bind.
      * apply keeps_completeCheckout;
          first [ exact I | apply ordinary_anyEntry | apply unsaved_anyEvent | (intros; exact I) ].
      * intros ?. pose proof ordinary_anyEntry. pose proof unsaved_anyEvent. keeps_auto.
  - intros e. pose proof ordinary_anyEntry. pose proof unsaved_anyEvent. keeps_auto.
Qed.

(** the three ways [cleanup] goes *)
Lemma cleanup_cases (s : State W) :
  (browser s = false /\ bot.cleanup s = (Ok tt, s)) \/
  (browser s = true /\ exists r s',
     bot.cleanup s = (Ok tt, s') /\
     trace s' = trace s ++ [closeEvent r] /\
     (exists l, log s' = log s ++ l) /\
     browser s' = true).
Proof.
  destruct (browser s) eqn:Hb; [right | left]; (split; [reflexivity |]).
  - unfold bot.cleanup, tryCatch.
    erewrite bind_ok by reflexivity. rewrite Hb.
    unfold bind, act. destruct (perform (world s) Close) as [[e |] w'].
    + exists (Some e). eexists. split; [reflexivity |].
      cbn. rewrite Hb. repeat split. eexists. reflexivity.
    + exists None. eexists. split; [reflexivity |].
      cbn. rewrite Hb. repeat split. eexists. reflexivity.
  - unfold bot.cleanup, tryCatch.
    erewrite bind_ok by reflexivity. rewrite Hb. reflexivity.
Qed.

(** what the [catch] block does with the error it is handed *)
Lemma attempt_failure (s s1 : State W) e :
  attempt s = (Throw e, s1) -> In (runFailed e) (log s1).
Proof.
  unfold attempt, tryCatch.
  pose proof (lands_bind _ _ (bot.bookUntilCart config)
                (fun _ => bot.completeCheckout config ;;
                          logger.logSuccess "🎉 Parking pass booking completed successfully!" ;;
                          ret true)) as Hl.
  destruct ((bot.bookUntilCart config ;;
             bot.completeCheckout config ;;
             logger.logSuccess "🎉 Parking pass booking completed successfully!" ;;
             ret true) s) as [[a | e0 |] s0]; intros H; try discriminate H.
  unfold bind at 1 in H. cbn [logger.logError logger.write modify] in H.
  unfold bind at 1 in H. unfold gets at 1 in H.
  match type of H with context [if ?b then _ else _] => destruct b end.
  - unfold bind at 1 in H. unfold bind at 1 in H.
    match type of H with context [utils.takeScreenshot ?f ?st] =>
      pose proof (keeps_takeScreenshot anyEntry anyEvent ordinary_anyEntry unsaved_anyEvent f st)
        as [[l [Hlog _]] _];
      destruct (returns_takeScreenshot f st) as [p Hp];
      destruct (utils.takeScreenshot f st) as [[p' | e' |] s2]
    end; simpl in Hp; try discriminate Hp.
    cbn in H. injection H as <- <-. cbn in Hlog. rewrite Hlog.
    apply in_or_app. left. apply in_or_app. right. left. reflexivity.
  - cbn in H. injection H as <- <-. cbn.
    apply in_or_app. right. left. reflexivity.
Qed.

(** X2 -- The browser is released on every exit path.  A run of
    [bookParkingPass] ends by returning true or by throwing, never
    otherwise; and when the bot holds a browser at the end of the run,
    the last thing the run did was the attempt to close it. *)
Theorem run_always_closes_browser (s : State W) :
  (fst (bot.bookParkingPass config s) = Ok true \/
   exists e, fst (bot.bookParkingPass config s) = Throw e) /\
  (browser (snd (bot.bookParkingPass config s)) = true ->
   exists t r, trace (snd (bot.bookParkingPass config s)) = trace s ++ t ++ [closeEvent r]).
Proof.
  rewrite bookParkingPass_attempt. unfold tryFinally.
  pose proof (lands_attempt s) as Hl.
  assert (Hy : yieldsOnly true attempt) by (unfold attempt; yields_auto).
  specialize (Hy s).
  destruct (keeps_attempt s) as [_ [[t [Ht _]] _]].
  destruct (attempt s) as [[b | e |] s1]; simpl in *; try congruence.
  - rewrite (Hy b eq_refl).
    destruct (cleanup_cases s1) as [[Hb Hc] | [Hb [r [s' [Hc [Htr [_ Hb']]]]]]]; rewrite Hc; simpl.
    + repeat split; auto. congruence.
    + repeat split; auto. intros _. exists t, r. rewrite Htr, Ht, app_assoc. reflexivity.
  - destruct (cleanup_cases s1) as [[Hb Hc] | [Hb [r [s' [Hc [Htr [_ Hb']]]]]]]; rewrite Hc; simpl.
    + repeat split; eauto. congruence.
    + repeat split; eauto. intros _. exists t, r. rewrite Htr, Ht, app_assoc. reflexivity.
Qed.

(** X3 -- A run that fails says so.  When [bookParkingPass] throws an
    error, the log holds the line [Booking process failed] with that
    error's message. *)
Theorem failed_run_is_reported (s : State W) (e : JsError) :
  fst (bot.bookParkingPass config s) = Throw e ->
  In (runFailed e) (log (snd (bot.bookParkingPass config s))).
Proof.
  rewrite bookParkingPass_attempt. unfold tryFinally.
  pose proof (attempt_failure s) as Hf.
  destruct (attempt s) as [[b | e0 |] s1]; simpl; try discriminate.
  - destruct (cleanup_cases s1) as [[Hb Hc] | [Hb [r [s' [Hc _]]]]]; rewrite Hc; simpl;
      discriminate.
  - destruct (cleanup_cases s1) as [[Hb Hc] | [Hb [r [s' [Hc [_ [[l Hlog] _]]]]]]];
      rewrite Hc; simpl; intros H; injection H as <-.
    + apply (Hf s1 e0 eq_refl).
    + rewrite Hlog. apply in_or_app. left. apply (Hf s1 e0 eq_refl).
Qed.

Lemma attempt_ok_inv (s s1 : State W) b :
  attempt s = (Ok b, s1) ->
  exists s2 c s3,
    bot.bookUntilCart config s = (Ok tt, s2) /\
    bot.completeCheckout config s2 = (Ok c, s3) /\
    s1 = addLog (mkLog Info "✅ 🎉 Parking pass booking completed successfully!") s3.
Proof.
  unfold attempt. intros H. apply tryCatch_ok_inv in H.
  - apply bind_ok_inv in H. destruct H as [a [s2 [H1 H]]].
    apply bind_ok_inv in H. destruct H as [c [s3 [H2 H]]].
    cbn in H. injection H as _ <-. destruct a. eexists _, _, _. repeat split; eauto.
  - intros e s0. unfold bind at 1. cbn [logger.logError logger.write modify].
    unfold bind at 1. unfold gets at 1. destruct (page _).
    + unfold bind at 1. unfold bind at 1.
      match goal with |- context [utils.takeScreenshot ?f ?st] =>
        destruct (returns_takeScreenshot f st) as [p Hp];
        destruct (utils.takeScreenshot f st) as [[p' | e' |] s2]
      end; simpl in Hp; try discriminate Hp. reflexivity.
    + reflexivity.
Qed.

Lemma clickRun_ok_clicks selector n evs b :
  clickRun selector n evs (Ok b) -> In (clickEvent selector None) evs.
Proof.
  remember (Ok b) as r eqn:Er.
  induction 1 as [n | evs e Hf | n evs e rest r Hf Hrun IH].
  - right. left. reflexivity.
  - discriminate Er.
  - apply in_or_app. right. right. auto.
Qed.

(** a checkout that returns has clicked the button *)
Lemma completeCheckout_ok_inv (s s' : State W) c :
  bot.completeCheckout config s = (Ok c, s') ->
  exists l t,
    log s' = log s ++ checkoutStep :: l /\
    trace s' = trace s ++ t /\
    In (clickEvent (checkoutBtn selectors) None) t.
Proof.
  unfold bot.completeCheckout. intros H.
  apply tryCatch_ok_inv in H; [| apply rethrows_log].
  apply bind_ok_inv in H. destruct H as [[] [s1 [H1 H]]].
  cbn in H1. injection H1 as <-.
  apply bind_ok_inv in H. destruct H as [el [s2 [H2 H]]].
  apply bind_ok_inv in H. destruct H as [b [s3 [H3 H]]].
  pose proof ordinary_anyEntry as HE. pose proof unsaved_anyEvent as HV.
  assert (K2 : keeps anyEntry anyEvent
                 (utils.waitForElementVisible (W:=W) (checkoutBtn selectors)
                    utils.defaultTimeout))
    by (unfold utils.waitForElementVisible; keeps_auto).
  specialize (K2 (addLog checkoutStep s)).
  change (addLog _ s) with (addLog checkoutStep s) in H2.
  rewrite H2 in K2. destruct K2 as [[l2 [L2 _]] [[t2 [T2 _]] _]]. cbn in L2, T2.
  destruct (clickElementFrom_run (checkoutBtn selectors) 3 2 s2) as [evs [T3 R3]]; [lia |].
  unfold utils.clickElement, utils.defaultMaxRetries in H3. rewrite H3 in T3, R3. cbn in T3, R3.
  assert (K3 : keeps anyEntry anyEvent
                 (utils.clickElement (W:=W) (checkoutBtn selectors) utils.defaultMaxRetries))
    by (apply keeps_clickElement; auto; intros; exact I).
  specialize (K3 s2). unfold utils.clickElement, utils.defaultMaxRetries in K3.
  rewrite H3 in K3. destruct K3 as [[l3 [L3 _]] _]. cbn in L3.
  assert (K4 : keeps anyEntry anyEvent
                 (utils.delay (W:=W) (delayBetweenActions config) ;;
                  utils.takeScreenshot "checkout_completed" ;;
                  logger.logCompletion "Checkout completed" ;;
                  ret true)) by keeps_auto.
  specialize (K4 s3). rewrite H in K4. destruct K4 as [[l4 [L4 _]] [[t4 [T4 _]] _]].
  cbn in L4, T4.
  exists (l2 ++ l3 ++ l4), (t2 ++ evs ++ t4). split; [| split].
  - rewrite L4, L3, L2, <- !app_assoc. reflexivity.
  - rewrite T4, T3, T2, <- !app_assoc. reflexivity.
  - apply in_or_app. right. apply in_or_app. left. eapply clickRun_ok_clicks. exact R3.
Qed.

(** X4 -- Success means checkout.  When [bookParkingPass] returns, it
    returns true, the checkout stage was entered and within the run the
    checkout button was clicked with success. *)
Theorem successful_run_clicked_checkout (s : State W) (b : bool) :
  fst (bot.bookParkingPass config s) = Ok b ->
  b = true /\
  exists l t,
    log (snd (bot.bookParkingPass config s)) = log s ++ l /\
    In checkoutStep l /\
    trace (snd (bot.bookParkingPass config s)) = trace s ++ t /\
    In (clickEvent (checkoutBtn selectors) None) t.
Proof.
  rewrite bookParkingPass_attempt. unfold tryFinally.
  pose proof (attempt_ok_inv s) as Hinv.
  assert (Hy : yieldsOnly true attempt) by (unfold attempt; yields_auto).
  specialize (Hy s).
  destruct (attempt s) as [[b0 | e0 |] s1]; simpl in *.
  - destruct (Hinv s1 b0 eq_refl) as [s2 [c [s3 [H1 [H2 ->]]]]].
    destruct (completeCheckout_ok_inv s2 s3 c H2) as [l3 [t3 [L3 [T3 I3]]]].
    assert (K1 : keeps anyEntry anyEvent (bot.bookUntilCart config))
      by (apply keeps_bookUntilCart;
          first [ exact I | apply ordinary_anyEntry | apply unsaved_anyEvent
                | (intros; exact I) ]).
    specialize (K1 s). rewrite H1 in K1. destruct K1 as [[l1 [L1 _]] [[t1 [T1 _]] _]].
    cbn in L1, T1.
    match goal with |- context [bot.cleanup ?st] =>
      destruct (cleanup_cases st) as [[Hb Hc] | [Hb [r [s' [Hc [Htr [[lc Hlc] _]]]]]]]
    end; rewrite Hc; simpl; intros H; injection H as <-; (split; [auto |]).
    + eexists _, _. cbn [log trace addLog]. rewrite L3, L1, T3, T1, <- !app_assoc.
      split; [reflexivity |]. split; [| split; [reflexivity |]].
      * apply in_or_app. right. left. reflexivity.
      * apply in_or_app. right. exact I3.
    + eexists _, _. rewrite Hlc, Htr. cbn [log trace addLog].
      rewrite L3, L1, T3, T1, <- !app_assoc.
      split; [reflexivity |]. split; [| split; [reflexivity |]].
      * apply in_or_app. right. left. reflexivity.
      * apply in_or_app. right. apply in_or_app. left. exact I3.
  - destruct (bot.cleanup s1) as [[u | e' |] s2]; simpl; discriminate.
  - discriminate.
Qed.

End WholeRun.

(* ================================================================== *)
(** ** The job runner                                                  *)
(* ================================================================== *)

Section JobRunner.
Context {W : Type} {B : Browser W}.
Variable config : Config.

(** X5 -- The guard is always released.  A trigger that finds the guard
    clear runs the bot with the guard set and a bot just built; whatever
    becomes of the run, the runner returns without throwing, leaves the
    guard clear, and the last line it logs tells whether the job
    completed or failed, with the error's message. *)
Theorem scheduled_job_releases_guard (jobName : string) (s : State W) :
  isRunning s = false ->
  let started := newBot (addLog (jobStarted jobName) (setIsRunning true s)) in
  let run := bot.bookParkingPass config started in
  fst (scheduler.runScheduledJob config jobName s) = Ok tt /\
  isRunning (snd (scheduler.runScheduledJob config jobName s)) = false /\
  isRunning started = true /\
  trace (snd (scheduler.runScheduledJob config jobName s)) = trace (snd run) /\
  ((exists b, fst run = Ok b /\
      log (snd (scheduler.runScheduledJob config jobName s))
        = log (snd run) ++ [jobCompleted jobName]) \/
   (exists e, fst run = Throw e /\
      log (snd (scheduler.runScheduledJob config jobName s))
        = log (snd run) ++ [jobFailed jobName e])).
Proof.
  intros Hidle started run.
  unfold scheduler.runScheduledJob.
  erewrite bind_ok by reflexivity. rewrite Hidle.
  unfold tryFinally, tryCatch.
  erewrite bind_ok by reflexivity.
  erewrite bind_ok by reflexivity.
  erewrite bind_ok by reflexivity.
  change (newBot (addLog _ (setIsRunning true s))) with started.
  unfold bind. fold run.
  pose proof (lands_bookParkingPass config started) as Hl. fold run in Hl.
  destruct run as [[b | e |] s1]; cbn [fst snd] in *.
  - split; [reflexivity | split; [reflexivity | split; [reflexivity | split; [reflexivity |]]]].
    left. eauto.
  - split; [reflexivity | split; [reflexivity | split; [reflexivity | split; [reflexivity |]]]].
    right. eauto.
  - congruence.
Qed.

End JobRunner.

(* ================================================================== *)
(** ** The first stages: browser, portal, pass type                    *)
(* ================================================================== *)

Section FirstStages.
Context {W : Type} {B : Browser W}.
Variable config : Config.

(** X6 -- [initialize] and the browser it holds.  When the launch fails,
    [initialize] rethrows the launch's error after reporting it, has
    attempted nothing else and holds no more than before.  When the
    launch goes through, the bot holds the browser from then on, even if
    a later step of the initialization fails.  When [initialize] returns,
    it returns true and the bot holds a browser and a page. *)
Theorem initialize_holds_launched_browser (s : State W) :
  (forall e w1,
     perform (world s) (Launch (headless config)) = (Some e, w1) ->
     fst (bot.initialize config s) = Throw e /\
     trace (snd (bot.initialize config s))
       = trace s ++ [mkEvent (Launch (headless config)) (Some e)] /\
     log (snd (bot.initialize config s))
       = log s ++ [mkLog Info "🔄 Initializing bot"; stageFailed "Failed to initialize bot" e] /\
     browser (snd (bot.initialize config s)) = browser s /\
     page (snd (bot.initialize config s)) = page s) /\
  (forall w1,
     perform (world s) (Launch (headless config)) = (None, w1) ->
     browser (snd (bot.initialize config s)) = true) /\
  (forall r,
     fst (bot.initialize config s) = Ok r ->
     r = true /\
     browser (snd (bot.initialize config s)) = true /\
     page (snd (bot.initialize config s)) = true).
Proof.
  unfold bot.initialize, tryCatch, bind, act, logger.logStep, logger.logSuccess,
    logger.logError, logger.write, modify, ret, throw.
  cbn [world addLog].
  destruct (perform (world s) (Launch (headless config))) as [[e0 |] w0].
  - split; [| split].
    + intros e w1 H. injection H as <- <-. cbn. rewrite <- app_assoc. auto.
    + intros w1 H. discriminate H.
    + intros r H. discriminate H.
  - cbn [world setWorld addEvent setBrowser].
    destruct (perform w0 NewPage) as [[e1 |] w2]; cbn [world setWorld addEvent setPage];
      [| destruct (perform w2 (SetUserAgent bot.userAgent)) as [[e2 |] w3];
         cbn [world setWorld addEvent];
         [| destruct (perform w3 (SetViewport 1366 768)) as [[e3 |] w4]]];
      (split; [| split]);
      try (intros e w1 H; discriminate H);
      try (intros w1 H; reflexivity);
      intros r H; try discriminate H.
    cbn in H. injection H as <-. cbn. auto.
Qed.

(** X7 -- Of the steps of [navigateToPortal] only the navigation itself
    is fatal.  When it fails, the stage reports and rethrows its error;
    when it goes through, the stage returns true whatever becomes of the
    wait for the page to settle and of the screenshot. *)
Theorem navigation_alone_is_fatal (s : State W) :
  (forall e w1,
     perform (world s) (Goto (baseUrl config) 30000) = (Some e, w1) ->
     fst (bot.navigateToPortal config s) = Throw e /\
     trace (snd (bot.navigateToPortal config s))
       = trace s ++ [mkEvent (Goto (baseUrl config) 30000) (Some e)] /\
     log (snd (bot.navigateToPortal config s))
       = log s ++ [mkLog Info "🔄 Navigating to Buntzen Lake portal";
                   stageFailed "Failed to navigate to portal" e]) /\
  (forall w1,
     perform (world s) (Goto (baseUrl config) 30000) = (None, w1) ->
     fst (bot.navigateToPortal config s) = Ok true).
Proof.
  split.
  - intros e w1 H.
    unfold bot.navigateToPortal, tryCatch, bind, act, logger.logStep, logger.logError,
      logger.write, modify, throw.
    cbn [world addLog]. rewrite H. cbn. rewrite <- app_assoc. auto.
  - intros w1 H. unfold bot.navigateToPortal.
    assert (E : exists s', 
      (logger.logStep "Navigating to Buntzen Lake portal" ;;
       act (Goto (baseUrl config) 30000) ;;
       utils.waitForPageLoad ;;
       logger.logSuccess "Successfully navigated to portal" ;;
       utils.takeScreenshot "portal_loaded" ;;
       ret true) s = (Ok true, s')).
    { erewrite bind_ok by reflexivity.
      erewrite bind_ok by (apply act_ok; exact H).
      match goal with |- context [bind utils.waitForPageLoad _ ?st] =>
        assert (R : returns (W:=W) utils.waitForPageLoad)
          by (unfold utils.waitForPageLoad; apply returns_tryCatch;
              [lands_auto | intros ?; apply returns_modify]);
        destruct (R st) as [u Hu];
        destruct (utils.waitForPageLoad st) as [r1 s1] eqn:E1
      end.
      simpl in Hu. subst r1.
      erewrite bind_ok by exact E1.
      erewrite bind_ok by reflexivity.
      match goal with |- context [bind (utils.takeScreenshot ?f) _ ?st] =>
        destruct (returns_takeScreenshot f st) as [p Hp];
        destruct (utils.takeScreenshot f st) as [r2 s2] eqn:E2
      end.
      simpl in Hp. subst r2.
      erewrite bind_ok by exact E2.
      eexists. reflexivity. }
    destruct E as [s' E]. erewrite tryCatch_ok by exact E. reflexivity.
Qed.

(** a pass type that is neither of the two matches no card *)
Lemma unknown_pass_type_matches_nothing cardText :
  passType config <> "all_day" -> passType config <> "half_day" ->
  bot.passCardMatches config cardText = false.
Proof.
  intros H1 H2. unfold bot.passCardMatches.
  apply String.eqb_neq in H1. apply String.eqb_neq in H2. rewrite H1, H2. reflexivity.
Qed.

(** X8 -- The pass type at the edges.  With no pass card on the page the
    stage throws [No pass cards found], having clicked nothing.  With a
    pass type that is neither [all_day] nor [half_day], no card is ever
    matched: the first card is clicked, whatever the cards say, and the
    stage returns true with a warning. *)
Theorem pass_type_without_a_match (s : State W) :
  let page := elapse (world s) 2000 in
  let cards := querySelectorAll page passCardSelector in
  (cards = [] ->
   fst (bot.selectPassType config s) = Throw noPassCards /\
   trace (snd (bot.selectPassType config s)) = trace s ++ [mkEvent (Delay 2000) None] /\
   log (snd (bot.selectPassType config s))
     = log s ++ [mkLog Info ("🔄 Selecting pass type: " ++ passType config)%string;
                 stageFailed "Failed to select pass type" noPassCards]) /\
  (forall first rest page',
     passType config <> "all_day" -> passType config <> "half_day" ->
     cards = first :: rest ->
     perform page (ElementClick first 1) = (None, page') ->
     fst (bot.selectPassType config s) = Ok true /\
     trace (snd (bot.selectPassType config s))
       = trace s ++ [mkEvent (Delay 2000) None; clicked first;
                     mkEvent (Delay (delayBetweenActions config)) None] /\
     In firstCardWarning (log (snd (bot.selectPassType config s)))).
Proof.
  intros page cards. split.
  - intros Hcards.
    unfold bot.selectPassType, tryCatch.
    erewrite bind_ok by reflexivity.
    erewrite bind_ok by reflexivity.
    erewrite bind_ok by reflexivity.
    cbn [world setWorld addEvent addLog].
    change ".gridCard, .cardRow .gridCard" with passCardSelector.
    fold page. fold cards. rewrite Hcards.
    cbn. rewrite <- app_assoc. auto.
  - intros first rest page' H1 H2 Hcards Hclick.
    assert (E : exists s',
      bot.selectPassType config s = (Ok true, s') /\
      trace s' = trace s ++ [mkEvent (Delay 2000) None; clicked first;
                             mkEvent (Delay (delayBetweenActions config)) None] /\
      In firstCardWarning (log s')).
    { unfold bot.selectPassType. eexists. split.
      - apply tryCatch_ok.
        erewrite bind_ok by reflexivity.
        erewrite bind_ok by reflexivity.
        erewrite bind_ok by reflexivity.
        cbn [world setWorld addEvent addLog].
        change ".gridCard, .cardRow .gridCard" with passCardSelector.
        fold page. fold cards.
        erewrite bind_ok.
        2:{ apply forOf_none. intros c Hc. cbv zeta.
            rewrite (unknown_pass_type_matches_nothing (textContent c) H1 H2). reflexivity. }
        cbv zeta. cbn [isSome negb]. rewrite Hcards.
        erewrite bind_ok.
        2:{ unfold bot.click. erewrite bind_ok by (apply act_ok; exact Hclick). reflexivity. }
        erewrite bind_ok by reflexivity.
        erewrite bind_ok by reflexivity.
        reflexivity.
      - cbn [trace log setWorld addEvent addLog]. rewrite <- !app_assoc. split; [reflexivity |].
        apply in_or_app. right. right. left. reflexivity. }
    destruct E as [s' [E [Ht Hl]]]. rewrite E. simpl. auto.
Qed.

End FirstStages.

(* ================================================================== *)
(** ** Lookups: what they throw and what they leave alone              *)
(* ================================================================== *)

Section Lookups.
Context {W : Type} {B : Browser W}.

Lemma throwsOnly_ret A (a : A) e : throwsOnly (W:=W) e (ret a).
Proof. intros s e' H. discriminate H. Qed.

Lemma throwsOnly_throw A e : throwsOnly e (@throw W A e).
Proof. intros s e' H. injection H as <-. reflexivity. Qed.

Lemma throwsOnly_gets A (f : State W -> A) e : throwsOnly e (gets f).
Proof. intros s e' H. discriminate H. Qed.

Lemma throwsOnly_modify (f : State W -> State W) e : throwsOnly e (modify f).
Proof. intros s e' H. discriminate H. Qed.

Lemma throwsOnly_bind A C e (m : M W A) (k : A -> M W C) :
  throwsOnly e m -> (forall a, throwsOnly e (k a)) -> throwsOnly e (bind m k).
Proof.
  intros Hm Hk s e'. unfold bind. specialize (Hm s).
  destruct (m s) as [[a | e0 |] s1]; simpl in *; try discriminate.
  - apply Hk.
  - intros H. injection H as <-. apply Hm. reflexivity.
Qed.

(** what the [try] block throws is caught: only the handler counts *)
Lemma throwsOnly_tryCatch A e (m : M W A) (h : JsError -> M W A) :
  (forall e0, throwsOnly e (h e0)) -> throwsOnly e (tryCatch m h).
Proof.
  intros Hh s e'. unfold tryCatch.
  destruct (m s) as [[a | e0 |] s1]; simpl; try discriminate. apply Hh.
Qed.

Lemma throwsOnly_forOf A C e (xs : list A) (body : A -> M W (option C)) :
  (forall x, throwsOnly e (body x)) -> throwsOnly e (forOf xs body).
Proof.
  intros H. induction xs as [| x xs IH]; cbn [forOf]; [apply throwsOnly_ret |].
  apply throwsOnly_bind; [apply H |]. intros [c |]; [apply throwsOnly_ret | exact IH].
Qed.

Lemma onlyLooks_ret A (a : A) : onlyLooks (W:=W) (ret a).
Proof. intros s. split; reflexivity. Qed.

Lemma onlyLooks_throw A e : onlyLooks (@throw W A e).
Proof. intros s. split; reflexivity. Qed.

Lemma onlyLooks_gets A (f : State W -> A) : onlyLooks (gets f).
Proof. intros s. split; reflexivity. Qed.

Lemma onlyLooks_write l t : onlyLooks (logger.write (W:=W) l t).
Proof. intros s. split; reflexivity. Qed.

Lemma onlyLooks_bind A C (m : M W A) (k : A -> M W C) :
  onlyLooks m -> (forall a, onlyLooks (k a)) -> onlyLooks (bind m k).
Proof.
  intros Hm Hk s. unfold bind. specialize (Hm s).
  destruct (m s) as [[a | e0 |] s1]; simpl in *; try exact Hm.
  destruct (Hk a s1) as [Ht Hw]. destruct Hm as [Ht' Hw']. split; congruence.
Qed.

Lemma onlyLooks_tryCatch A (m : M W A) (h : JsError -> M W A) :
  onlyLooks m -> (forall e, onlyLooks (h e)) -> onlyLooks (tryCatch m h).
Proof.
  intros Hm Hh s. unfold tryCatch. specialize (Hm s).
  destruct (m s) as [[a | e0 |] s1]; simpl in *; try exact Hm.
  destruct (Hh e0 s1) as [Ht Hw]. destruct Hm as [Ht' Hw']. split; congruence.
Qed.

Lemma onlyLooks_forOf A C (xs : list A) (body : A -> M W (option C)) :
  (forall x, onlyLooks (body x)) -> onlyLooks (forOf xs body).
Proof.
  intros H. induction xs as [| x xs IH]; cbn [forOf]; [apply onlyLooks_ret |].
  apply onlyLooks_bind; [apply H |]. intros [c |]; [apply onlyLooks_ret | exact IH].
Qed.

End Lookups.

Ltac throws_step :=
  lazymatch goal with
  | |- throwsOnly _ (bind _ _) => apply throwsOnly_bind; [| intros ?]
  | |- throwsOnly _ (ret _) => apply throwsOnly_ret
  | |- throwsOnly _ (throw _) => apply throwsOnly_throw
  | |- throwsOnly _ (gets _) => apply throwsOnly_gets
  | |- throwsOnly _ (modify _) => apply throwsOnly_modify
  | |- throwsOnly _ (tryCatch _ _) => apply throwsOnly_tryCatch; intros ?
  | |- throwsOnly _ (forOf _ _) => apply throwsOnly_forOf; intros ?
  | |- throwsOnly _ (if ?b then _ else _) => destruct b
  | |- throwsOnly _ (match ?x with _ => _ end) => destruct x
  | |- throwsOnly _ (let _ := _ in _) => cbv zeta
  | |- throwsOnly _ (act _) => fail "an action may throw anything"
  | |- throwsOnly _ ?m => let h := head_of m in unfold h
  end.

Ltac throws_auto := repeat throws_step.

Ltac looks_step :=
  lazymatch goal with
  | |- onlyLooks (bind _ _) => apply onlyLooks_bind; [| intros ?]
  | |- onlyLooks (ret _) => apply onlyLooks_ret
  | |- onlyLooks (throw _) => apply onlyLooks_throw
  | |- onlyLooks (gets _) => apply onlyLooks_gets
  | |- onlyLooks (logger.write _ _) => apply onlyLooks_write
  | |- onlyLooks (tryCatch _ _) => apply onlyLooks_tryCatch; [| intros ?]
  | |- onlyLooks (forOf _ _) => apply onlyLooks_forOf; intros ?
  | |- onlyLooks (if ?b then _ else _) => destruct b
  | |- onlyLooks (match ?x with _ => _ end) => destruct x
  | |- onlyLooks (let _ := _ in _) => cbv zeta
  | |- onlyLooks (act _) => fail "an action is not a look"
  | |- onlyLooks (modify _) => fail "not a look"
  | |- onlyLooks ?m => let h := head_of m in unfold h
  end.

Ltac looks_auto := repeat looks_step.

Section OtpFields.
Context {W : Type} {B : Browser W}.
Variable config : Config.

(** a selector of the list that does not show four inputs is passed *)
Lemma otp_selector_passed (selector : string) (s : State W) :
  (length (querySelectorAll (world s) selector) < 4)%nat ->
  tryCatch
    (inputs <- page_queryAll selector ;;
     if (4 <=? length inputs)%nat then
       logger.logSuccess ("Found " ++ ofNat (length inputs)
                          ++ " OTP inputs with selector: " ++ selector) ;;
       ret (Some inputs)
     else ret None)
    (fun _ => ret None) s = (Ok None, s).
Proof.
  intros H. apply tryCatch_ok. erewrite bind_ok by reflexivity.
  apply Nat.leb_gt in H. rewrite H. reflexivity.
Qed.


End OtpFields.

Section Login.
Context {W : Type} {B : Browser W}.
Variable config : Config.

Lemma elementExists_run selector (s : State W) :
  utils.elementExists selector s
    = (Ok (isSome (head (querySelectorAll (world s) selector))), s).
Proof. reflexivity. Qed.

(** a first attempt at a click that goes through *)
Lemma clickElement_first_attempt selector (s : State W) w1 w2 :
  perform (world s) (WaitForSelector selector true false utils.defaultTimeout) = (None, w1) ->
  perform w1 (Click selector) = (None, w2) ->
  utils.clickElement selector utils.defaultMaxRetries s
    = (Ok true,
       addLog (mkLog Info ("✅ Clicked element: " ++ selector)%string)
         (setWorld w2 (addEvent (clickEvent selector None)
            (setWorld w1 (addEvent (waitEvent selector None) s))))).
Proof.
  intros Hwait Hclick.
  unfold utils.clickElement, utils.defaultMaxRetries. rewrite clickElementFrom_step.
  apply tryCatch_ok. unfold utils.clickAttempt.
  erewrite bind_ok.
  2:{ unfold utils.waitForElementVisible. apply tryCatch_ok.
      erewrite bind_ok by (apply act_ok; exact Hwait). reflexivity. }
  erewrite bind_ok by (apply act_ok; exact Hclick).
  erewrite bind_ok by reflexivity. reflexivity.
Qed.

(** X10 -- The submission of the one-time code.  The submit selectors
    are tried in their order; the first that is on the page is clicked
    and, the click going through, the submission returns true.  When
    none is on the page the submission throws [Could not submit OTP], having
    done nothing; and whatever goes wrong with a click, it throws nothing
    but that error. *)
Theorem otp_submission_lookup (s : State W) :
  let present selector := isSome (head (querySelectorAll (world s) selector)) in
  (forall passed selector rest w1 w2,
     bot.submitSelectors = passed ++ selector :: rest ->
     Forall (fun x => present x = false) passed ->
     present selector = true ->
     perform (world s) (WaitForSelector selector true false utils.defaultTimeout) = (None, w1) ->
     perform w1 (Click selector) = (None, w2) ->
     fst (bot.submitOtp config s) = Ok true /\
     trace (snd (bot.submitOtp config s))
       = trace s ++ [waitEvent selector None; clickEvent selector None;
                     mkEvent (Delay (delayBetweenActions config)) None]) /\
  (Forall (fun x => present x = false) bot.submitSelectors ->
   fst (bot.submitOtp config s) = Throw otpNotSubmitted /\
   trace (snd (bot.submitOtp config s)) = trace s) /\
  throwsOnly otpNotSubmitted (bot.submitOtp (W:=W) config).
Proof.
  intros present. split; [| split].
  - intros passed selector rest w1 w2 Hsel Hpassed Hpresent Hwait Hclick.
    assert (E : exists s',
      bot.submitOtp config s = (Ok true, s') /\
      trace s' = trace s ++ [waitEvent selector None; clickEvent selector None;
                             mkEvent (Delay (delayBetweenActions config)) None]).
    { unfold bot.submitOtp. rewrite Hsel.
      erewrite bind_ok.
      2:{ rewrite forOf_skip.
          - cbn [forOf]. erewrite bind_ok.
            2:{ apply tryCatch_ok. erewrite bind_ok by apply elementExists_run. fold (present selector). rewrite Hpresent.
                erewrite bind_ok by (eapply clickElement_first_attempt; eassumption).
                erewrite bind_ok by reflexivity. reflexivity. }
            reflexivity.
          - intros x Hx. rewrite Forall_forall in Hpassed. apply tryCatch_ok.
            erewrite bind_ok by apply elementExists_run.
            fold (present x). rewrite (Hpassed x Hx). reflexivity. }
      cbv zeta. cbn [isSome negb].
      erewrite bind_ok by reflexivity.
      erewrite bind_ok by reflexivity.
      erewrite bind_ok by reflexivity.
      eexists. split; [reflexivity |].
      cbn [trace setWorld addEvent addLog]. rewrite <- !app_assoc. reflexivity. }
    destruct E as [s' [E T]]. rewrite E. auto.
  - intros Hnone. unfold bot.submitOtp.
    erewrite bind_ok.
    2:{ apply forOf_none. intros x Hx. rewrite Forall_forall in Hnone. apply tryCatch_ok.
        erewrite bind_ok by apply elementExists_run.
        fold (present x). rewrite (Hnone x Hx). reflexivity. }
    split; reflexivity.
  - throws_auto.
Qed.

(** lines 931-958: the test made on each input of the page *)
Let phoneScan : ElementHandle -> M W (option (option ElementHandle)) :=
  fun input =>
    tryCatch
      (let inputType := property input "type" in
       let inputId := property input "id" in
       let inputName := property input "name" in
       let inputPlaceholder := property input "placeholder" in
       logger.logInfo ("Input: type=" ++ inputType ++ ", id=" ++ inputId ++ ", name="
                       ++ inputName ++ ", placeholder=" ++ inputPlaceholder) ;;
       if (inputType =? "number")
          || includes inputId "phone"
          || includes inputName "number"
          || includes inputPlaceholder "number"
          || includes inputPlaceholder "phone"
       then
         logger.logSuccess ("Found phone input by attributes: type=" ++ inputType
                            ++ ", id=" ++ inputId) ;;
         ret (Some (Some input))
       else ret None)
      (fun _ => ret None).

Lemma phoneScan_passes input (st : State W) :
  looksLikePhoneField input = false ->
  exists st', phoneScan input st = (Ok None, st').
Proof.
  intros H. unfold phoneScan. eexists. apply tryCatch_ok. cbv zeta.
  erewrite bind_ok by reflexivity.
  change (_ || _ || _ || _ || _) with (looksLikePhoneField input). rewrite H. reflexivity.
Qed.

Lemma phoneScan_takes input (st : State W) :
  looksLikePhoneField input = true ->
  exists st', phoneScan input st = (Ok (Some (Some input)), st').
Proof.
  intros H. unfold phoneScan. eexists. apply tryCatch_ok. cbv zeta.
  erewrite bind_ok by reflexivity.
  change (_ || _ || _ || _ || _) with (looksLikePhoneField input). rewrite H.
  erewrite bind_ok by reflexivity. reflexivity.
Qed.

Lemma phoneScan_finds passed input rest (st : State W) :
  Forall (fun x => looksLikePhoneField x = false) passed ->
  looksLikePhoneField input = true ->
  exists st', forOf (passed ++ input :: rest) phoneScan st = (Ok (Some (Some input)), st').
Proof.
  intros Hpassed Hlooks. revert st.
  induction Hpassed as [| p passed Hp _ IH]; intros st; cbn [app forOf].
  - destruct (phoneScan_takes input st Hlooks) as [st' E].
    erewrite bind_ok by exact E. eexists. reflexivity.
  - destruct (phoneScan_passes p st Hp) as [st' E].
    erewrite bind_ok by exact E. apply IH.
Qed.

Lemma phoneScan_finds_none inputs (st : State W) :
  Forall (fun x => looksLikePhoneField x = false) inputs ->
  exists st', forOf inputs phoneScan st = (Ok None, st').
Proof.
  intros Hinputs. revert st.
  induction Hinputs as [| p inputs Hp _ IH]; intros st; cbn [forOf].
  - eexists. reflexivity.
  - destruct (phoneScan_passes p st Hp) as [st' E].
    erewrite bind_ok by exact E. apply IH.
Qed.


(** lines 991-1014: the test made on each button of the page *)
Let nextScan : nat * ElementHandle -> M W (option unit) :=
  fun '(i, button) =>
    tryCatch
      (let buttonText := textContent button in
       let buttonClass := className button in
       let buttonTag := tagName button in
       logger.logInfo ("Button " ++ ofNat (i + 1) ++ ": " ++ buttonTag ++ "." ++ buttonClass
                       ++ " - " ++ dq ++ buttonText ++ dq) ;;
       if includes (toLowerCase buttonText) "next" then
         logger.logSuccess ("Found Next button: " ++ buttonTag ++ "." ++ buttonClass
                            ++ " - " ++ dq ++ buttonText ++ dq) ;;
         bot.click button ;;
         logger.logSuccess "Clicked Next button directly" ;;
         ret (Some tt)
       else ret None)
      (fun _ => ret None).

Lemma nextScan_skips passed tail k (st : State W) :
  Forall (fun x => saysNext x = false) passed ->
  exists st',
    logged st st' /\
    forOf (combine (seq k (length (passed ++ tail))) (passed ++ tail)) nextScan st
    = forOf (combine (seq (k + length passed) (length tail)) tail) nextScan st'.
Proof.
  intros Hpassed. revert k st.
  induction Hpassed as [| p passed Hp _ IH]; intros k st.
  - exists st. split; [apply logged_refl |]. cbn [app length]. rewrite Nat.add_0_r. reflexivity.
  - cbn [app length seq combine forOf].
    erewrite bind_ok.
    2:{ unfold nextScan. apply tryCatch_ok. cbv zeta. erewrite bind_ok by reflexivity.
        fold (saysNext p). rewrite Hp. reflexivity. }
    cbv beta iota.
    match goal with |- context [forOf _ _ ?st1] =>
      destruct (IH (S k) st1) as [st' [L E]]
    end.
    exists st'. split.
    + eapply logged_trans; [apply logged_addLog | exact L].
    + rewrite E. rewrite Nat.add_succ_r. reflexivity.
Qed.


End Login.

(* ================================================================== *)
(** ** The primitives of [utils.js]                                    *)
(* ================================================================== *)

Section Primitives.
Context {W : Type} {B : Browser W}.

Lemma delayed_app t u : delayed (t ++ u) = (delayed t + delayed u)%Z.
Proof.
  induction t as [| v t IH]; [reflexivity |].
  cbn [app delayed]. rewrite IH. destruct (performed v); lia.
Qed.

Lemma failedAttempt_counts selector evs e :
  failedAttempt selector evs e -> attempts evs = 1%nat /\ delayed evs = 0%Z.
Proof. destruct 1; split; reflexivity. Qed.

Lemma attempts_app t u : attempts (t ++ u) = (attempts t + attempts u)%nat.
Proof. unfold attempts. rewrite filter_app, length_app. reflexivity. Qed.

(** a run that gives up has used every attempt, a second apart *)
Lemma clickRun_gives_up selector n evs e :
  clickRun selector n evs (Throw e) ->
  attempts evs = n /\ delayed evs = (1000 * (Z.of_nat n - 1))%Z.
Proof.
  remember (Throw e) as r eqn:Er.
  induction 1 as [n | evs e0 Hf | n evs e0 rest r Hf Hrun IH].
  - discriminate Er.
  - destruct (failedAttempt_counts _ _ _ Hf) as [Ha Hd]. split; [exact Ha | rewrite Hd; lia].
  - destruct (failedAttempt_counts _ _ _ Hf) as [Ha Hd].
    destruct (IH Er) as [Ha' Hd'].
    change (evs ++ pause :: rest) with (evs ++ [pause] ++ rest).
    rewrite !attempts_app, !delayed_app, Ha, Hd, Ha', Hd'.
    change (attempts [pause]) with 0%nat. change (delayed [pause]) with (1000 + 0)%Z.
    split; lia.
Qed.

Lemma clickRun_returns_true selector n evs b :
  clickRun selector n evs (Ok b) -> b = true.
Proof.
  remember (Ok b) as r eqn:Er.
  induction 1 as [n | evs e0 Hf | n evs e0 rest r Hf Hrun IH].
  - injection Er as <-. reflexivity.
  - discriminate Er.
  - auto.
Qed.

(** X13 -- The retry budget of [clickElement], for any number of
    attempts allowed.  With none allowed nothing is attempted and false
    is returned.  With [n] allowed, at least one, the run is a run of at
    most [n] attempts; when it returns it returns true; when it throws
    it has made exactly [n] attempts and has waited [n - 1] seconds
    between them in all. *)
Theorem clickElement_retry_budget selector (n : nat) (s : State W) :
  utils.clickElement selector 0 s = (Ok false, s) /\
  ((1 <= n)%nat ->
   exists evs,
     trace (snd (utils.clickElement selector n s)) = trace s ++ evs /\
     clickRun selector n evs (fst (utils.clickElement selector n s)) /\
     (attempts evs <= n)%nat /\
     (forall b, fst (utils.clickElement selector n s) = Ok b -> b = true) /\
     (forall e, fst (utils.clickElement selector n s) = Throw e ->
        attempts evs = n /\ delayed evs = (1000 * (Z.of_nat n - 1))%Z)).
Proof.
  split; [reflexivity |].
  intros Hn. destruct n as [| k]; [lia |].
  destruct (clickElementFrom_run selector (S k) k s) as [evs [Ht Hrun]]; [lia |].
  exists evs. unfold utils.clickElement.
  split; [exact Ht |]. split; [exact Hrun |]. split; [| split].
  - eapply clickRun_attempts; eauto.
  - intros b Hb. rewrite Hb in Hrun. eapply clickRun_returns_true; eauto.
  - intros e He. rewrite He in Hrun. eapply clickRun_gives_up; eauto.
Qed.

(** X14 -- [fillInput] and [selectOption] stop at the first step that
    fails.  [fillInput] waits for the field, focuses it, clears it and
    types the text, in that order; [selectOption] waits for the field
    and selects the value.  Each performs its steps up to the first that
    fails and no further; it returns true when none failed, and false
    when one did, after logging one error line that gives the failed
    step's message, or [Element not visible] when it is the wait that
    failed. *)
Theorem form_primitives_stop_at_first_failure (selector text : string) (s : State W) :
  let filled := utils.fillInput selector text s in
  let selected := utils.selectOption selector text s in
  let fillRun := performedInTurn (world s) (fillSteps selector text) in
  let selectRun := performedInTurn (world s) (selectSteps selector text) in
  trace (snd filled) = trace s ++ fst fillRun /\
  fst filled = Ok (negb (isSome (snd fillRun))) /\
  (fst filled = Ok true ->
   log (snd filled)
     = log s ++ [mkLog Info ("✅ Filled input " ++ selector ++ " with: " ++ text)%string]) /\
  (fst filled = Ok false ->
   log (snd filled)
     = log s ++ [mkLog Err ("❌ Failed to fill input " ++ selector ++ ": "
                            ++ reportedCause selector (last (fst fillRun) (waitEvent selector None)))%string]) /\
  trace (snd selected) = trace s ++ fst selectRun /\
  fst selected = Ok (negb (isSome (snd selectRun))) /\
  (fst selected = Ok false ->
   log (snd selected)
     = log s ++ [mkLog Err ("❌ Failed to select option from " ++ selector ++ ": "
                            ++ reportedCause selector (last (fst selectRun) (waitEvent selector None)))%string]).
Proof.
  cbv zeta.
  unfold utils.fillInput, utils.selectOption, utils.waitForElementVisible, tryCatch, bind,
    act, page_query, gets, logger.logSuccess, logger.logError, logger.write, modify, ret, throw,
    fillSteps, selectSteps.
  cbn [performedInTurn].
  destruct (perform (world s) (WaitForSelector selector true false utils.defaultTimeout))
    as [[e1 |] w1]; cbn [world setWorld addEvent fst snd].
  - cbn. repeat split; auto; discriminate.
  - destruct (perform w1 (Focus selector)) as [[e2 |] w2];
      destruct (perform w1 (Select selector text)) as [[e2' |] w2'];
      cbn [world setWorld addEvent fst snd];
      try (destruct (perform w2 (Clear selector)) as [[e3 |] w3];
           cbn [world setWorld addEvent fst snd];
           try (destruct (perform w3 (TypeText selector text)) as [[e4 |] w4]));
      cbn; rewrite <- ?app_assoc; repeat split; auto; discriminate.
Qed.

Lemma takeScreenshot_run filename (s : State W) :
  exists p path r s',
    utils.takeScreenshot filename s = (Ok p, s') /\
    trace s' = trace s ++ [mkEvent (Screenshot path true) r].
Proof.
  unfold utils.takeScreenshot, tryCatch, bind, gets, act, logger.logSuccess, logger.logError,
    logger.write, modify, ret.
  destruct (perform (world s) _) as [[e |] w1]; cbn;
    eexists _, _, _, _; split; reflexivity.
Qed.

Lemma dashColonsAndDots_length t :
  String.length (utils.dashColonsAndDots t) = String.length t.
Proof. induction t as [| c t IH]; cbn; congruence. Qed.

Lemma dashColonsAndDots_clean t :
  forallb (fun c => negb (isColonOrDot c)) (list_ascii_of_string (utils.dashColonsAndDots t))
    = true.
Proof.
  induction t as [| c t IH]; [reflexivity |].
  cbn [utils.dashColonsAndDots list_ascii_of_string forallb]. rewrite IH, andb_true_r.
  fold (isColonOrDot c). destruct (isColonOrDot c) eqn:E; [reflexivity |].
  rewrite E. reflexivity.
Qed.

(** X15 -- [takeScreenshot] never throws, and the path it writes to.
    The path is [screenshots/<name>_<stamp>.png], where the stamp is the
    time stamp of the page with every colon and dot turned into a dash:
    it has the length of the time stamp and holds no colon and no dot.
    When the screenshot goes through, the path is returned; when it
    fails, the failure is logged and null is returned. *)
Theorem screenshot_path_and_outcome (filename : string) (s : State W) :
  let stamp := utils.dashColonsAndDots (isoTimestamp (world s)) in
  let filepath := ("screenshots/" ++ filename ++ "_" ++ stamp ++ ".png")%string in
  String.length stamp = String.length (isoTimestamp (world s)) /\
  forallb (fun c => negb (isColonOrDot c)) (list_ascii_of_string stamp) = true /\
  trace (snd (utils.takeScreenshot filename s))
    = trace s ++ [mkEvent (Screenshot filepath true)
                    (fst (perform (world s) (Screenshot filepath true)))] /\
  match fst (perform (world s) (Screenshot filepath true)) with
  | None =>
      fst (utils.takeScreenshot filename s) = Ok (Some filepath) /\
      log (snd (utils.takeScreenshot filename s))
        = log s ++ [mkLog Info ("✅ Screenshot saved: " ++ filepath)%string]
  | Some e =>
      fst (utils.takeScreenshot filename s) = Ok None /\
      log (snd (utils.takeScreenshot filename s))
        = log s ++ [mkLog Err ("❌ Failed to take screenshot: " ++ message e)%string]
  end.
Proof.
  intros stamp filepath.
  split; [apply dashColonsAndDots_length |].
  split; [apply dashColonsAndDots_clean |].
  unfold utils.takeScreenshot, tryCatch, bind, gets, act, logger.logSuccess, logger.logError,
    logger.write, modify, ret.
  fold stamp. fold filepath.
  destruct (perform (world s) (Screenshot filepath true)) as [[e |] w1]; cbn; auto.
Qed.

End Primitives.

(* ================================================================== *)
(** ** After the login: the vehicle list and the booking page          *)
(* ================================================================== *)

Section AfterLogin.
Context {W : Type} {B : Browser W}.
Variable config : Config.

Lemma act_fails a (s : State W) e w' :
  perform (world s) a = (Some e, w') ->
  act a s = (Throw e, setWorld w' (addEvent (mkEvent a (Some e)) s)).
Proof. intros H. unfold act. rewrite H. reflexivity. Qed.

(** X16 -- A vehicle that does not take the click.  Post-login, the
    vehicle matched by the model is clicked after half a second; when
    that click fails, a scripted click on the same element is tried and,
    if it goes through, the selection goes on as if nothing had happened.
    When both fail, the selection throws [Could not click on vehicle
    element] with the message of the first click's error; that of the
    scripted click is only logged. *)
Theorem vehicle_click_falls_back (s : State W) (v : ElementHandle) rest :
  filter (xpathMatches (bot.vehicleSelector config)) (documentElements (world s)) = v :: rest ->
  let page := elapse (world s) 500 in
  (forall e1 w1 w2,
     perform page (ElementClick v 1) = (Some e1, w1) ->
     perform w1 (EvaluateClick v) = (None, w2) ->
     fst (bot.pickVehicleFromDropdown config s) = Ok tt /\
     trace (snd (bot.pickVehicleFromDropdown config s))
       = trace s ++ [mkEvent (Delay 500) None; mkEvent (ElementClick v 1) (Some e1);
                     scriptedClick v None]) /\
  (forall e1 e2 w1 w2,
     perform page (ElementClick v 1) = (Some e1, w1) ->
     perform w1 (EvaluateClick v) = (Some e2, w2) ->
     fst (bot.pickVehicleFromDropdown config s) = Throw (vehicleNotClicked e1) /\
     trace (snd (bot.pickVehicleFromDropdown config s))
       = trace s ++ [mkEvent (Delay 500) None; mkEvent (ElementClick v 1) (Some e1);
                     scriptedClick v (Some e2)] /\
     log (snd (bot.pickVehicleFromDropdown config s))
       = log s ++ [mkLog Warn ("⚠️ Failed to click vehicle element: " ++ message e1)%string;
                   mkLog Err ("❌ Alternative click method also failed: " ++ message e2)%string]).
Proof.
  intros Hexact page. split.
  - intros e1 w1 w2 Hclick Hscript.
    unfold bot.pickVehicleFromDropdown.
    erewrite bind_ok by reflexivity. cbv beta. unfold page_xpath. 
    change (filter _ (documentElements (world s)))
      with (filter (xpathMatches (bot.vehicleSelector config)) (documentElements (world s))).
    rewrite Hexact.
    unfold bot.clickVehicleOrFallback.
    erewrite tryCatch_throw.
    2:{ erewrite bind_ok by reflexivity. unfold bot.click.
        erewrite bind_throw by (apply act_fails; exact Hclick). reflexivity. }
    erewrite bind_ok by reflexivity.
    erewrite tryCatch_ok.
    2:{ erewrite bind_ok by (apply act_ok; exact Hscript). reflexivity. }
    cbn [fst snd trace setWorld addEvent addLog]. rewrite <- !app_assoc. auto.
  - intros e1 e2 w1 w2 Hclick Hscript.
    unfold bot.pickVehicleFromDropdown.
    erewrite bind_ok by reflexivity. cbv beta. unfold page_xpath.
    change (filter _ (documentElements (world s)))
      with (filter (xpathMatches (bot.vehicleSelector config)) (documentElements (world s))).
    rewrite Hexact.
    unfold bot.clickVehicleOrFallback.
    erewrite tryCatch_throw.
    2:{ erewrite bind_ok by reflexivity. unfold bot.click.
        erewrite bind_throw by (apply act_fails; exact Hclick). reflexivity. }
    erewrite bind_ok by reflexivity.
    erewrite tryCatch_throw.
    2:{ erewrite bind_throw by (apply act_fails; exact Hscript). reflexivity. }
    erewrite bind_ok by reflexivity.
    cbn [fst snd trace log setWorld addEvent addLog throw]. rewrite <- !app_assoc. auto.
Qed.


End AfterLogin.

(* ================================================================== *)
(** ** The rest of [utils.js]: texts and retries                       *)
(* ================================================================== *)

Section UtilsRest.
Context {W : Type} {B : Browser W}.


Lemma retryWithBackoffFrom_step A (fn : M W A) maxRetries baseDelay remaining :
  utils_rest.retryWithBackoffFrom fn maxRetries baseDelay (S remaining) =
  tryCatch
    (a <- fn ;; ret (Some a))
    (fun error =>
       if (maxRetries - remaining =? maxRetries)%nat then throw error
       else
         logger.logWarning ("Attempt " ++ ofNat (maxRetries - remaining)
                            ++ " failed, retrying in "
                            ++ ofZ (baseDelay * 2 ^ Z.of_nat (maxRetries - remaining - 1))
                            ++ "ms: " ++ message error)%string ;;
         utils.delay (baseDelay * 2 ^ Z.of_nat (maxRetries - remaining - 1)) ;;
         utils_rest.retryWithBackoffFrom fn maxRetries baseDelay remaining).
Proof. reflexivity. Qed.

Lemma backoffDelays_snoc baseDelay k :
  backoffDelays baseDelay (S k)
  = backoffDelays baseDelay k ++ [mkEvent (Delay (baseDelay * 2 ^ Z.of_nat k)) None].
Proof. unfold backoffDelays. rewrite seq_S, map_app. reflexivity. Qed.

(** the loop, from the attempt [done + 1] on *)
Lemma retryWithBackoffFrom_run A (fn : M W A) maxRetries baseDelay :
  traceless fn -> lands fn ->
  forall remaining done (s : State W),
    (done + S remaining = maxRetries)%nat ->
    forall t0, trace s = t0 ++ backoffDelays baseDelay done ->
    exists k,
      (done <= k < maxRetries)%nat /\
      trace (snd (utils_rest.retryWithBackoffFrom fn maxRetries baseDelay (S remaining) s))
        = t0 ++ backoffDelays baseDelay k /\
      ((exists a, fst (utils_rest.retryWithBackoffFrom fn maxRetries baseDelay (S remaining) s)
                  = Ok (Some a)) \/
       (k = (maxRetries - 1)%nat /\
        exists e, fst (utils_rest.retryWithBackoffFrom fn maxRetries baseDelay (S remaining) s)
                  = Throw e)).
Proof.
  intros Hquiet Hlands.
  induction remaining as [| r IH]; intros done s Hsum t0 Ht;
    pose proof (Hquiet s) as Hq; pose proof (Hlands s) as Hl;
    destruct (fn s) as [[a | e |] s1] eqn:E; cbn [fst snd] in Hq, Hl;
    try (exfalso; apply Hl; reflexivity).
  - assert (R : utils_rest.retryWithBackoffFrom fn maxRetries baseDelay 1 s
                = (Ok (Some a), s1))
      by (rewrite retryWithBackoffFrom_step; apply tryCatch_ok;
          erewrite bind_ok by exact E; reflexivity).
    rewrite R. exists done. split; [lia |]. split; [cbn [fst snd]; congruence |]. left. exists a. reflexivity.
  - assert (R : utils_rest.retryWithBackoffFrom fn maxRetries baseDelay 1 s
                = (Throw e, s1)).
    { rewrite retryWithBackoffFrom_step.
      erewrite tryCatch_throw by (apply bind_throw; exact E).
      replace (maxRetries - 0 =? maxRetries)%nat with true
        by (symmetry; apply Nat.eqb_eq; lia).
      reflexivity. }
    rewrite R. exists done. split; [lia |]. split; [cbn [fst snd]; congruence |].
    right. split; [lia | exists e; reflexivity].
  - assert (R : utils_rest.retryWithBackoffFrom fn maxRetries baseDelay (S (S r)) s
                = (Ok (Some a), s1))
      by (rewrite retryWithBackoffFrom_step; apply tryCatch_ok;
          erewrite bind_ok by exact E; reflexivity).
    rewrite R. exists done. split; [lia |]. split; [cbn [fst snd]; congruence |]. left. exists a. reflexivity.
  - assert (R : exists s2,
                utils_rest.retryWithBackoffFrom fn maxRetries baseDelay (S (S r)) s
                = utils_rest.retryWithBackoffFrom fn maxRetries baseDelay (S r) s2 /\
                trace s2 = trace s1 ++ [mkEvent (Delay (baseDelay * 2 ^ Z.of_nat done)) None]).
    { rewrite retryWithBackoffFrom_step.
      erewrite tryCatch_throw by (apply bind_throw; exact E).
      replace (maxRetries - S r =? maxRetries)%nat with false
        by (symmetry; apply Nat.eqb_neq; lia).
      replace (maxRetries - S r - 1)%nat with done by lia.
      erewrite bind_ok by reflexivity. erewrite bind_ok by reflexivity.
      eexists. split; reflexivity. }
    destruct R as [s2 [R T2]]. rewrite R.
    destruct (IH (S done) s2) with (t0 := t0) as [k [Hk [Htr Hout]]].
    + lia.
    + rewrite T2, Hq, Ht, backoffDelays_snoc, <- app_assoc. reflexivity.
    + exists k. split; [lia |]. split; [exact Htr | exact Hout].
Qed.

Lemma delayed_backoff baseDelay k :
  delayed (backoffDelays baseDelay k) = (baseDelay * (2 ^ Z.of_nat k - 1))%Z.
Proof.
  induction k as [| k IH]; [cbn; lia |].
  rewrite backoffDelays_snoc, delayed_app, IH. cbn [delayed performed].
  rewrite Nat2Z.inj_succ, Z.pow_succ_r by lia. lia.
Qed.

(** X19 -- [retryWithBackoff] doubles its delay.  With no attempt
    allowed, [fn] is not called and undefined is returned.  With
    [maxRetries] allowed, at least one, and a [fn] that performs no page
    action itself: the loop sees fewer than [maxRetries] failures before
    it ends; after the failure [i] it waits [baseDelay * 2^(i-1)]
    milliseconds, so that after [k] failures it has waited
    [baseDelay * (2^k - 1)] in all; and it ends by returning a result, or
    by throwing after [maxRetries - 1] delays, none following the last
    attempt. *)
Theorem retry_backoff_doubles A (fn : M W A) (maxRetries : nat) (baseDelay : Z) (s : State W) :
  utils_rest.retryWithBackoff fn 0 baseDelay s = (Ok None, s) /\
  (traceless fn -> lands fn -> (1 <= maxRetries)%nat ->
   let run := utils_rest.retryWithBackoff fn maxRetries baseDelay s in
   exists failures,
     (failures < maxRetries)%nat /\
     trace (snd run) = trace s ++ backoffDelays baseDelay failures /\
     delayed (backoffDelays baseDelay failures)
       = (baseDelay * (2 ^ Z.of_nat failures - 1))%Z /\
     ((exists a, fst run = Ok (Some a)) \/
      (failures = (maxRetries - 1)%nat /\ exists e, fst run = Throw e))).
Proof.
  split; [reflexivity |].
  intros Hquiet Hlands Hn run. subst run.
  destruct maxRetries as [| n]; [lia |].
  unfold utils_rest.retryWithBackoff.
  destruct (retryWithBackoffFrom_run A fn (S n) baseDelay Hquiet Hlands n 0 s)
    with (t0 := trace s) as [k [Hk [Htr Hout]]].
  - lia.
  - cbn. rewrite app_nil_r. reflexivity.
  - exists k. split; [lia |]. split; [exact Htr |]. split; [apply delayed_backoff | exact Hout].
Qed.

End UtilsRest.

(* ================================================================== *)
(** ** The scheduler's map of jobs                                     *)
(* ================================================================== *)

Section JobMap.
Context {V : Type}.
Implicit Types (m : list (string * V)) (key other : string) (v : V).

Lemma has_in key m : JsMap.has key m = true <-> In key (JsMap.keys m).
Proof.
  unfold JsMap.has, JsMap.keys.
  induction m as [| [k v] m IH]; cbn [JsMap.get map fst In isSome].
  - split; [discriminate | contradiction].
  - destruct (String.eqb_spec k key) as [-> | Hne]; cbn [isSome].
    + split; auto.
    + rewrite IH. split; [auto | intros [H | H]; [contradiction | exact H]].
Qed.

Lemma has_not_in key m : JsMap.has key m = false <-> ~ In key (JsMap.keys m).
Proof.
  rewrite <- has_in. destruct (JsMap.has key m); split; congruence.
Qed.

Lemma get_set_same key v m : JsMap.get key (JsMap.set key v m) = Some v.
Proof.
  induction m as [| [k v0] m IH]; cbn [JsMap.set JsMap.get].
  - rewrite String.eqb_refl. reflexivity.
  - destruct (String.eqb_spec k key) as [-> | Hne]; cbn [JsMap.get].
    + rewrite String.eqb_refl. reflexivity.
    + apply String.eqb_neq in Hne. rewrite Hne. exact IH.
Qed.

Lemma get_set_other key other v m :
  other <> key -> JsMap.get other (JsMap.set key v m) = JsMap.get other m.
Proof.
  intros Hne. induction m as [| [k v0] m IH]; cbn [JsMap.set JsMap.get].
  - destruct (String.eqb_spec key other); [congruence | reflexivity].
  - destruct (String.eqb_spec k key) as [-> | Hk]; cbn [JsMap.get].
    + destruct (String.eqb_spec key other); [congruence | reflexivity].
    + destruct (String.eqb_spec k other); [reflexivity | exact IH].
Qed.

Lemma get_delete_other key other m :
  other <> key -> JsMap.get other (JsMap.delete key m) = JsMap.get other m.
Proof.
  intros Hne. induction m as [| [k v0] m IH]; cbn [JsMap.delete JsMap.get]; [reflexivity |].
  destruct (String.eqb_spec k key) as [-> | Hk]; cbn [JsMap.get].
  - destruct (String.eqb_spec key other); [congruence | reflexivity].
  - destruct (String.eqb_spec k other); [reflexivity | exact IH].
Qed.

Lemma keys_delete key m :
  NoDup (JsMap.keys m) -> JsMap.keys (JsMap.delete key m) = withoutKey key (JsMap.keys m).
Proof.
  unfold JsMap.keys, withoutKey.
  induction m as [| [k v0] m IH]; intros Hnd; cbn [JsMap.delete map fst filter]; [reflexivity |].
  inversion Hnd as [| ? ? Hk Hrest]; subst.
  destruct (String.eqb_spec k key) as [-> | Hne]; cbn [negb map fst].
  - symmetry. apply forallb_filter_id. apply forallb_forall. intros x Hx.
    destruct (String.eqb_spec x key) as [-> | ?]; [contradiction | reflexivity].
  - rewrite IH by exact Hrest. reflexivity.
Qed.

Lemma keys_set_new key v m :
  ~ In key (JsMap.keys m) -> JsMap.keys (JsMap.set key v m) = JsMap.keys m ++ [key].
Proof.
  unfold JsMap.keys.
  induction m as [| [k v0] m IH]; intros Hnot; cbn [JsMap.set map fst app]; [reflexivity |].
  destruct (String.eqb_spec k key) as [-> | Hne].
  - exfalso. apply Hnot. left. reflexivity.
  - cbn [map fst]. rewrite IH; [reflexivity |]. intros Hin. apply Hnot. right. exact Hin.
Qed.

Lemma keys_set_known key v m :
  In key (JsMap.keys m) -> JsMap.keys (JsMap.set key v m) = JsMap.keys m.
Proof.
  unfold JsMap.keys.
  induction m as [| [k v0] m IH]; intros Hin; cbn [JsMap.set map fst]; [contradiction |].
  destruct (String.eqb_spec k key) as [-> | Hne]; cbn [map fst]; [reflexivity |].
  rewrite IH; [reflexivity |]. destruct Hin as [H | H]; [contradiction | exact H].
Qed.

Lemma withoutKey_not_in key names : ~ In key (withoutKey key names).
Proof.
  unfold withoutKey. intros Hin. apply filter_In in Hin. destruct Hin as [_ H].
  rewrite String.eqb_refl in H. discriminate H.
Qed.

Lemma withoutKey_absent key names : ~ In key names -> withoutKey key names = names.
Proof.
  intros Hnot. unfold withoutKey. apply forallb_filter_id. apply forallb_forall.
  intros x Hx. destruct (String.eqb_spec x key) as [-> | ?]; [contradiction | reflexivity].
Qed.

Lemma withoutKey_NoDup key names : NoDup names -> NoDup (withoutKey key names).
Proof. intros H. unfold withoutKey. apply NoDup_filter. exact H. Qed.

Lemma delete_absent key m : ~ In key (JsMap.keys m) -> JsMap.delete key m = m.
Proof.
  unfold JsMap.keys.
  induction m as [| [k v0] m IH]; intros Hnot; cbn [JsMap.delete]; [reflexivity |].
  destruct (String.eqb_spec k key) as [-> | Hne].
  - exfalso. apply Hnot. left. reflexivity.
  - rewrite IH; [reflexivity |]. intros Hin. apply Hnot. right. exact Hin.
Qed.

Lemma delete_set_new key v m :
  ~ In key (JsMap.keys m) -> JsMap.delete key (JsMap.set key v m) = m.
Proof.
  unfold JsMap.keys.
  induction m as [| [k v0] m IH]; intros Hnot; cbn [JsMap.set JsMap.delete].
  - rewrite String.eqb_refl. reflexivity.
  - destruct (String.eqb_spec k key) as [-> | Hne].
    + exfalso. apply Hnot. left. reflexivity.
    + cbn [JsMap.delete]. apply String.eqb_neq in Hne. rewrite Hne.
      rewrite IH; [reflexivity |]. intros Hin. apply Hnot. right. exact Hin.
Qed.

Lemma delete_set key v m : JsMap.delete key (JsMap.set key v m) = JsMap.delete key m.
Proof.
  induction m as [| [k v0] m IH]; cbn [JsMap.set JsMap.delete].
  - rewrite String.eqb_refl. reflexivity.
  - destruct (String.eqb_spec k key) as [-> | Hne]; cbn [JsMap.delete].
    + rewrite String.eqb_refl. reflexivity.
    + apply String.eqb_neq in Hne. rewrite Hne, IH. reflexivity.
Qed.

Lemma set_set key v v' m : JsMap.set key v' (JsMap.set key v m) = JsMap.set key v' m.
Proof.
  induction m as [| [k v0] m IH]; cbn [JsMap.set].
  - rewrite String.eqb_refl. reflexivity.
  - destruct (String.eqb_spec k key) as [-> | Hne]; cbn [JsMap.set].
    + rewrite String.eqb_refl. reflexivity.
    + apply String.eqb_neq in Hne. rewrite Hne, IH. reflexivity.
Qed.

End JobMap.

Section Jobs.
Variable validate : string -> bool.
Import BotScheduler.

Lemma andThen_ok A C (m : Op A) (k : A -> Op C) sch a sch1 :
  m sch = (Ok a, sch1) -> andThen m k sch = k a sch1.
Proof. intros H. unfold andThen. rewrite H. reflexivity. Qed.

Lemma catch_ok A (m : Op A) h sch a sch1 :
  m sch = (Ok a, sch1) -> catch m h sch = (Ok a, sch1).
Proof. intros H. unfold catch. rewrite H. reflexivity. Qed.

Lemma stopJob_unknown jobName (sch : Scheduler) :
  JsMap.get jobName (scheduledJobs sch) = None ->
  stopJob jobName sch = (Ok false, sch).
Proof.
  intros H. unfold stopJob. apply catch_ok.
  erewrite andThen_ok by reflexivity. rewrite H. reflexivity.
Qed.

Lemma stopJob_known jobName job (sch : Scheduler) :
  JsMap.get jobName (scheduledJobs sch) = Some job ->
  stopJob jobName sch
  = (Ok true,
     mkScheduler (JsMap.delete jobName (scheduledJobs sch))
                 (printed sch ++ [jobStopped jobName])
                 (asked sch ++ [Stopped jobName])).
Proof.
  intros H. unfold stopJob. apply catch_ok.
  erewrite andThen_ok by reflexivity. rewrite H.
  cbn. rewrite delete_set. reflexivity.
Qed.

Lemma scheduleJob_valid cronExpression jobName (sch : Scheduler) :
  validate cronExpression = true ->
  scheduleJob validate cronExpression jobName sch
  = (Ok true,
     mkScheduler
       (JsMap.set jobName (scheduledTask cronExpression)
          (JsMap.delete jobName (scheduledJobs sch)))
       (printed sch
        ++ schedulingLines cronExpression jobName (JsMap.has jobName (scheduledJobs sch)))
       (asked sch
        ++ (if JsMap.has jobName (scheduledJobs sch) then [Stopped jobName] else [])
        ++ [Started jobName cronExpression])).
Proof.
  intros Hvalid. unfold scheduleJob. apply catch_ok.
  erewrite andThen_ok by reflexivity. rewrite Hvalid. cbn [negb].
  erewrite andThen_ok by reflexivity.
  erewrite andThen_ok by reflexivity.
  cbn [scheduledJobs]. unfold schedulingLines.
  destruct (JsMap.get jobName (scheduledJobs sch)) as [job |] eqn:Eget.
  - assert (Hhas : JsMap.has jobName (scheduledJobs sch) = true)
      by (unfold JsMap.has; rewrite Eget; reflexivity).
    rewrite Hhas.
    erewrite andThen_ok.
    2:{ erewrite andThen_ok by (eapply stopJob_known; cbn [scheduledJobs]; exact Eget).
        reflexivity. }
    cbn. rewrite set_set, <- !app_assoc. reflexivity.
  - assert (Hhas : JsMap.has jobName (scheduledJobs sch) = false)
      by (unfold JsMap.has; rewrite Eget; reflexivity).
    rewrite Hhas.
    erewrite andThen_ok by reflexivity.
    cbn. rewrite set_set, <- !app_assoc.
    rewrite delete_absent by (apply has_not_in; exact Hhas). reflexivity.
Qed.

Lemma invalid_cron_unchanged cronExpression jobName (sch : Scheduler) :
  validate cronExpression = false ->
  scheduledJobs (snd (scheduleJob validate cronExpression jobName sch)) = scheduledJobs sch /\
  asked (snd (scheduleJob validate cronExpression jobName sch)) = asked sch.
Proof.
  intros Hinvalid. unfold scheduleJob, catch.
  erewrite andThen_ok by reflexivity. rewrite Hinvalid. cbn. auto.
Qed.

(** X20 -- An expression that node-cron does not accept schedules
    nothing.  [scheduleJob] returns false; the map of jobs is what it
    was, the job of that name included, and nothing was started or
    stopped; the refusal is logged. *)
Theorem invalid_cron_changes_nothing cronExpression jobName (sch : Scheduler) :
  validate cronExpression = false ->
  fst (scheduleJob validate cronExpression jobName sch) = Ok false /\
  scheduledJobs (snd (scheduleJob validate cronExpression jobName sch)) = scheduledJobs sch /\
  asked (snd (scheduleJob validate cronExpression jobName sch)) = asked sch /\
  printed (snd (scheduleJob validate cronExpression jobName sch))
    = printed sch
      ++ [mkLog Info ("🔄 Scheduling job: " ++ jobName ++ " with cron: " ++ cronExpression);
          mkLog Err ("Failed to schedule job: " ++ jobName ++ ": Invalid cron expression: "
                     ++ cronExpression)].
Proof.
  intros Hinvalid. unfold scheduleJob, catch.
  erewrite andThen_ok by reflexivity. rewrite Hinvalid. cbn.
  rewrite <- app_assoc. auto.
Qed.

(** X21 -- Scheduling a job under a name.  With an expression that is
    accepted, [scheduleJob] returns true; the name then stands for one
    running task with that expression, in the time zone of Vancouver;
    the name comes last in the order of the jobs, the other names
    keeping theirs, and the other jobs are what they were; and the task
    that stood under the name before, if any, was stopped before the new
    one was started. *)
Theorem schedule_job_replaces cronExpression jobName (sch : Scheduler) :
  validate cronExpression = true ->
  NoDup (JsMap.keys (scheduledJobs sch)) ->
  let after := snd (scheduleJob validate cronExpression jobName sch) in
  fst (scheduleJob validate cronExpression jobName sch) = Ok true /\
  JsMap.get jobName (scheduledJobs after) = Some (scheduledTask cronExpression) /\
  JsMap.keys (scheduledJobs after)
    = withoutKey jobName (JsMap.keys (scheduledJobs sch)) ++ [jobName] /\
  NoDup (JsMap.keys (scheduledJobs after)) /\
  (forall other, other <> jobName ->
     JsMap.get other (scheduledJobs after) = JsMap.get other (scheduledJobs sch)) /\
  asked after
    = asked sch
      ++ (if JsMap.has jobName (scheduledJobs sch) then [Stopped jobName] else [])
      ++ [Started jobName cronExpression].
Proof.
  intros Hvalid Hnd after. subst after.
  rewrite (scheduleJob_valid _ _ _ Hvalid). cbn [fst snd scheduledJobs asked].
  assert (Hkeys : JsMap.keys (JsMap.set jobName (scheduledTask cronExpression)
                                (JsMap.delete jobName (scheduledJobs sch)))
                  = withoutKey jobName (JsMap.keys (scheduledJobs sch)) ++ [jobName]).
  { rewrite keys_set_new; rewrite keys_delete by exact Hnd;
      [reflexivity | apply withoutKey_not_in]. }
  split; [reflexivity |]. split; [apply get_set_same |]. split; [exact Hkeys |].
  split; [| split; [| reflexivity]].
  - rewrite Hkeys. apply NoDup_app.
    + apply withoutKey_NoDup. exact Hnd.
    + constructor; [intros [] | constructor].
    + intros x Hx [<- | []]. exact (withoutKey_not_in _ _ Hx).
  - intros other Hne. rewrite get_set_other, get_delete_other by exact Hne. reflexivity.
Qed.

Lemma live_app jobName a b : live jobName (a ++ b) = (live jobName a + live jobName b)%Z.
Proof.
  induction a as [| [name expr | name] a IH]; cbn [app live]; [reflexivity | |];
    rewrite IH; lia.
Qed.

Lemma live_stopped_all jobName names :
  NoDup names ->
  live jobName (map Stopped names) = if in_dec string_dec jobName names then (-1)%Z else 0%Z.
Proof.
  induction 1 as [| name names Hnot Hnd IH]; [reflexivity |].
  cbn [map live]. rewrite IH.
  destruct (String.eqb_spec name jobName) as [-> | Hne].
  - destruct (in_dec string_dec jobName names) as [Hin | _]; [contradiction |].
    destruct (in_dec string_dec jobName (jobName :: names)) as [_ | Hout]; [lia |].
    exfalso. apply Hout. left. reflexivity.
  - destruct (in_dec string_dec jobName names) as [Hin | Hout];
      destruct (in_dec string_dec jobName (name :: names)) as [Hin' | Hout']; try lia.
    + exfalso. apply Hout'. right. exact Hin.
    + destruct Hin' as [E | Hin']; [contradiction | contradiction].
Qed.

Lemma has_delete_same jobName (jobs : list (string * Task)) :
  NoDup (JsMap.keys jobs) -> JsMap.has jobName (JsMap.delete jobName jobs) = false.
Proof.
  intros Hnd. apply has_not_in. rewrite keys_delete by exact Hnd. apply withoutKey_not_in.
Qed.

Lemma has_delete_other jobName other (jobs : list (string * Task)) :
  other <> jobName -> JsMap.has other (JsMap.delete jobName jobs) = JsMap.has other jobs.
Proof. intros H. unfold JsMap.has. rewrite get_delete_other by exact H. reflexivity. Qed.

Lemma has_set_same jobName task (jobs : list (string * Task)) :
  JsMap.has jobName (JsMap.set jobName task jobs) = true.
Proof. unfold JsMap.has. rewrite get_set_same. reflexivity. Qed.

Lemma has_set_other jobName other task (jobs : list (string * Task)) :
  other <> jobName -> JsMap.has other (JsMap.set jobName task jobs) = JsMap.has other jobs.
Proof. intros H. unfold JsMap.has. rewrite get_set_other by exact H. reflexivity. Qed.

Lemma running_delete jobName (jobs : list (string * Task)) :
  Forall (fun entry => running (snd entry) = true) jobs ->
  Forall (fun entry => running (snd entry) = true) (JsMap.delete jobName jobs).
Proof.
  induction 1 as [| [k v] jobs Hv Hrest IH]; cbn [JsMap.delete]; [constructor |].
  destruct (k =? jobName)%string; [exact Hrest | constructor; assumption].
Qed.

Lemma running_set jobName task (jobs : list (string * Task)) :
  running task = true ->
  Forall (fun entry => running (snd entry) = true) jobs ->
  Forall (fun entry => running (snd entry) = true) (JsMap.set jobName task jobs).
Proof.
  intros Ht. induction 1 as [| [k v] jobs Hv Hrest IH]; cbn [JsMap.set].
  - constructor; [exact Ht | constructor].
  - destruct (k =? jobName)%string; constructor; assumption.
Qed.

Lemma keys_after_scheduling cronExpression jobName (jobs : list (string * Task)) :
  NoDup (JsMap.keys jobs) ->
  JsMap.keys (JsMap.set jobName (scheduledTask cronExpression) (JsMap.delete jobName jobs))
  = withoutKey jobName (JsMap.keys jobs) ++ [jobName].
Proof.
  intros Hnd. rewrite keys_set_new; rewrite keys_delete by exact Hnd;
    [reflexivity | apply withoutKey_not_in].
Qed.

Lemma NoDup_after_scheduling jobName (names : list string) :
  NoDup names -> NoDup (withoutKey jobName names ++ [jobName]).
Proof.
  intros Hnd. apply NoDup_app.
  - apply withoutKey_NoDup. exact Hnd.
  - constructor; [intros [] | constructor].
  - intros x Hx [<- | []]. exact (withoutKey_not_in _ _ Hx).
Qed.

Lemma inOrder_scheduleJob cronExpression jobName (sch : Scheduler) :
  inOrder sch -> inOrder (snd (scheduleJob validate cronExpression jobName sch)).
Proof.
  intros [Hnd [Hrun Hlive]].
  destruct (validate cronExpression) eqn:Hvalid.
  - rewrite (scheduleJob_valid _ _ _ Hvalid). cbn [snd]. unfold inOrder.
    cbn [scheduledJobs asked]. split; [| split].
    + rewrite keys_after_scheduling by exact Hnd. apply NoDup_after_scheduling. exact Hnd.
    + apply running_set; [reflexivity |]. apply running_delete. exact Hrun.
    + intros name. rewrite !live_app, Hlive.
      destruct (string_dec name jobName) as [-> | Hne].
      * rewrite has_set_same.
        destruct (JsMap.has jobName (scheduledJobs sch)); cbn [live];
          rewrite String.eqb_refl; lia.
      * rewrite has_set_other, has_delete_other by exact Hne.
        assert (Hneq : (jobName =? name)%string = false)
          by (apply String.eqb_neq; congruence).
        destruct (JsMap.has jobName (scheduledJobs sch)); cbn [live]; rewrite Hneq;
          destruct (JsMap.has name (scheduledJobs sch)); lia.
  - destruct (invalid_cron_unchanged cronExpression jobName sch Hvalid) as [Hj Ha].
    unfold inOrder. rewrite Hj, Ha. auto.
Qed.

Lemma inOrder_stopJob jobName (sch : Scheduler) :
  inOrder sch -> inOrder (snd (stopJob jobName sch)).
Proof.
  intros [Hnd [Hrun Hlive]].
  destruct (JsMap.get jobName (scheduledJobs sch)) as [job |] eqn:Eget.
  - rewrite (stopJob_known _ _ _ Eget). cbn [snd]. unfold inOrder. cbn [scheduledJobs asked].
    assert (Hhas : JsMap.has jobName (scheduledJobs sch) = true)
      by (unfold JsMap.has; rewrite Eget; reflexivity).
    split; [| split].
    + rewrite keys_delete by exact Hnd. apply withoutKey_NoDup. exact Hnd.
    + apply running_delete. exact Hrun.
    + intros name. rewrite live_app, Hlive. cbn [live].
      destruct (string_dec name jobName) as [-> | Hne].
      * rewrite has_delete_same by exact Hnd. rewrite Hhas, String.eqb_refl. lia.
      * rewrite has_delete_other by exact Hne.
        assert (Hneq : (jobName =? name)%string = false)
          by (apply String.eqb_neq; congruence).
        rewrite Hneq. destruct (JsMap.has name (scheduledJobs sch)); lia.
  - rewrite (stopJob_unknown _ _ Eget). split; [| split]; assumption.
Qed.

Lemma stop_each (jobs : list (string * Task)) (sch : Scheduler) :
  exists stored,
    forEach jobs (fun '(jobName, job) =>
      stopTask jobName job ;; logSuccess ("Job stopped: " ++ jobName))%sched sch
    = (Ok tt,
       mkScheduler stored
                   (printed sch ++ map jobStopped (JsMap.keys jobs))
                   (asked sch ++ map Stopped (JsMap.keys jobs))).
Proof.
  revert sch. induction jobs as [| [jobName job] jobs IH]; intros sch.
  - exists (scheduledJobs sch). cbn. rewrite !app_nil_r. destruct sch; reflexivity.
  - cbn [forEach]. erewrite andThen_ok by reflexivity.
    match goal with |- context [forEach jobs _ ?st] => destruct (IH st) as [stored E] end.
    exists stored. rewrite E. cbn. rewrite <- !app_assoc. reflexivity.
Qed.

Lemma stopAllJobs_run (sch : Scheduler) :
  stopAllJobs sch
  = (Ok true,
     mkScheduler []
                 (printed sch ++ map jobStopped (JsMap.keys (scheduledJobs sch)))
                 (asked sch ++ map Stopped (JsMap.keys (scheduledJobs sch)))).
Proof.
  unfold stopAllJobs. apply catch_ok.
  erewrite andThen_ok by reflexivity.
  destruct (stop_each (scheduledJobs sch) sch) as [stored E].
  erewrite andThen_ok by exact E.
  reflexivity.
Qed.

Lemma inOrder_stopAllJobs (sch : Scheduler) :
  inOrder sch -> inOrder (snd (stopAllJobs sch)).
Proof.
  intros [Hnd [Hrun Hlive]]. rewrite stopAllJobs_run. cbn [snd]. unfold inOrder.
  cbn [scheduledJobs asked]. split; [constructor | split; [constructor |]].
  intros name. rewrite live_app, Hlive, (live_stopped_all _ _ Hnd).
  cbn [JsMap.has JsMap.get isSome].
  destruct (in_dec string_dec name (JsMap.keys (scheduledJobs sch))) as [Hin | Hout].
  - apply has_in in Hin. rewrite Hin. lia.
  - apply has_not_in in Hout. rewrite Hout. lia.
Qed.

(** X22 -- Stopping a job.  [stopJob] on a name that stands for no job
    returns false and changes nothing.  On a name that stands for a job
    it stops the task, forgets the name and returns true, the other jobs
    staying as they are.  And a job scheduled under a name that was free
    and then stopped leaves the map of jobs as it was before. *)
Theorem stop_job_forgets_the_name jobName (sch : Scheduler) :
  NoDup (JsMap.keys (scheduledJobs sch)) ->
  (JsMap.get jobName (scheduledJobs sch) = None ->
   stopJob jobName sch = (Ok false, sch)) /\
  (forall job,
     JsMap.get jobName (scheduledJobs sch) = Some job ->
     fst (stopJob jobName sch) = Ok true /\
     JsMap.get jobName (scheduledJobs (snd (stopJob jobName sch))) = None /\
     JsMap.keys (scheduledJobs (snd (stopJob jobName sch)))
       = withoutKey jobName (JsMap.keys (scheduledJobs sch)) /\
     (forall other, other <> jobName ->
        JsMap.get other (scheduledJobs (snd (stopJob jobName sch)))
        = JsMap.get other (scheduledJobs sch)) /\
     asked (snd (stopJob jobName sch)) = asked sch ++ [Stopped jobName]) /\
  (forall cronExpression,
     validate cronExpression = true ->
     JsMap.has jobName (scheduledJobs sch) = false ->
     scheduledJobs (snd (stopJob jobName (snd (scheduleJob validate cronExpression jobName sch))))
     = scheduledJobs sch).
Proof.
  intros Hnd. split; [apply stopJob_unknown | split].
  - intros job Hget. rewrite (stopJob_known _ _ _ Hget). cbn [fst snd scheduledJobs asked].
    split; [reflexivity |]. split; [| split; [| split; [| reflexivity]]].
    + pose proof (has_delete_same jobName _ Hnd) as H. unfold JsMap.has in H.
      destruct (JsMap.get jobName (JsMap.delete jobName (scheduledJobs sch)));
        [discriminate H | reflexivity].
    + apply keys_delete. exact Hnd.
    + intros other Hne. apply get_delete_other. exact Hne.
  - intros cronExpression Hvalid Hfree.
    rewrite (scheduleJob_valid _ _ _ Hvalid). cbn [snd].
    erewrite stopJob_known by (cbn [scheduledJobs]; apply get_set_same).
    cbn [snd scheduledJobs].
    apply has_not_in in Hfree.
    rewrite (delete_absent _ _ Hfree). apply delete_set_new. exact Hfree.
Qed.

(** X23 -- The scheduler stays in order.  A scheduler just built is in
    order, and [scheduleJob], whatever the expression, [stopJob],
    [stopAllJobs] and [startDefaultScheduler] keep it so: a name is
    stored once, every stored task is running, and the tasks started and
    not stopped since are those of the map, one for each name. *)
Theorem scheduler_stays_in_order :
  inOrder fresh /\
  forall sch, inOrder sch ->
    (forall cronExpression jobName,
       inOrder (snd (scheduleJob validate cronExpression jobName sch))) /\
    (forall jobName, inOrder (snd (stopJob jobName sch))) /\
    inOrder (snd (stopAllJobs sch)) /\
    (forall time jobName, inOrder (snd (scheduleDaily validate time jobName sch))) /\
    (forall minutes jobName, inOrder (snd (scheduleInterval validate minutes jobName sch))) /\
    (forall days time jobName,
       inOrder (snd (scheduleWeekly validate days time jobName sch))) /\
    inOrder (snd (startDefaultScheduler validate sch)).
Proof.
  split.
  - unfold inOrder, fresh. cbn. split; [constructor | split; [constructor | reflexivity]].
  - intros sch H.
    split; [intros; apply inOrder_scheduleJob; exact H |].
    split; [intros; apply inOrder_stopJob; exact H |].
    split; [apply inOrder_stopAllJobs; exact H |].
    split; [intros; apply inOrder_scheduleJob; exact H |].
    split; [intros; apply inOrder_scheduleJob; exact H |].
    split; [intros; apply inOrder_scheduleJob; exact H |].
    unfold startDefaultScheduler, andThen.
    cbn [logStep print update].
    match goal with |- context [scheduleDaily validate "08:00" "morning_booking" ?st] =>
      assert (H0 : inOrder st) by exact H;
      pose proof (inOrder_scheduleJob "00 08 * * *" "morning_booking" st H0) as H1;
      change (scheduleJob validate "00 08 * * *" "morning_booking" st)
        with (scheduleDaily validate "08:00" "morning_booking" st) in H1;
      destruct (scheduleDaily validate "08:00" "morning_booking" st) as [[b1 | e1 |] s1]
    end; cbn [snd] in *; [| exact H1 | exact H1].
    pose proof (inOrder_scheduleJob "30 08 * * *" "backup_booking" s1 H1) as H2.
    change (scheduleJob validate "30 08 * * *" "backup_booking" s1)
      with (scheduleDaily validate "08:30" "backup_booking" s1) in H2.
    destruct (scheduleDaily validate "08:30" "backup_booking" s1) as [[b2 | e2 |] s2];
      cbn [snd] in *; [| exact H2 | exact H2].
    pose proof (inOrder_scheduleJob "00 18 * * *" "evening_check" s2 H2) as H3.
    change (scheduleJob validate "00 18 * * *" "evening_check" s2)
      with (scheduleDaily validate "18:00" "evening_check" s2) in H3.
    destruct (scheduleDaily validate "18:00" "evening_check" s2) as [[b3 | e3 |] s3];
      cbn [snd] in *; [| exact H3 | exact H3].
    exact H3.
Qed.

(** X24 -- [stopAllJobs] stops every job and forgets them all.  It
    returns true; each job of the map is stopped once, in the order of
    the map, and a line is logged for each; afterwards the map is empty,
    [getScheduledJobs] gives no name and [getJobStatus] says of every
    name that it does not exist. *)
Theorem stop_all_jobs_empties_the_map (sch : Scheduler) :
  let names := JsMap.keys (scheduledJobs sch) in
  let after := snd (stopAllJobs sch) in
  fst (stopAllJobs sch) = Ok true /\
  scheduledJobs after = [] /\
  asked after = asked sch ++ map Stopped names /\
  printed after = printed sch ++ map jobStopped names /\
  fst (getScheduledJobs after) = Ok [] /\
  forall jobName, fst (getJobStatus jobName after) = Ok (false, false).
Proof.
  intros names after. subst names after. rewrite stopAllJobs_run.
  cbn. repeat split; reflexivity.
Qed.

End Jobs.

(* ================================================================== *)
(** ** The cron expressions of the scheduler                           *)
(* ================================================================== *)

Section CronExpressions.
Variable validate : string -> bool.

Lemma split_whole s : hasNoColon s = true -> split ":" s = [s].
Proof.
  unfold hasNoColon. induction s as [| c s IH]; [reflexivity |].
  cbn [list_ascii_of_string forallb split]. intros H. apply andb_prop in H. destruct H as [Hc Hs].
  apply negb_true_iff in Hc. rewrite Hc, (IH Hs). reflexivity.
Qed.

Lemma split_at_colon h rest :
  hasNoColon h = true -> split ":" (h ++ String ":" rest) = h :: split ":" rest.
Proof.
  unfold hasNoColon. induction h as [| c h IH]; intros H.
  - reflexivity.
  - cbn [list_ascii_of_string forallb] in H. apply andb_prop in H. destruct H as [Hc Hh].
    apply negb_true_iff in Hc.
    cbn [append split]. rewrite Hc, (IH Hh). reflexivity.
Qed.

(** X25 -- The cron expressions.  A time [HH:MM] gives the expression
    [MM HH * * *] for a daily job and [MM HH * * d1,d2,...] for a weekly
    one; what follows a second colon is dropped.  A time with no colon
    has no minute: the expression then starts with [undefined]. *)
Theorem cron_expression_of_a_time (hour minute : string) :
  hasNoColon hour = true ->
  hasNoColon minute = true ->
  (forall jobName,
     BotScheduler.scheduleDaily validate (hour ++ ":" ++ minute) jobName
     = BotScheduler.scheduleJob validate (minute ++ " " ++ hour ++ " * * *") jobName) /\
  (forall seconds jobName,
     BotScheduler.scheduleDaily validate (hour ++ ":" ++ minute ++ ":" ++ seconds) jobName
     = BotScheduler.scheduleJob validate (minute ++ " " ++ hour ++ " * * *") jobName) /\
  (forall days jobName,
     BotScheduler.scheduleWeekly validate days (hour ++ ":" ++ minute) jobName
     = BotScheduler.scheduleJob validate
         (minute ++ " " ++ hour ++ " * * " ++ join "," (map ofZ days)) jobName) /\
  (forall jobName,
     BotScheduler.scheduleDaily validate hour jobName
     = BotScheduler.scheduleJob validate ("undefined " ++ hour ++ " * * *") jobName).
Proof.
  intros Hh Hm. split; [| split; [| split]].
  - intros jobName. unfold BotScheduler.scheduleDaily.
    change (hour ++ ":" ++ minute)%string with (hour ++ String ":" minute)%string.
    rewrite (split_at_colon _ _ Hh), (split_whole _ Hm). reflexivity.
  - intros seconds jobName. unfold BotScheduler.scheduleDaily.
    change (hour ++ ":" ++ minute ++ ":" ++ seconds)%string
      with (hour ++ String ":" (minute ++ String ":" seconds))%string.
    rewrite (split_at_colon _ _ Hh), (split_at_colon _ _ Hm). reflexivity.
  - intros days jobName. unfold BotScheduler.scheduleWeekly.
    change (hour ++ ":" ++ minute)%string with (hour ++ String ":" minute)%string.
    rewrite (split_at_colon _ _ Hh), (split_whole _ Hm). reflexivity.
  - intros jobName. unfold BotScheduler.scheduleDaily.
    rewrite (split_whole _ Hh). reflexivity.
Qed.

End CronExpressions.

(* ================================================================== *)
(** ** The configuration                                               *)
(* ================================================================== *)

Section Configuration.

Lemma leadingDigits_uint d :
  config.leadingDigits 10 (NilEmpty.string_of_uint d) = uintDigits d.
Proof.
  induction d; cbn [NilEmpty.string_of_uint config.leadingDigits uintDigits];
    try reflexivity; rewrite IHd; reflexivity.
Qed.

Lemma fold_uintDigits d acc :
  fold_left (fun a x => a * 10 + x)%Z (uintDigits d) (Z.of_nat acc)
  = Z.of_nat (Nat.of_uint_acc d acc).
Proof.
  revert acc. induction d; intros acc; cbn [uintDigits fold_left Nat.of_uint_acc];
    try reflexivity;
    rewrite <- IHd; f_equal; rewrite ?Nat.tail_mul_spec; lia.
Qed.

Lemma digitsValue_uint d :
  config.digitsValue 10 (uintDigits d) = Z.of_nat (Nat.of_uint d).
Proof. unfold config.digitsValue, Nat.of_uint. apply (fold_uintDigits d 0). Qed.

Lemma isDigit_cases c :
  isDigit c = true ->
  In c ["0"; "1"; "2"; "3"; "4"; "5"; "6"; "7"; "8"; "9"]%char.
Proof.
  destruct c as [[] [] [] [] [] [] [] []]; intros H; try discriminate H; cbn;
    repeat (first [left; reflexivity | right]).
Qed.

Lemma digitValue_digit c :
  isDigit c = true -> exists d, config.digitValue 10 c = Some d.
Proof.
  destruct c as [[] [] [] [] [] [] [] []]; intros H; try discriminate H;
    vm_compute; eexists; reflexivity.
Qed.

Lemma allDigits_uint d : allDigits (NilEmpty.string_of_uint d) = true.
Proof.
  unfold allDigits. induction d; cbn [NilEmpty.string_of_uint list_ascii_of_string forallb];
    try reflexivity; rewrite IHd; reflexivity.
Qed.

Lemma digit_is_no_space c : isDigit c = true -> isSpace c = false.
Proof.
  destruct c as [[] [] [] [] [] [] [] []]; intros H; try discriminate H;
    vm_compute; reflexivity.
Qed.

(** [parseInt] on a string of decimal digits *)
Lemma parseInt_digits s :
  allDigits s = true -> s <> EmptyString ->
  config.parseInt s = Some (config.digitsValue 10 (config.leadingDigits 10 s)).
Proof.
  unfold allDigits. destruct s as [| c rest]; [congruence |]. intros H _.
  cbn [list_ascii_of_string forallb] in H. apply andb_prop in H. destruct H as [Hc Hrest].
  assert (Hfirst : exists d ds, config.leadingDigits 10 (String c rest) = d :: ds).
  { destruct (digitValue_digit c Hc) as [d Hd]. cbn [config.leadingDigits]. rewrite Hd. eauto. }
  destruct Hfirst as [d [ds Hds]].
  unfold config.parseInt. cbn [trimStart]. rewrite (digit_is_no_space c Hc).
  pose proof (isDigit_cases c Hc) as Hd. cbn [In] in Hd.
  destruct rest as [| c2 rest2].
  - decompose [or] Hd; subst; try contradiction; cbv beta iota zeta;
      rewrite Hds; reflexivity.
  - cbn [list_ascii_of_string forallb] in Hrest. apply andb_prop in Hrest.
    destruct Hrest as [Hc2 _].
    pose proof (isDigit_cases c2 Hc2) as Hd2. cbn [In] in Hd2.
    decompose [or] Hd; subst; try contradiction;
      try (cbv beta iota zeta; rewrite Hds; reflexivity).
    decompose [or] Hd2; subst; try contradiction;
      cbv beta iota zeta; rewrite Hds; reflexivity.
Qed.

Lemma ofNat_parsed (n : nat) : config.parseInt (ofNat n) = Some (Z.of_nat n).
Proof.
  unfold ofNat, NilZero.string_of_uint.
  destruct (Nat.to_uint n) eqn:E;
    try (rewrite <- E; rewrite parseInt_digits;
         [ rewrite leadingDigits_uint, digitsValue_uint, DecimalNat.Unsigned.of_to; reflexivity
         | apply allDigits_uint
         | rewrite E; discriminate ]).
  pose proof (DecimalNat.Unsigned.of_to n) as H. rewrite E in H. cbn in H. subst n. reflexivity.
Qed.

Lemma orElse_truthy value fallback :
  truthy fallback = true -> truthy (config.orElse value fallback) = true.
Proof.
  intros H. unfold config.orElse. destruct value as [v |]; [| exact H].
  destruct (truthy v) eqn:E; [exact E | exact H].
Qed.

Lemma intOrElse_nonzero value fallback :
  fallback <> 0%Z -> config.intOrElse value fallback <> 0%Z.
Proof.
  intros H. unfold config.intOrElse. destruct value as [v |]; [| exact H].
  destruct (config.parseInt v) as [n |]; [| exact H].
  destruct (n =? 0)%Z eqn:E; [exact H |]. apply Z.eqb_neq. exact E.
Qed.


End Configuration.

(* ================================================================== *)
(** ** The theorems at work on scripted pages                          *)
(* ================================================================== *)

#[global] Existing Instance Sim.browser.

Ltac among := repeat (first [left; reflexivity | right]).

(** The cart stage in front of the sold-out badge, and a whole run that
    meets it. *)
Lemma sold_out_run_witness :
  (fst (bot.addToCart defaultConfig Scenario.soldOutDay) = Throw soldOutError /\
   trace (snd (bot.addToCart defaultConfig Scenario.soldOutDay))
     = [waitEvent (addToCartBtn selectors) None]) /\
  (fst (bot.bookParkingPass defaultConfig Scenario.soldOutDay) = Throw soldOutError /\
   ~ In checkoutStep (log (snd (bot.bookParkingPass defaultConfig Scenario.soldOutDay)))).
Proof.
  destruct (sold_out_run_never_checks_out defaultConfig Scenario.soldOutDay) as [Hcart Hrun].
  split.
  - destruct (Hcart (world Scenario.soldOutDay)) as [Hthrows [_ Htrace]].
    + vm_compute. reflexivity.
    + vm_compute. discriminate.
    + split; [exact Hthrows | exact Htrace].
  - apply Hrun.
    + vm_compute. reflexivity.
    + vm_compute. among.
Defined.







(** on a page that does not change, every poll sees the same page *)
Lemma pollWorld_frames (f : Sim.Frame) (interval : Z) (k : nat) (c : Z) :
  Sim.frames (pollWorld interval k (Sim.mkWorld [f] c)) = [f].
Proof.
  induction k as [| k IH]; [reflexivity |].
  change (Sim.frames (Sim.advance (pollWorld interval k (Sim.mkWorld [f] c)) interval) = [f]).
  unfold Sim.advance. cbn [Sim.frames]. rewrite IH. reflexivity.
Qed.


(** A trigger that finds the guard set. *)
Lemma running_guard_witness :
  isRunning (snd (scheduler.runScheduledJob defaultConfig "morning_booking" Scenario.busy)) = true /\
  trace (snd (scheduler.runScheduledJob defaultConfig "morning_booking" Scenario.busy))
    = trace Scenario.busy.
Proof.
  destruct (running_guard_skips_job defaultConfig "morning_booking" Scenario.busy)
    as [_ [Hguard [Htrace _]]].
  - vm_compute; reflexivity.
  - split; [exact Hguard | exact Htrace].
Defined.

(** The click fails three times; what is thrown is the click's own error,
    which does not name the target. *)
Lemma clickElement_counterexample :
  fst (utils.clickElement "#checkOutButton" utils.defaultMaxRetries Scenario.detachedButton)
    = Throw Scenario.detached /\
  attempts (trace (snd (utils.clickElement "#checkOutButton" utils.defaultMaxRetries
                          Scenario.detachedButton))) = 3%nat /\
  includes (message Scenario.detached) "#checkOutButton" = false.
Proof. vm_compute. repeat split; reflexivity. Qed.


(* ---------------------------------------------------------------- *)
(** *** Whole runs                                                   *)

(** The run that meets the sold-out badge fails, and its browser is
    closed at the end. *)
Lemma run_closes_browser_witness :
  browser (snd (bot.bookParkingPass defaultConfig Scenario.soldOutDay)) = true /\
  exists t r,
    trace (snd (bot.bookParkingPass defaultConfig Scenario.soldOutDay))
      = trace Scenario.soldOutDay ++ t ++ [closeEvent r].
Proof.
  split; [vm_compute; reflexivity |].
  apply (proj2 (run_always_closes_browser defaultConfig Scenario.soldOutDay)).
  vm_compute. reflexivity.
Defined.

(** The same run reports the error it ends with. *)
Lemma failed_run_witness :
  fst (bot.bookParkingPass defaultConfig Scenario.soldOutDay) = Throw soldOutError /\
  In (runFailed soldOutError) (log (snd (bot.bookParkingPass defaultConfig Scenario.soldOutDay))).
Proof.
  split; [vm_compute; reflexivity |].
  apply (failed_run_is_reported defaultConfig Scenario.soldOutDay soldOutError).
  vm_compute. reflexivity.
Defined.

(** A signed-in user in front of a free day: the run goes through, and
    the checkout button was clicked. *)
Lemma successful_run_witness :
  fst (bot.bookParkingPass defaultConfig Cases.signedIn) = Ok true /\
  exists l t,
    log (snd (bot.bookParkingPass defaultConfig Cases.signedIn)) = log Cases.signedIn ++ l /\
    In checkoutStep l /\
    trace (snd (bot.bookParkingPass defaultConfig Cases.signedIn)) = trace Cases.signedIn ++ t /\
    In (clickEvent (checkoutBtn selectors) None) t.
Proof.
  split; [vm_compute; reflexivity |].
  apply (successful_run_clicked_checkout defaultConfig Cases.signedIn true).
  vm_compute. reflexivity.
Defined.

(** A trigger at rest: the job runs, fails on the empty page, and the
    guard is released. *)
Lemma job_guard_witness :
  fst (scheduler.runScheduledJob defaultConfig "morning_booking" Cases.idle) = Ok tt /\
  isRunning (snd (scheduler.runScheduledJob defaultConfig "morning_booking" Cases.idle)) = false.
Proof.
  destruct (scheduled_job_releases_guard defaultConfig "morning_booking" Cases.idle)
    as [Hr [Hguard _]].
  - vm_compute. reflexivity.
  - split; [exact Hr | exact Hguard].
Defined.

(* ---------------------------------------------------------------- *)
(** *** The first stages                                             *)

(** The browser does not start: the error is thrown on and no browser
    is held. *)
Lemma initialize_witness :
  fst (bot.initialize defaultConfig Cases.noBrowser) = Throw Cases.noDisplay /\
  browser (snd (bot.initialize defaultConfig Cases.noBrowser)) = false.
Proof.
  destruct (proj1 (initialize_holds_launched_browser defaultConfig Cases.noBrowser)
              Cases.noDisplay (world Cases.noBrowser)) as (Hr & _ & _ & Hb & _).
  - vm_compute. reflexivity.
  - split; [exact Hr | rewrite Hb; reflexivity].
Defined.

(** The portal cannot be reached. *)
Lemma navigation_witness :
  fst (bot.navigateToPortal defaultConfig Cases.noNetwork) = Throw Cases.offline.
Proof.
  apply (proj1 (navigation_alone_is_fatal defaultConfig Cases.noNetwork)
           Cases.offline (world Cases.noNetwork)).
  vm_compute. reflexivity.
Defined.

(** A pass type that is neither [all_day] nor [half_day], in front of two
    cards: the first one is clicked, with a warning. *)
Lemma unknown_pass_type_witness :
  fst (bot.selectPassType Cases.weekend Scenario.twoCards) = Ok true /\
  trace (snd (bot.selectPassType Cases.weekend Scenario.twoCards))
    = trace Scenario.twoCards
      ++ [mkEvent (Delay 2000) None; clicked Scenario.halfDayCard;
          mkEvent (Delay (delayBetweenActions Cases.weekend)) None] /\
  In firstCardWarning (log (snd (bot.selectPassType Cases.weekend Scenario.twoCards))).
Proof.
  pose proof (pass_type_without_a_match Cases.weekend Scenario.twoCards) as H.
  cbv zeta in H. destruct H as [_ H].
  apply (H Scenario.halfDayCard [Scenario.allDayCard] (elapse (world Scenario.twoCards) 2000)).
  - vm_compute. discriminate.
  - vm_compute. discriminate.
  - vm_compute. reflexivity.
  - vm_compute. reflexivity.
Defined.

(* ---------------------------------------------------------------- *)
(** *** Signing in                                                   *)


(** The code form has the submit button of the configuration. *)
Lemma otp_submission_witness :
  fst (bot.submitOtp defaultConfig Scenario.codeAsked) = Ok true.
Proof.
  pose proof (otp_submission_lookup defaultConfig Scenario.codeAsked) as H.
  cbv zeta in H. destruct H as [H _].
  apply (H [] (otpSubmitBtn selectors) (tl bot.submitSelectors)
           (world Scenario.codeAsked) (world Scenario.codeAsked)).
  - vm_compute. reflexivity.
  - constructor.
  - vm_compute. reflexivity.
  - vm_compute. reflexivity.
  - vm_compute. reflexivity.
Defined.



(* ---------------------------------------------------------------- *)
(** *** The primitives                                               *)

(** Three attempts at a button that is detached: three waits, two
    seconds of pauses. *)
Lemma clickElement_budget_witness :
  exists evs,
    trace (snd (utils.clickElement "#checkOutButton" 3 Scenario.detachedButton))
      = trace Scenario.detachedButton ++ evs /\
    attempts evs = 3%nat /\ delayed evs = 2000%Z.
Proof.
  destruct (proj2 (clickElement_retry_budget "#checkOutButton" 3 Scenario.detachedButton))
    as (evs & Ht & _ & _ & _ & Hthrow); [lia |].
  exists evs. split; [exact Ht |].
  apply (Hthrow Scenario.detached). vm_compute. reflexivity.
Defined.


(** A service that is down, tried three times from one second on: the
    bot waits one second, then two, and gives up. *)
Lemma retry_backoff_witness :
  exists failures,
    trace (snd (utils_rest.retryWithBackoff (throw (A:=unit) Cases.unavailable) 3 1000
                  Cases.idle))
      = trace Cases.idle ++ backoffDelays 1000 failures /\
    failures = 2%nat.
Proof.
  destruct (proj2 (retry_backoff_doubles unit (throw Cases.unavailable) 3 1000 Cases.idle))
    as (failures & _ & Ht & _ & [[a Ha] | [Hf _]]).
  - intros s. reflexivity.
  - intros s. discriminate.
  - lia.
  - vm_compute in Ha. discriminate Ha.
  - exists failures. split; [exact Ht | exact Hf].
Defined.

(* ---------------------------------------------------------------- *)
(** *** After the login                                              *)

(** The entry is covered: the click fails and the scripted click goes
    through. *)
Lemma vehicle_click_witness :
  fst (bot.pickVehicleFromDropdown defaultConfig Cases.coveredEntry) = Ok tt /\
  trace (snd (bot.pickVehicleFromDropdown defaultConfig Cases.coveredEntry))
    = trace Cases.coveredEntry
      ++ [mkEvent (Delay 500) None;
          mkEvent (ElementClick Scenario.teslaY 1) (Some Cases.covered);
          scriptedClick Scenario.teslaY None].
Proof.
  pose proof (vehicle_click_falls_back defaultConfig Cases.coveredEntry Scenario.teslaY []) as H.
  cbv zeta in H. destruct H as [H _].
  - vm_compute. reflexivity.
  - apply (H Cases.covered (elapse (world Cases.coveredEntry) 500)
             (elapse (world Cases.coveredEntry) 500)).
    + vm_compute. reflexivity.
    + vm_compute. reflexivity.
Defined.


(* ---------------------------------------------------------------- *)
(** *** The scheduler                                                *)

(** An expression that is not one: nothing is scheduled. *)
Lemma invalid_cron_witness :
  fst (BotScheduler.scheduleJob Cases.fiveFields "every morning" "daily_booking"
         BotScheduler.fresh) = Ok false /\
  scheduledJobs (snd (BotScheduler.scheduleJob Cases.fiveFields "every morning" "daily_booking"
                        BotScheduler.fresh)) = [].
Proof.
  destruct (invalid_cron_changes_nothing Cases.fiveFields "every morning" "daily_booking"
              BotScheduler.fresh) as (Hr & Hjobs & _).
  - vm_compute. reflexivity.
  - split; [exact Hr | exact Hjobs].
Defined.

Lemma defaultSchedule_names :
  JsMap.keys (scheduledJobs Cases.defaultSchedule)
  = ["morning_booking"; "backup_booking"; "evening_check"].
Proof. vm_compute. reflexivity. Qed.

Lemma defaultSchedule_NoDup : NoDup (JsMap.keys (scheduledJobs Cases.defaultSchedule)).
Proof.
  rewrite defaultSchedule_names.
  repeat (apply NoDup_cons; [cbn [In]; intuition discriminate |]). apply NoDup_nil.
Qed.

(** The morning job of the default schedule is moved to seven o'clock:
    the old task is stopped, the new one started, and the name goes to
    the end of the list. *)
Lemma schedule_job_witness :
  JsMap.keys (scheduledJobs
    (snd (BotScheduler.scheduleJob Cases.fiveFields "0 7 * * *" "morning_booking"
            Cases.defaultSchedule)))
    = ["backup_booking"; "evening_check"; "morning_booking"] /\
  asked (snd (BotScheduler.scheduleJob Cases.fiveFields "0 7 * * *" "morning_booking"
                Cases.defaultSchedule))
    = asked Cases.defaultSchedule
      ++ [Stopped "morning_booking"; Started "morning_booking" "0 7 * * *"].
Proof.
  pose proof (schedule_job_replaces Cases.fiveFields "0 7 * * *" "morning_booking"
                Cases.defaultSchedule) as H.
  cbv zeta in H. destruct H as (_ & _ & Hkeys & _ & _ & Hasked).
  - vm_compute. reflexivity.
  - exact defaultSchedule_NoDup.
  - split.
    + rewrite Hkeys. vm_compute. reflexivity.
    + rewrite Hasked. vm_compute. reflexivity.
Defined.

(** The backup job is stopped: its name is gone, the others stay. *)
Lemma stop_job_witness :
  fst (BotScheduler.stopJob "backup_booking" Cases.defaultSchedule) = Ok true /\
  JsMap.keys (scheduledJobs (snd (BotScheduler.stopJob "backup_booking" Cases.defaultSchedule)))
    = ["morning_booking"; "evening_check"].
Proof.
  destruct (stop_job_forgets_the_name Cases.fiveFields "backup_booking" Cases.defaultSchedule
              defaultSchedule_NoDup) as (_ & H & _).
  destruct (H (scheduledTask "30 08 * * *")) as (Hr & _ & Hkeys & _).
  - vm_compute. reflexivity.
  - split; [exact Hr |]. rewrite Hkeys. vm_compute. reflexivity.
Defined.

(** Half past eight. *)
Lemma cron_expression_witness :
  BotScheduler.scheduleDaily Cases.fiveFields "08:30" "backup_booking"
  = BotScheduler.scheduleJob Cases.fiveFields "30 08 * * *" "backup_booking".
Proof.
  destruct (cron_expression_of_a_time Cases.fiveFields "08" "30") as (H & _).
  - vm_compute. reflexivity.
  - vm_compute. reflexivity.
  - exact (H "backup_booking").
Defined.

(* ---------------------------------------------------------------- *)
(** *** The configuration                                            *)

